(** * RIS ingestion and duplicate detection: a shallow embedding

    This development embeds the parsing, duplicate-classification and
    storage code of the systematic-review tool
    ([utils/parser.py], [utils/data_base.py], [App_/app.py]) and proves
    the properties its specification states about them.

    Conventions of the embedding.
    - A Python [str] is a [string]; a character of type [ascii] stands
      for the code point of the same number, so the model covers the
      texts whose code points are U+0000..U+00FF.  On that range the
      Python built-ins ([str.strip], [str.lower], [str.splitlines],
      the [re] classes) and the SQLite built-ins ([TRIM], [LOWER]) are
      written out from their documented behaviour.
    - [None] is [None] of an option type; Python truthiness of an
      optional string is [truthy].
    - A raised exception is the [Raise] constructor of [result].
    - A dict keyed by tag is a [gmap string _]; a Python [set] of row
      identifiers is a [gset Z]. *)

From Stdlib Require Import Strings.String Strings.Ascii ZArith NArith List Bool Lia.
From stdpp Require Import base gmap strings list.

Open Scope string_scope.
Open Scope list_scope.

(** ** Python built-ins on [str] *)

Module Py.

Definition code (c : ascii) : N := N_of_ascii c.

(** [str.isspace] on one character: U+0009..U+000D, U+001C..U+0020,
    U+0085 and U+00A0. *)
Definition isspace (c : ascii) : bool :=
  let n := code c in
  ((9 <=? n) && (n <=? 13) || (28 <=? n) && (n <=? 32)
   || (n =? 133) || (n =? 160))%N.

(** The line boundaries of [str.splitlines] below U+0100:
    LF, VT, FF, CR, FS, GS, RS and NEL (CR LF counts once). *)
Definition islinebreak (c : ascii) : bool :=
  let n := code c in
  ((10 <=? n) && (n <=? 13) || (28 <=? n) && (n <=? 30) || (n =? 133))%N.

Definition CR : ascii := ascii_of_N 13.
Definition LF : ascii := ascii_of_N 10.

Fixpoint lstrip (s : string) : string :=
  match s with
  | EmptyString => EmptyString
  | String c s' => if isspace c then lstrip s' else s
  end.

Fixpoint rstrip (s : string) : string :=
  match s with
  | EmptyString => EmptyString
  | String c s' =>
      match rstrip s' with
      | EmptyString => if isspace c then EmptyString else String c EmptyString
      | r => String c r
      end
  end.

(** [s.strip()] *)
Definition strip (s : string) : string := rstrip (lstrip s).

(** [str.lower] on one character: A..Z and the capital letters
    U+00C0..U+00DE (U+00D7, the multiplication sign, excepted). *)
Definition lower_char (c : ascii) : ascii :=
  let n := code c in
  if ((65 <=? n) && (n <=? 90)
      || (192 <=? n) && (n <=? 222) && negb (n =? 215))%N
  then ascii_of_N (n + 32) else c.

(** [s.lower()] *)
Fixpoint lower (s : string) : string :=
  match s with
  | EmptyString => EmptyString
  | String c s' => String (lower_char c) (lower s')
  end.

(** [s.splitlines()]: [cur] is the line being read.  A text that ends
    with a line boundary has no empty last line. *)
Fixpoint splitlines_from (cur : string) (s : string) : list string :=
  match s with
  | EmptyString => match cur with EmptyString => [] | _ => [cur] end
  | String c s' =>
      if islinebreak c then
        match s' with
        | String c' s'' =>
            if Ascii.eqb c CR && Ascii.eqb c' LF
            then cur :: splitlines_from EmptyString s''
            else cur :: splitlines_from EmptyString s'
        | EmptyString => cur :: splitlines_from EmptyString s'
        end
      else splitlines_from (cur +:+ String c EmptyString) s'
  end.

Definition splitlines (s : string) : list string :=
  splitlines_from EmptyString s.

(** [s.startswith(p)] *)
Definition startswith (s p : string) : bool := String.prefix p s.

(** [p in s] *)
Fixpoint contains (p s : string) : bool :=
  String.prefix p s ||
  match s with
  | EmptyString => false
  | String _ s' => contains p s'
  end.

(** [s[i:j]] for [0 <= i <= j], and [s[i:]] *)
Definition slice (s : string) (i j : nat) : string := substring i (j - i) s.
Definition slice_from (s : string) (i : nat) : string :=
  substring i (String.length s - i) s.

(** [sep.join(l)] *)
Definition join (sep : string) (l : list string) : string :=
  String.concat sep l.

(** Truthiness of an optional string: neither [None] nor [''] . *)
Definition truthy (o : option string) : bool :=
  match o with
  | Some s => negb (String.eqb s EmptyString)
  | None => false
  end.

(** *** The pattern [\b\d{4}\b] of [re.search] *)

Definition isdigit (c : ascii) : bool :=
  let n := code c in ((48 <=? n) && (n <=? 57))%N.

(** [\w] below U+0100: letters, digits, underscore, and the
    alphanumeric characters of the Latin-1 supplement. *)
Definition isword (c : ascii) : bool :=
  let n := code c in
  ((48 <=? n) && (n <=? 57) || (65 <=? n) && (n <=? 90)
   || (97 <=? n) && (n <=? 122) || (n =? 95)
   || (n =? 170) || (n =? 178) || (n =? 179) || (n =? 181)
   || (n =? 185) || (n =? 186) || (188 <=? n) && (n <=? 190)
   || (192 <=? n) && (n <=? 214) || (216 <=? n) && (n <=? 246)
   || (248 <=? n))%N.

Definition digit_val (c : ascii) : Z := Z.of_N (code c) - 48.

(** A match of [\d{4}\b] at the head of [s], as [int(match.group())]. *)
Definition four_digits_here (s : string) : option Z :=
  match s with
  | String a (String b (String c (String d rest))) =>
      if isdigit a && isdigit b && isdigit c && isdigit d
         && match rest with
            | EmptyString => true
            | String e _ => negb (isword e)
            end
      then Some (1000 * digit_val a + 100 * digit_val b
                 + 10 * digit_val c + digit_val d)%Z
      else None
  | _ => None
  end.

(** Leftmost match; [prev_word] tells whether the character before
    the head of [s] is a word character (no boundary there). *)
Fixpoint search_year_from (prev_word : bool) (s : string) : option Z :=
  match s with
  | EmptyString => None
  | String c s' =>
      match (if prev_word then None else four_digits_here s) with
      | Some y => Some y
      | None => search_year_from (isword c) s'
      end
  end.

Definition search_year (s : string) : option Z := search_year_from false s.

End Py.

(** ** SQLite built-ins

    The functions as the SQLite library shipped with Python defines
    them (no ICU extension): [trim(X)] removes spaces from both ends of
    [X], and [lower(X)] converts the ASCII upper-case letters and
    leaves every other character as it is. *)

Module Sqlite.

(** [TRIM(X)] removes spaces (U+0020) from both ends of [X]. *)
Definition is_blank (c : ascii) : bool := (Py.code c =? 32)%N.

Fixpoint ltrim (s : string) : string :=
  match s with
  | EmptyString => EmptyString
  | String c s' => if is_blank c then ltrim s' else s
  end.

Fixpoint rtrim (s : string) : string :=
  match s with
  | EmptyString => EmptyString
  | String c s' =>
      match rtrim s' with
      | EmptyString => if is_blank c then EmptyString else String c EmptyString
      | r => String c r
      end
  end.

Definition trim (s : string) : string := rtrim (ltrim s).

(** [LOWER(X)] converts the ASCII letters only. *)
Definition lower_char (c : ascii) : ascii :=
  let n := Py.code c in
  if ((65 <=? n) && (n <=? 90))%N then ascii_of_N (n + 32) else c.

Fixpoint lower (s : string) : string :=
  match s with
  | EmptyString => EmptyString
  | String c s' => String (lower_char c) (lower s')
  end.

End Sqlite.

(** ** Data model ([utils/parser.py]) *)

(** The tag mapping: the six semantic fields, each mapped to a RIS tag
    or to [None]. *)
Record TagMapping := {
  tm_title : option string;
  tm_author : option string;
  tm_journal_name : option string;
  tm_publication_year : option string;
  tm_keywords : option string;
  tm_abstract : option string
}.

(** The dict built by [parse_ris_record]. *)
Record NormalizedRecord := {
  title : option string;
  journal : option string;
  year : option Z;
  abstract : option string;
  authors : list string;
  keywords : list string
}.

(** [tag_mapping.values()] *)
Definition mapping_values (tm : TagMapping) : list (option string) :=
  [tm_title tm; tm_author tm; tm_journal_name tm;
   tm_publication_year tm; tm_keywords tm; tm_abstract tm].

(** [tag in relevant_tags], for a tag read from a line (a string). *)
Definition is_relevant (tm : TagMapping) (tag : string) : bool :=
  bool_decide (Some tag ∈ mapping_values tm).

(** [{tag: [] for tag in relevant_tags}], restricted to its string
    keys (the key [None] is never looked up). *)
Definition init_tags (tm : TagMapping) : gmap string (list string) :=
  foldr (fun o m => match o with Some t => <[t := []]> m | None => m end)
        ∅ (mapping_values tm).

(** ** [parse_ris_record] *)

(** [len(line) >= 6 and line[2:5] == "  -"] *)
Definition is_tag_line (line : string) : bool :=
  (6 <=? String.length line)%nat && String.eqb (Py.slice line 2 5) "  -".

(** [vs[-1] += suffix] *)
Fixpoint extend_last (suffix : string) (vs : list string) : list string :=
  match vs with
  | [] => []
  | [v] => [v +:+ suffix]
  | v :: vs' => v :: extend_last suffix vs'
  end.

(** The state of the loop: the accumulator dict and [current_tag]. *)
Record extract_state := {
  tags : gmap string (list string);
  current_tag : option string
}.

(** One iteration of [for line in record_str.splitlines()].  The keys
    of [tags] are the relevant tags ([record_step_keys] below), so the
    subscript [tags[current_tag]] always finds its key. *)
Definition record_step (tm : TagMapping) (st : extract_state) (raw : string)
  : extract_state :=
  let line := Py.strip raw in
  if String.eqb line "" then st
  else if is_tag_line line then
    let tag := Py.slice line 0 2 in
    let content := Py.strip (Py.slice_from line 6) in
    if is_relevant tm tag
    then {| tags := alter (fun vs => vs ++ [content]) tag (tags st);
            current_tag := Some tag |}
    else {| tags := tags st; current_tag := None |}
  else
    match current_tag st with
    | Some t =>
        match tags st !! t with
        | Some (_ :: _) =>
            {| tags := alter (extend_last (" " +:+ line)) t (tags st);
               current_tag := Some t |}
        | _ => st
        end
    | None => st
    end.

(** [tags[x_tag] if x_tag and tags.get(x_tag) else []]: the values kept
    for the tag a field is mapped to. *)
Definition mapped_values (tgs : gmap string (list string)) (field : option string)
  : list string :=
  match field with
  | Some t => if String.eqb t "" then [] else default [] (tgs !! t)
  | None => []
  end.

Definition build_result (tm : TagMapping) (tgs : gmap string (list string))
  : NormalizedRecord :=
  {| title := head (mapped_values tgs (tm_title tm));
     journal := head (mapped_values tgs (tm_journal_name tm));
     year := match head (mapped_values tgs (tm_publication_year tm)) with
             | Some v => Py.search_year v
             | None => None
             end;
     abstract := match mapped_values tgs (tm_abstract tm) with
                 | [] => None
                 | vs => Some (Py.join " " vs)
                 end;
     authors := map Py.strip (mapped_values tgs (tm_author tm));
     keywords := map Py.strip (mapped_values tgs (tm_keywords tm)) |}.

Definition extract_lines (tm : TagMapping) (lines : list string) : extract_state :=
  fold_left (record_step tm) lines {| tags := init_tags tm; current_tag := None |}.

Definition parse_ris_record (record_str : string) (tm : TagMapping)
  : NormalizedRecord :=
  build_result tm (tags (extract_lines tm (Py.splitlines record_str))).

(** ** [parse_ris_content] *)

Definition newline : string := String Py.LF "".

(** [line.startswith("ER") and ("  -" in line or line == "ER")] *)
Definition is_end_of_record (line : string) : bool :=
  Py.startswith line "ER" && (Py.contains "  -" line || String.eqb line "ER").

(** The body shared by the two places that close a chunk: join the
    buffered lines, parse them, keep the record if its title is truthy. *)
Definition flush_record (tm : TagMapping) (records : list NormalizedRecord)
    (current_record : list string) : list NormalizedRecord :=
  let parsed_record := parse_ris_record (Py.join newline current_record) tm in
  if Py.truthy (title parsed_record) then records ++ [parsed_record] else records.

(** One iteration of [for line in content.splitlines()] on the pair
    [(records, current_record)]. *)
Definition content_step (tm : TagMapping)
    (st : list NormalizedRecord * list string) (raw : string)
  : list NormalizedRecord * list string :=
  let line := Py.strip raw in
  if is_end_of_record line then
    match snd st with
    | [] => st
    | _ => (flush_record tm (fst st) (snd st), [])
    end
  else if String.eqb line "" then st
  else (fst st, snd st ++ [line]).

(** The statements after the loop. *)
Definition finish (tm : TagMapping) (st : list NormalizedRecord * list string)
  : list NormalizedRecord :=
  match snd st with
  | [] => fst st
  | _ => flush_record tm (fst st) (snd st)
  end.

Definition parse_lines (tm : TagMapping) (lines : list string)
  : list NormalizedRecord * list string :=
  fold_left (content_step tm) lines ([], []).

Definition parse_ris_content (content : string) (tm : TagMapping)
  : list NormalizedRecord :=
  finish tm (parse_lines tm (Py.splitlines content)).

(** ** The relational store ([utils/data_base.py], [create_database]) *)

Inductive exn := AttributeError | IntegrityError | OperationalError.

Inductive result (A : Type) :=
| Ok (a : A)
| Raise (e : exn).
Arguments Ok {A} a.
Arguments Raise {A} e.

(** A row of [articles]: [title TEXT NOT NULL], the other columns are
    nullable. *)
Record article := {
  a_id : Z;
  a_title : string;
  a_journal_id : option Z;
  a_source_id : option Z;
  a_year : option Z;
  a_abstract : option string
}.

(** The tables, each as its rows in insertion order.  The dimension
    tables hold [(id, name)], the relationship tables hold pairs of
    identifiers. *)
Record database := {
  sources : list (Z * string);
  articles : list article;
  db_authors : list (Z * string);
  journals : list (Z * string);
  db_keywords : list (Z * string);
  article_author : list (Z * Z);
  article_keyword : list (Z * Z)
}.

(** ** [check_duplicates] ([App_/app.py]) *)

(** A fetched row [(a.title, s.name, a.year, a.id, a.abstract)]; the
    identifier is [dup[3]]. *)
Record match_row := {
  m_title : string;
  m_source : option string;
  m_year : option Z;
  m_id : Z;
  m_abstract : option string
}.

Record duplicate_info := {
  new_record : NormalizedRecord;
  source_name : string;
  title_duplicates : list match_row;
  abstract_duplicates : list match_row;
  duplicate_type : list string
}.

(** [LEFT JOIN sources s ON a.source_id = s.id] *)
Definition joined_source (db : database) (sid : option Z) : option string :=
  match sid with
  | Some i => snd <$> List.find (fun r => (fst r =? i)%Z) (sources db)
  | None => None
  end.

Definition select_row (db : database) (a : article) : match_row :=
  {| m_title := a_title a;
     m_source := joined_source db (a_source_id a);
     m_year := a_year a;
     m_id := a_id a;
     m_abstract := a_abstract a |}.

(** [... WHERE LOWER(TRIM(a.title)) = ?] *)
Definition title_where (param : string) (a : article) : bool :=
  String.eqb (Sqlite.lower (Sqlite.trim (a_title a))) param.

(** [... WHERE LOWER(TRIM(a.abstract)) = ? AND a.abstract IS NOT NULL] *)
Definition abstract_where (param : string) (a : article) : bool :=
  match a_abstract a with
  | Some x => String.eqb (Sqlite.lower (Sqlite.trim x)) param
  | None => false
  end.

Definition select_by_title (db : database) (param : string) : list match_row :=
  map (select_row db) (List.filter (title_where param) (articles db)).

Definition select_by_abstract (db : database) (param : string) : list match_row :=
  map (select_row db) (List.filter (abstract_where param) (articles db)).

(** [record.get('abstract', '').strip().lower() if record.get('abstract') else ''] *)
Definition abstract_param (record : NormalizedRecord) : string :=
  match abstract record with
  | Some a => if String.eqb a "" then "" else Py.lower (Py.strip a)
  | None => ""
  end.

(** The abstract query runs only under [if abstract:]. *)
Definition abstract_matches (db : database) (record : NormalizedRecord)
  : list match_row :=
  let abstract := abstract_param record in
  if String.eqb abstract "" then [] else select_by_abstract db abstract.

Definition nonempty {A} (l : list A) : bool :=
  match l with [] => false | _ => true end.

(** [{dup[3] for dup in dups}] *)
Definition id_set (dups : list match_row) : gset Z :=
  list_to_set (map m_id dups).

(** The value of [has_both_title_and_abstract_match] at the test. *)
Definition has_both (title_dups abstract_dups : list match_row) : bool :=
  if nonempty title_dups && nonempty abstract_dups then
    let title_ids := id_set title_dups in
    let abstract_ids := id_set abstract_dups in
    let common_ids := title_ids ∩ abstract_ids in
    (0 <? size common_ids)%nat
  else false.

Definition partitions : Type :=
  (list NormalizedRecord * list duplicate_info * list duplicate_info)%type.

(** One iteration of [for record in new_records].  [record.get('title', '')]
    is [None] for a record whose title is [None], and [None.strip()]
    raises. *)
Definition check_one (db : database) (src : string) (acc : partitions)
    (record : NormalizedRecord) : result partitions :=
  let '(unique_records, full_duplicates, partial_duplicates) := acc in
  match title record with
  | None => Raise AttributeError
  | Some t =>
      let title := Py.lower (Py.strip t) in
      let title_dups := select_by_title db title in
      let abstract_dups := abstract_matches db record in
      if nonempty title_dups || nonempty abstract_dups then
        let info :=
          {| new_record := record;
             source_name := src;
             title_duplicates := title_dups;
             abstract_duplicates := abstract_dups;
             duplicate_type :=
               (if nonempty title_dups then ["title"] else [])
               ++ (if nonempty abstract_dups then ["abstract"] else []) |} in
        if has_both title_dups abstract_dups
        then Ok (unique_records, full_duplicates ++ [info], partial_duplicates)
        else Ok (unique_records, full_duplicates, partial_duplicates ++ [info])
      else Ok (unique_records ++ [record], full_duplicates, partial_duplicates)
  end.

Fixpoint check_loop (db : database) (src : string) (acc : partitions)
    (new_records : list NormalizedRecord) : result partitions :=
  match new_records with
  | [] => Ok acc
  | record :: rest =>
      match check_one db src acc record with
      | Ok acc' => check_loop db src acc' rest
      | Raise e => Raise e
      end
  end.

Definition check_duplicates (db : database) (new_records : list NormalizedRecord)
    (src : string) : result partitions :=
  check_loop db src ([], [], []) new_records.

(** The title query of an incoming record, as [check_one] issues it. *)
Definition title_matches (db : database) (record : NormalizedRecord)
  : list match_row :=
  match title record with
  | Some t => select_by_title db (Py.lower (Py.strip t))
  | None => []
  end.

(** ** Statements and their effect on the store *)

(** The four lookup-or-create tables; each has [id INTEGER PRIMARY KEY]
    and a [NOT NULL UNIQUE] name column. *)
Inductive dimension := Sources | Journals | Authors | Keywords.

Definition table_of (d : dimension) (db : database) : list (Z * string) :=
  match d with
  | Sources => sources db
  | Journals => journals db
  | Authors => db_authors db
  | Keywords => db_keywords db
  end.

Definition add_row (d : dimension) (row : Z * string) (db : database) : database :=
  match d with
  | Sources =>
      {| sources := sources db ++ [row]; articles := articles db;
         db_authors := db_authors db; journals := journals db;
         db_keywords := db_keywords db; article_author := article_author db;
         article_keyword := article_keyword db |}
  | Journals =>
      {| sources := sources db; articles := articles db;
         db_authors := db_authors db; journals := journals db ++ [row];
         db_keywords := db_keywords db; article_author := article_author db;
         article_keyword := article_keyword db |}
  | Authors =>
      {| sources := sources db; articles := articles db;
         db_authors := db_authors db ++ [row]; journals := journals db;
         db_keywords := db_keywords db; article_author := article_author db;
         article_keyword := article_keyword db |}
  | Keywords =>
      {| sources := sources db; articles := articles db;
         db_authors := db_authors db; journals := journals db;
         db_keywords := db_keywords db ++ [row]; article_author := article_author db;
         article_keyword := article_keyword db |}
  end.

Definition add_article (a : article) (db : database) : database :=
  {| sources := sources db; articles := articles db ++ [a];
     db_authors := db_authors db; journals := journals db;
     db_keywords := db_keywords db; article_author := article_author db;
     article_keyword := article_keyword db |}.

Definition add_article_author (p : Z * Z) (db : database) : database :=
  {| sources := sources db; articles := articles db;
     db_authors := db_authors db; journals := journals db;
     db_keywords := db_keywords db; article_author := article_author db ++ [p];
     article_keyword := article_keyword db |}.

Definition add_article_keyword (p : Z * Z) (db : database) : database :=
  {| sources := sources db; articles := articles db;
     db_authors := db_authors db; journals := journals db;
     db_keywords := db_keywords db; article_author := article_author db;
     article_keyword := article_keyword db ++ [p] |}.

(** The statements the storage code sends through [cursor.execute]. *)
Inductive statement :=
| SelectId (d : dimension) (name : string)
| InsertName (d : dimension) (name : string)
| InsertArticle (t : option string) (journal_id source_id : option Z)
                (y : option Z) (abs : option string)
| InsertArticleAuthor (article_id author_id : option Z)
| InsertArticleKeyword (article_id keyword_id : option Z).

(** The row identifier of a fresh row: one more than the largest in
    use, 1 in an empty table. *)
Definition next_rowid (ids : list Z) : Z :=
  match ids with
  | [] => 1
  | i :: rest => (fold_right Z.max i rest + 1)%Z
  end.

Definition has_id (i : Z) (ids : list Z) : bool :=
  existsb (Z.eqb i) ids.

Definition has_name (n : string) (tbl : list (Z * string)) : bool :=
  existsb (fun r => String.eqb (snd r) n) tbl.

Definition has_pair (p : Z * Z) (tbl : list (Z * Z)) : bool :=
  existsb (fun q => (fst q =? fst p)%Z && (snd q =? snd p)%Z) tbl.

(** [SELECT id FROM t WHERE name = ?] followed by [fetchone()] *)
Definition lookup_id (n : string) (tbl : list (Z * string)) : option Z :=
  fst <$> List.find (fun r => String.eqb (snd r) n) tbl.

(** A nullable foreign key is satisfied by NULL or by an existing id. *)
Definition fk_ok (ref : option Z) (ids : list Z) : bool :=
  match ref with
  | Some i => has_id i ids
  | None => true
  end.

(** [INSERT OR IGNORE] into a relationship table: a NULL column or an
    existing pair skips the row; a missing parent row is an error
    ([PRAGMA foreign_keys = ON]). *)
Definition run_link (left right : option Z) (left_ids right_ids : list Z)
    (tbl : list (Z * Z)) (add : Z * Z -> database -> database) (db : database)
  : result (option Z * database) :=
  match left, right with
  | Some l, Some r =>
      if has_pair (l, r) tbl then Ok (None, db)
      else if has_id l left_ids && has_id r right_ids
           then Ok (None, add (l, r) db)
           else Raise IntegrityError
  | _, _ => Ok (None, db)
  end.

(** The effect of one statement when the engine carries it out: the
    value the caller reads back ([fetchone()[0]] or [lastrowid]) and
    the new contents, or the constraint error. *)
Definition run (s : statement) (db : database) : result (option Z * database) :=
  match s with
  | SelectId d n => Ok (lookup_id n (table_of d db), db)
  | InsertName d n =>
      if has_name n (table_of d db) then Raise IntegrityError
      else let i := next_rowid (map fst (table_of d db)) in
           Ok (Some i, add_row d (i, n) db)
  | InsertArticle t j s y abs =>
      match t with
      | None => Raise IntegrityError
      | Some t' =>
          if fk_ok j (map fst (journals db)) && fk_ok s (map fst (sources db))
          then let i := next_rowid (map a_id (articles db)) in
               Ok (Some i,
                   add_article {| a_id := i; a_title := t'; a_journal_id := j;
                                  a_source_id := s; a_year := y;
                                  a_abstract := abs |} db)
          else Raise IntegrityError
      end
  | InsertArticleAuthor a u =>
      run_link a u (map a_id (articles db)) (map fst (db_authors db))
               (article_author db) add_article_author db
  | InsertArticleKeyword a k =>
      run_link a k (map a_id (articles db)) (map fst (db_keywords db))
               (article_keyword db) add_article_keyword db
  end.

(** A connection: what is committed, and what the open transaction
    sees. *)
Record connection := {
  on_disk : database;
  in_txn : database
}.

(** [create_database(db_path)]: the tables exist already, nothing is
    pending after its [commit]. *)
Definition create_database (db : database) : connection :=
  {| on_disk := db; in_txn := db |}.

Definition commit (c : connection) : connection :=
  {| on_disk := in_txn c; in_txn := in_txn c |}.

Definition rollback (c : connection) : connection :=
  {| on_disk := on_disk c; in_txn := on_disk c |}.

(** [conn.close()]: the file keeps what was committed. *)
Definition close (c : connection) : database := on_disk c.

(** ** The storage code ([get_or_create_*], [store_record_in_database]) *)

Section Storage.

(** Failures of the engine itself (locked or full file, exhausted
    row identifiers, ...): which statements it refuses in which
    state is not the program's choice. *)
Variable engine_fails : database -> statement -> bool.

(** Code running on a cursor: it reads and changes the pending
    contents, or raises. *)
Definition M (A : Type) : Type := database -> result (A * database).

Definition ret {A} (a : A) : M A := fun db => Ok (a, db).

Definition bind {A B} (m : M A) (k : A -> M B) : M B :=
  fun db => match m db with
            | Ok (a, db') => k a db'
            | Raise e => Raise e
            end.

Notation "'do' x <- m ; k" := (bind m (fun x => k))
  (at level 10, x name, m at level 100, k at level 200).

(** [cursor.execute(...)] *)
Definition execute (s : statement) : M (option Z) :=
  fun db => if engine_fails db s then Raise OperationalError else run s db.

Definition get_or_create (d : dimension) (name : option string) : M (option Z) :=
  if Py.truthy name then
    let n := default "" name in
    do found <- execute (SelectId d n);
    match found with
    | Some i => ret (Some i)
    | None => execute (InsertName d n)
    end
  else ret None.

Definition get_or_create_source (name : string) : M (option Z) :=
  get_or_create Sources (Some name).
Definition get_or_create_journal (name : option string) : M (option Z) :=
  get_or_create Journals name.
Definition get_or_create_author (name : string) : M (option Z) :=
  get_or_create Authors (Some name).
Definition get_or_create_keyword (name : string) : M (option Z) :=
  get_or_create Keywords (Some name).

(** [for author_name in record.get('authors', [])] *)
Fixpoint store_authors (article_id : option Z) (names : list string) : M unit :=
  match names with
  | [] => ret tt
  | author_name :: rest =>
      if String.eqb author_name "" then store_authors article_id rest
      else
        do author_id <- get_or_create_author author_name;
        do _u <- execute (InsertArticleAuthor article_id author_id);
        store_authors article_id rest
  end.

(** [for keyword_term in record.get('keywords', [])] *)
Fixpoint store_keywords (article_id : option Z) (terms : list string) : M unit :=
  match terms with
  | [] => ret tt
  | keyword_term :: rest =>
      if String.eqb keyword_term "" then store_keywords article_id rest
      else
        do keyword_id <- get_or_create_keyword keyword_term;
        do _u <- execute (InsertArticleKeyword article_id keyword_id);
        store_keywords article_id rest
  end.

Definition store_record_in_database (record : NormalizedRecord) (src : string)
  : M (option Z) :=
  do source_id <- get_or_create_source src;
  do journal_id <- get_or_create_journal (journal record);
  do article_id <- execute (InsertArticle (title record) journal_id source_id
                                          (year record) (abstract record));
  do _u <- store_authors article_id (authors record);
  do _v <- store_keywords article_id (keywords record);
  ret article_id.

(** [for record in records: store_record_in_database(...); count += 1] *)
Fixpoint store_loop (src : string) (records : list NormalizedRecord)
    (count : nat) : M nat :=
  match records with
  | [] => ret count
  | record :: rest =>
      do _id <- store_record_in_database record src;
      store_loop src rest (S count)
  end.

(** The [try / except / finally] around the loop, in both callers:
    commit when the loop ends, roll back and re-raise otherwise, and
    close the connection either way. *)
Definition store_batch (src : string) (records : list NormalizedRecord)
    (db : database) : result nat * database :=
  let conn := create_database db in
  match store_loop src records 0 (in_txn conn) with
  | Ok (count, db') =>
      (Ok count, close (commit {| on_disk := on_disk conn; in_txn := db' |}))
  | Raise e =>
      (Raise e, close (rollback conn))
  end.

(** [process_ris_file]; [content] is the text read from the file. *)
Definition process_ris_file (content : string) (src : string)
    (tag_mapping : TagMapping) (db : database) : result nat * database :=
  let records := parse_ris_content content tag_mapping in
  store_batch src records db.

(** The dict returned by [process_uploaded_file]. *)
Record report := {
  total_records : nat;
  unique_stored : nat;
  full_duplicates_found : nat;
  partial_duplicates_found : nat;
  full_duplicates_info : list duplicate_info;
  partial_duplicates_info : list duplicate_info;
  tag_mapping_used : TagMapping
}.

(** [process_uploaded_file]; the tag mapping is what the external
    mapping provider answered for this file. *)
Definition process_uploaded_file (content : string) (src : string)
    (tag_mapping : TagMapping) (db : database) : result report * database :=
  let records := parse_ris_content content tag_mapping in
  match check_duplicates db records src with
  | Raise e => (Raise e, db)
  | Ok (unique_records, full_duplicates, partial_duplicates) =>
      match store_batch src unique_records db with
      | (Ok stored_count, db') =>
          (Ok {| total_records := length records;
                 unique_stored := stored_count;
                 full_duplicates_found := length full_duplicates;
                 partial_duplicates_found := length partial_duplicates;
                 full_duplicates_info := full_duplicates;
                 partial_duplicates_info := partial_duplicates;
                 tag_mapping_used := tag_mapping |}, db')
      | (Raise e, db') => (Raise e, db')
      end
  end.

End Storage.

(** ** Vocabulary for the classifier's properties *)

(** The three outcomes; [verdict] names the list to which one iteration
    of [check_duplicates] appends the record. *)
Inductive DuplicateVerdict := Unique | FullDuplicate | PartialDuplicate.

Definition verdict_eqb (v w : DuplicateVerdict) : bool :=
  match v, w with
  | Unique, Unique | FullDuplicate, FullDuplicate
  | PartialDuplicate, PartialDuplicate => true
  | _, _ => false
  end.

Definition verdict (db : database) (record : NormalizedRecord) : DuplicateVerdict :=
  let title_dups := title_matches db record in
  let abstract_dups := abstract_matches db record in
  if nonempty title_dups || nonempty abstract_dups then
    if has_both title_dups abstract_dups then FullDuplicate else PartialDuplicate
  else Unique.

(** The evidence attached to a record that is not unique. *)
Definition evidence (db : database) (src : string) (record : NormalizedRecord)
  : duplicate_info :=
  {| new_record := record;
     source_name := src;
     title_duplicates := title_matches db record;
     abstract_duplicates := abstract_matches db record;
     duplicate_type :=
       (if nonempty (title_matches db record) then ["title"] else [])
       ++ (if nonempty (abstract_matches db record) then ["abstract"] else []) |}.

Definition with_verdict (db : database) (v : DuplicateVerdict)
    (records : list NormalizedRecord) : list NormalizedRecord :=
  List.filter (fun r => verdict_eqb (verdict db r) v) records.

Definition titled (r : NormalizedRecord) : Prop := is_Some (title r).

(** The Python sets of identifiers built from the two fetched lists
    have an element in common. *)
Definition common_id (title_dups abstract_dups : list match_row) : Prop :=
  id_set title_dups ∩ id_set abstract_dups ≠ ∅.

(** ** Sample data used by the examples below *)

Definition empty_db : database :=
  {| sources := []; articles := []; db_authors := []; journals := [];
     db_keywords := []; article_author := []; article_keyword := [] |}.

(** An engine that carries out every statement. *)
Definition quiet_engine : database -> statement -> bool := fun _ _ => false.

Definition ris_mapping : TagMapping :=
  {| tm_title := Some "TI"; tm_author := Some "AU"; tm_journal_name := Some "JO";
     tm_publication_year := Some "PY"; tm_keywords := Some "KW";
     tm_abstract := Some "AB" |}.

Definition abstract_only_mapping : TagMapping :=
  {| tm_title := None; tm_author := None; tm_journal_name := None;
     tm_publication_year := None; tm_keywords := None;
     tm_abstract := Some "AB" |}.

Definition bare_record (t : string) (abs : option string) : NormalizedRecord :=
  {| title := Some t; journal := None; year := None; abstract := abs;
     authors := []; keywords := [] |}.

(** Two stored rows: the first carries a padded title. *)
Definition sample_store : database :=
  {| sources := [(1%Z, "Scopus")];
     articles :=
       [ {| a_id := 1; a_title := "  Deep Learning  "; a_journal_id := None;
            a_source_id := Some 1%Z; a_year := Some 2015%Z;
            a_abstract := Some "A study of networks" |};
         {| a_id := 2; a_title := "Graph Theory"; a_journal_id := None;
            a_source_id := Some 1%Z; a_year := None;
            a_abstract := Some "On trees" |} ];
     db_authors := []; journals := []; db_keywords := [];
     article_author := []; article_keyword := [] |}.

(** Same title and same abstract as row 1. *)
Definition incoming_full : NormalizedRecord :=
  bare_record "DEEP LEARNING" (Some " a study of NETWORKS").
(** The title of row 1 and the abstract of row 2. *)
Definition incoming_partial : NormalizedRecord :=
  bare_record "deep learning" (Some "On Trees").
(** The title of row 2, no abstract. *)
Definition incoming_title_only : NormalizedRecord :=
  bare_record "Graph theory" None.
Definition incoming_unique : NormalizedRecord :=
  bare_record "Quantum walks" (Some "").

Definition sample_incoming : list NormalizedRecord :=
  [incoming_partial; incoming_unique; incoming_full; incoming_title_only].

(** A title with a capital letter outside ASCII: U+00C9 followed by
    "cole". *)
Definition E_acute : ascii := ascii_of_N 201.
Definition accented_title : string := String E_acute "cole".
Definition accented_content : string :=
  "TI  - " +:+ accented_title +:+ newline +:+ "ER  - " +:+ newline.
Definition accented_record : NormalizedRecord := bare_record accented_title None.

(** The store after the file has been ingested once. *)
Definition accented_store : database :=
  snd (process_uploaded_file quiet_engine accented_content "Scopus"
         ris_mapping empty_db).

(** The end-of-record test in the words of the specification: the line
    starts with [ER] followed by the separator, or is exactly [ER]. *)
Definition spec_end_of_record (line : string) : bool :=
  String.prefix "ER  -" line || String.eqb line "ER".

Definition stray_marker_content : string :=
  "TI  - First" +:+ newline +:+ "ERRATA  - none" +:+ newline +:+ "AB  - Text"
  +:+ newline +:+ "ER  - " +:+ newline.

(** A record that the classifier may receive: its title is present and
    not empty. *)
Definition has_title (r : NormalizedRecord) : Prop :=
  exists t, title r = Some t /\ t <> "".

Definition two_record_content : string :=
  "TI  - First" +:+ newline +:+ "AB  - Text" +:+ newline +:+ "ER  - "
  +:+ newline +:+ "AB  - no title here" +:+ newline +:+ "ER  - " +:+ newline
  +:+ "TI  - Last" +:+ newline +:+ "AU  - Doe, A.".

Definition continuation_chunk : string :=
  "AB  - Part one" +:+ newline +:+ "of the abstract".

(** An engine that refuses to insert the article with the given title
    and carries out everything else. *)
Definition refuse_title (t : string) : database -> statement -> bool :=
  fun _ s =>
    match s with
    | InsertArticle (Some t') _ _ _ _ => String.eqb t' t
    | _ => false
    end.

Definition three_record_content : string :=
  "TI  - Alpha" +:+ newline +:+ "ER  - " +:+ newline
  +:+ "TI  - Beta" +:+ newline +:+ "ER  - " +:+ newline
  +:+ "TI  - Gamma" +:+ newline +:+ "ER  - " +:+ newline.

(** A record with a title and nothing else but blank authors and
    keywords. *)
Definition sparse_record : NormalizedRecord :=
  {| title := Some "Alpha"; journal := Some ""; year := None; abstract := None;
     authors := [""; "Doe, A."; ""]; keywords := [""] |}.

(** [record] with the empty entries of its two sequences removed. *)
Definition without_blanks (r : NormalizedRecord) : NormalizedRecord :=
  {| title := title r; journal := journal r; year := year r;
     abstract := abstract r;
     authors := List.filter (fun a => negb (String.eqb a "")) (authors r);
     keywords := List.filter (fun k => negb (String.eqb k "")) (keywords r) |}.

(** What the author loop leaves alone, and likewise the keyword loop. *)
Definition authors_frame (db db' : database) : Prop :=
  articles db' = articles db /\ sources db' = sources db /\
  journals db' = journals db /\ db_keywords db' = db_keywords db /\
  article_keyword db' = article_keyword db /\
  has_name "" (db_authors db') = has_name "" (db_authors db).

Definition keywords_frame (db db' : database) : Prop :=
  articles db' = articles db /\ sources db' = sources db /\
  journals db' = journals db /\ db_authors db' = db_authors db /\
  article_author db' = article_author db /\
  has_name "" (db_keywords db') = has_name "" (db_keywords db).

(** The store is unchanged, or one row with a non-empty name was added
    to the table [d]. *)
Definition at_most_one_row (d : dimension) (db db' : database) : Prop :=
  db' = db \/ exists i n, n <> "" /\ db' = add_row d (i, n) db.

(** Characters on which the two engines agree: ASCII, and no white
    space other than the space itself. *)
Definition plain_char (c : ascii) : bool :=
  (Py.code c <? 128)%N && (negb (Py.isspace c) || (Py.code c =? 32)%N).

Fixpoint plain (s : string) : bool :=
  match s with
  | EmptyString => true
  | String c s' => plain_char c && plain s'
  end.

(** ** Further sample data *)

(** The store after the three-record file has been ingested. *)
Definition three_record_store : database :=
  snd (process_uploaded_file quiet_engine three_record_content "Scopus"
         ris_mapping empty_db).


(** [sample_store] with one more article. *)
Definition grown_store : database :=
  add_article {| a_id := 3; a_title := "Quantum walks"; a_journal_id := None;
                 a_source_id := Some 1%Z; a_year := None;
                 a_abstract := None |} sample_store.

Definition full_record : NormalizedRecord :=
  {| title := Some "Alpha"; journal := Some "Nature"; year := Some 2020%Z;
     abstract := Some "Text"; authors := ["Doe, A."; ""; "Roe, B."];
     keywords := ["graphs"] |}.

(** ** [check_duplicates] on a store that may refuse ([App_/app.py])

    [check_duplicates] opens a connection of its own and sends its
    queries outside any [try]: what [sqlite3.connect] or
    [cursor.execute] raises leaves the function.  [check_duplicates]
    above is the function on a store that answers; here the refusals
    are explicit, as they are for the storage code. *)
Inductive query :=
| Connect
| SelectByTitle (param : string)
| SelectByAbstract (param : string).

Section Queries.

Variable query_fails : database -> query -> bool.

Definition check_one_with (db : database) (src : string) (acc : partitions)
    (record : NormalizedRecord) : result partitions :=
  let '(unique_records, full_duplicates, partial_duplicates) := acc in
  match title record with
  | None => Raise AttributeError
  | Some t =>
      let title := Py.lower (Py.strip t) in
      let abstract := abstract_param record in
      if query_fails db (SelectByTitle title) then Raise OperationalError
      else
        let title_dups := select_by_title db title in
        if negb (String.eqb abstract "")
           && query_fails db (SelectByAbstract abstract)
        then Raise OperationalError
        else
          let abstract_dups :=
            if String.eqb abstract "" then []
            else select_by_abstract db abstract in
          if nonempty title_dups || nonempty abstract_dups then
            let info :=
              {| new_record := record;
                 source_name := src;
                 title_duplicates := title_dups;
                 abstract_duplicates := abstract_dups;
                 duplicate_type :=
                   (if nonempty title_dups then ["title"] else [])
                   ++ (if nonempty abstract_dups then ["abstract"] else []) |} in
            if has_both title_dups abstract_dups
            then Ok (unique_records, full_duplicates ++ [info], partial_duplicates)
            else Ok (unique_records, full_duplicates, partial_duplicates ++ [info])
          else Ok (unique_records ++ [record], full_duplicates, partial_duplicates)
  end.

Fixpoint check_loop_with (db : database) (src : string) (acc : partitions)
    (new_records : list NormalizedRecord) : result partitions :=
  match new_records with
  | [] => Ok acc
  | record :: rest =>
      match check_one_with db src acc record with
      | Ok acc' => check_loop_with db src acc' rest
      | Raise e => Raise e
      end
  end.

Definition check_duplicates_with (db : database)
    (new_records : list NormalizedRecord) (src : string) : result partitions :=
  if query_fails db Connect then Raise OperationalError
  else check_loop_with db src ([], [], []) new_records.

End Queries.

(** ** Vocabulary for the parser's further properties *)

(** A text without line boundary. *)
Fixpoint one_line (s : string) : bool :=
  match s with
  | EmptyString => true
  | String c s' => negb (Py.islinebreak c) && one_line s'
  end.

(** A text of white space only. *)
Fixpoint blank (s : string) : bool :=
  match s with
  | EmptyString => true
  | String c s' => Py.isspace c && blank s'
  end.

(** A RIS line: the tag, the separator, the content. *)
Definition tag_line (tag content : string) : string :=
  tag +:+ "  - " +:+ content.

(** A tag as a line can carry it: two characters on one line, the first
    of which is not white space. *)
Definition tag_ok (tag : string) : bool :=
  match tag with
  | String a (String b EmptyString) =>
      negb (Py.isspace a) && negb (Py.islinebreak b)
  | _ => false
  end.

(** The lines that [current_record] holds after a text with no
    end-of-record line: its lines, trimmed, without the empty ones. *)
Definition pending_lines (content : string) : list string :=
  List.filter (fun line => negb (String.eqb line ""))
    (map Py.strip (Py.splitlines content)).

(** A text that ends in a record without terminator. *)
Definition unterminated_tail : string :=
  "TI  - Last" +:+ newline +:+ "AU  - Doe, A.".

Definition last_record : NormalizedRecord :=
  {| title := Some "Last"; journal := None; year := None; abstract := None;
     authors := ["Doe, A."]; keywords := [] |}.

(** The end-of-record lines among the lines of a text. *)
Definition count_markers (lines : list string) : nat :=
  length (List.filter (fun raw => is_end_of_record (Py.strip raw)) lines).

(** ** [build_ideal_record] ([utils/ris_fonctionalitys.py])

    The function reads the file line by line through one iterator,
    which its two loops share: the outer loop looks for the line of a
    tag not seen before; the inner loop then takes the lines that
    follow, and the tag line that ends it has been taken from the
    iterator when the outer loop resumes.  [lines] are the lines the
    iterator yields, each with its line ending; [collecting] tells
    which of the two loops takes the next line. *)

(** [line_stripped and len(line_stripped) >= 5 and line_stripped[2:5] == "  -"] *)
Definition has_tag (line : string) : bool :=
  let line_stripped := Py.strip line in
  negb (String.eqb line_stripped "")
  && (5 <=? String.length line_stripped)%nat
  && String.eqb (Py.slice line_stripped 2 5) "  -".

(** [line_stripped[:2]] *)
Definition tag_of (line : string) : string := Py.slice (Py.strip line) 0 2.

Fixpoint ideal_scan (collecting : bool) (seen_tags : gset string)
    (lines : list string) : list string :=
  match lines with
  | [] => []
  | line :: rest =>
      if collecting then
        if has_tag line then ideal_scan false seen_tags rest
        else line :: ideal_scan true seen_tags rest
      else if has_tag line then
        if bool_decide (tag_of line ∈ seen_tags)
        then ideal_scan false seen_tags rest
        else line :: ideal_scan true ({[tag_of line]} ∪ seen_tags) rest
      else ideal_scan false seen_tags rest
  end.

Definition build_ideal_record (lines : list string) : list string :=
  ideal_scan false ∅ lines.

(** The first, third, fifth, ... element of a list. *)
Fixpoint every_other {A} (l : list A) : list A :=
  match l with
  | [] => []
  | x :: l' => x :: match l' with
                    | [] => []
                    | _ :: rest => every_other rest
                    end
  end.

(** ** [DatabaseManager] ([App_/screening.py]) *)

(** The statements of [get_total_count] and [remove_articles]; the
    identifiers are the parameters bound to [IN (?, ..., ?)]. *)
Inductive screening_statement :=
| CountArticles
| DeleteArticleAuthor (article_ids : list Z)
| DeleteArticleKeyword (article_ids : list Z)
| DeleteArticles (article_ids : list Z).

(** [id IN (...)] *)
Definition id_in (ids : list Z) (i : Z) : bool := has_id i ids.

Definition delete_links (ids : list Z) (tbl : list (Z * Z)) : list (Z * Z) :=
  List.filter (fun p => negb (id_in ids (fst p))) tbl.

Definition delete_articles (ids : list Z) (tbl : list article) : list article :=
  List.filter (fun a => negb (id_in ids (a_id a))) tbl.

(** The store after a statement, and its [rowcount]. *)
Definition run_screening (s : screening_statement) (db : database)
  : nat * database :=
  match s with
  | CountArticles => (length (articles db), db)
  | DeleteArticleAuthor ids =>
      (length (article_author db) - length (delete_links ids (article_author db)),
       {| sources := sources db; articles := articles db;
          db_authors := db_authors db; journals := journals db;
          db_keywords := db_keywords db;
          article_author := delete_links ids (article_author db);
          article_keyword := article_keyword db |})
  | DeleteArticleKeyword ids =>
      (length (article_keyword db) - length (delete_links ids (article_keyword db)),
       {| sources := sources db; articles := articles db;
          db_authors := db_authors db; journals := journals db;
          db_keywords := db_keywords db;
          article_author := article_author db;
          article_keyword := delete_links ids (article_keyword db) |})
  | DeleteArticles ids =>
      (length (articles db) - length (delete_articles ids (articles db)),
       {| sources := sources db; articles := delete_articles ids (articles db);
          db_authors := db_authors db; journals := journals db;
          db_keywords := db_keywords db;
          article_author := article_author db;
          article_keyword := article_keyword db |})
  end.

Section Screening.

(** Which statements the engine refuses, as for the storage code. *)
Variable engine_refuses : database -> screening_statement -> bool.

(** [get_total_count]: the count, or 0 when the query raises. *)
Definition get_total_count (db : database) : nat :=
  if engine_refuses db CountArticles then 0%nat
  else fst (run_screening CountArticles db).

(** [remove_articles]: the three deletions in one transaction.  An
    exception leaves the [with] block, which rolls back, and is
    answered by 0; otherwise the transaction is committed and the
    [rowcount] of the last deletion is returned. *)
Definition remove_articles (article_ids : list Z) (db : database)
  : nat * database :=
  match article_ids with
  | [] => (0%nat, db)
  | _ =>
      if engine_refuses db (DeleteArticleAuthor article_ids) then (0%nat, db)
      else
        let db1 := snd (run_screening (DeleteArticleAuthor article_ids) db) in
        if engine_refuses db1 (DeleteArticleKeyword article_ids) then (0%nat, db)
        else
          let db2 := snd (run_screening (DeleteArticleKeyword article_ids) db1) in
          if engine_refuses db2 (DeleteArticles article_ids) then (0%nat, db)
          else
            let '(removed_count, db3) :=
              run_screening (DeleteArticles article_ids) db2 in
            (removed_count, db3)
  end.

End Screening.

(** An engine that carries out every screening statement. *)
Definition quiet_screening : database -> screening_statement -> bool :=
  fun _ _ => false.

(** ** [process_partial_duplicate_decisions] ([App_/app.py])

    The state is the store and the entry [partial_duplicate_decisions]
    of the session ([None] when the session has no such entry; the
    dict in insertion order otherwise).  The calls that only display a
    notice, and the request to run the script again, change neither
    and are left out. *)

(** The three options of the radio button. *)
Inductive decision := ReviewLater | IsDuplicate | IsUnique.

Record decision_info := {
  di_decision : decision;
  di_record : NormalizedRecord;
  di_source_name : string
}.

Definition is_unique_decision (d : decision_info) : bool :=
  match di_decision d with IsUnique => true | _ => false end.

Section Decisions.

Variable engine_fails : database -> statement -> bool.

(** [for item in records_to_add: store_record_in_database(...); stored_count += 1] *)
Fixpoint store_items (items : list decision_info) (count : nat) : M nat :=
  match items with
  | [] => ret count
  | item :: rest =>
      bind (store_record_in_database engine_fails (di_record item)
              (di_source_name item))
           (fun _ => store_items rest (S count))
  end.

Definition process_partial_duplicate_decisions
    (session : option (list (string * decision_info))) (db : database)
  : option (list (string * decision_info)) * database :=
  match session with
  | None => (None, db)
  | Some decisions =>
      let records_to_add := List.filter is_unique_decision (map snd decisions) in
      match records_to_add with
      | [] => (session, db)
      | _ =>
          let conn := create_database db in
          match store_items records_to_add 0 (in_txn conn) with
          | Ok (stored_count, db') =>
              (Some [], close (commit {| on_disk := on_disk conn; in_txn := db' |}))
          | Raise e => (session, close (rollback conn))
          end
      end
  end.

End Decisions.

(** ** The comparison list of [display_partial_duplicates_analysis]
    ([App_/app.py]) *)

(** [all_matches]: the title matches, then the abstract matches. *)
Definition all_matches (dup : duplicate_info) : list match_row :=
  (if nonempty (title_duplicates dup) then title_duplicates dup else [])
  ++ (if nonempty (abstract_duplicates dup) then abstract_duplicates dup else []).

(** [match_types] *)
Definition match_types (dup : duplicate_info) : list string :=
  (if nonempty (title_duplicates dup) then ["Title Match"] else [])
  ++ (if nonempty (abstract_duplicates dup) then ["Abstract Match"] else []).

(** The loop that keeps the first row of each identifier. *)
Fixpoint keep_first (seen_ids : gset Z) (matches : list match_row)
  : list match_row :=
  match matches with
  | [] => []
  | m :: rest =>
      if bool_decide (m_id m ∈ seen_ids) then keep_first seen_ids rest
      else m :: keep_first ({[m_id m]} ∪ seen_ids) rest
  end.

Definition unique_matches (dup : duplicate_info) : list match_row :=
  keep_first ∅ (all_matches dup).

(** Lines as a file iterator yields them, for the examples. *)
Definition three_tag_lines : list string :=
  ["TY  - JOUR" +:+ newline; "TI  - A title" +:+ newline;
   "AU  - Doe, A." +:+ newline].

(** A session with one record approved, one rejected and one left for
    later; the approved one repeats the title of a stored article. *)
Definition sample_decisions : list (string * decision_info) :=
  [ ("partial_dup_0",
     {| di_decision := IsUnique; di_record := incoming_title_only;
        di_source_name := "PubMed" |});
    ("partial_dup_1",
     {| di_decision := IsDuplicate; di_record := incoming_partial;
        di_source_name := "PubMed" |});
    ("partial_dup_2",
     {| di_decision := ReviewLater; di_record := incoming_unique;
        di_source_name := "PubMed" |}) ].
(** * Facts about the string built-ins *)

Arguments String.append : simpl nomatch.

Lemma append_nil_r (s : string) : s +:+ "" = s.
Proof. induction s as [|c s IH]; [reflexivity|]. simpl. f_equal. exact IH. Qed.

Lemma append_assoc (a b c : string) : (a +:+ b) +:+ c = a +:+ (b +:+ c).
Proof. induction a as [|x a IH]; [reflexivity|]. simpl. f_equal. exact IH. Qed.

Lemma prefix_spec (p s : string) :
  String.prefix p s = true <-> exists rest, s = p +:+ rest.
Proof.
  revert s. induction p as [|c p IH]; intros [|d s]; simpl.
  - split; [exists ""; reflexivity | reflexivity].
  - split; [intros _; eexists; reflexivity | reflexivity].
  - split; [discriminate | intros [r Hr]; discriminate].
  - destruct (ascii_dec c d) as [->|Hne].
    + rewrite IH. split; intros [r Hr]; exists r; congruence.
    + split; [discriminate | intros [r Hr]; congruence].
Qed.

Lemma contains_nil (p : string) :
  Py.contains p "" = String.prefix p "".
Proof. simpl. apply orb_false_r. Qed.

Lemma contains_cons (p : string) c s :
  Py.contains p (String c s) = String.prefix p (String c s) || Py.contains p s.
Proof. reflexivity. Qed.

Lemma contains_spec (p s : string) :
  Py.contains p s = true <-> exists pre post, s = pre +:+ p +:+ post.
Proof.
  induction s as [|c s IH].
  - rewrite contains_nil, prefix_spec. split.
    + intros [r Hr]. exists "", r. exact Hr.
    + intros (pre & post & H). destruct pre; [exists post; exact H|discriminate].
  - rewrite contains_cons, orb_true_iff, IH, prefix_spec. split.
    + intros [[r Hr] | (pre & post & H)].
      * exists "", r. exact Hr.
      * exists (String c pre), post. simpl. congruence.
    + intros (pre & post & H). destruct pre as [|d pre].
      * left. exists post. exact H.
      * right. exists pre, post. simpl in H. congruence.
Qed.

Lemma eqb_empty_false (s : string) : String.eqb s "" = false <-> s <> "".
Proof.
  split.
  - intros H ->. discriminate.
  - intros H. destruct s; [contradiction | reflexivity].
Qed.

Lemma truthy_Some (o : option string) :
  Py.truthy o = true <-> exists t, o = Some t /\ t <> "".
Proof.
  unfold Py.truthy. destruct o as [t|].
  - rewrite negb_true_iff, eqb_empty_false. split.
    + intros H. exists t. auto.
    + intros (t' & [= ->] & H). exact H.
  - split; [discriminate | intros (t & H & _); discriminate].
Qed.
(** * Properties of the record splitter and of the field extractor *)

Lemma is_end_of_record_spec (line : string) :
  is_end_of_record line = true <->
  (exists mid rest, line = "ER" +:+ mid +:+ "  -" +:+ rest) \/ line = "ER".
Proof.
  unfold is_end_of_record, Py.startswith.
  rewrite andb_true_iff, orb_true_iff, prefix_spec, String.eqb_eq. split.
  - intros [[t ->] [Hc | He]]; [left | right; exact He].
    simpl in Hc. apply contains_spec in Hc as (mid & rest & ->).
    exists mid, rest. reflexivity.
  - intros [(mid & rest & ->) | ->].
    + split; [eexists; reflexivity|]. left. simpl.
      apply contains_spec. exists mid, rest. reflexivity.
    + split; [exists ""; reflexivity | right; reflexivity].
Qed.

(** What a marker line does to the loop state, and what any other line
    does. *)
Lemma content_step_marker tm st raw :
  is_end_of_record (Py.strip raw) = true ->
  content_step tm st raw = (finish tm st, []).
Proof.
  intros H. unfold content_step, finish. rewrite H.
  destruct st as [records [|l cur]]; reflexivity.
Qed.

Lemma content_step_other tm st raw :
  is_end_of_record (Py.strip raw) = false ->
  content_step tm st raw =
  (fst st, snd st ++ (if String.eqb (Py.strip raw) "" then [] else [Py.strip raw])).
Proof.
  intros H. unfold content_step. rewrite H.
  destruct (String.eqb (Py.strip raw) "").
  - rewrite app_nil_r. destruct st; reflexivity.
  - reflexivity.
Qed.

(** What the test of the code accepts, and what each kind of line does
    to the loop state: the trimmed line ends a chunk exactly when it
    starts with [ER] and holds the separator somewhere after it, or is
    exactly [ER]; such a line closes the pending chunk and empties the
    buffer, and any other line leaves the records as they are and only
    joins the buffer (when it is not blank). *)
Theorem end_of_record_characterised tm st raw :
  let line := Py.strip raw in
  (is_end_of_record line = true <->
   (exists mid rest, line = "ER" +:+ mid +:+ "  -" +:+ rest) \/ line = "ER") /\
  (is_end_of_record line = true ->
   content_step tm st raw = (finish tm st, [])) /\
  (is_end_of_record line = false ->
   content_step tm st raw =
   (fst st, snd st ++ (if String.eqb line "" then [] else [line]))).
Proof.
  intros line. split; [apply is_end_of_record_spec|].
  split; [apply content_step_marker | apply content_step_other].
Qed.

(** C2. The end-of-record test misses what it attempts.  The line
    [ERRATA  - none] starts with [ER] and holds the separator further
    on, not after [ER]: it is no end-of-record marker, and the tag
    tests of [parse_ris_record] and of [build_ideal_record], which look
    for the separator at its place, do not take it for a tag line.
    [parse_ris_content] takes it for a terminator all the same: the
    record around it is cut in two, and its abstract, left in a chunk
    without title, is lost.  Without that line the record is read
    whole. *)
Theorem stray_marker_ends_chunk :
  spec_end_of_record (Py.strip "ERRATA  - none") = false /\
  is_tag_line (Py.strip "ERRATA  - none") = false /\
  has_tag "ERRATA  - none" = false /\
  is_end_of_record (Py.strip "ERRATA  - none") = true /\
  parse_ris_content stray_marker_content ris_mapping
  = [bare_record "First" None] /\
  parse_ris_content
    ("TI  - First" +:+ newline +:+ "AB  - Text" +:+ newline +:+ "ER  - "
     +:+ newline) ris_mapping
  = [bare_record "First" (Some "Text")].
Proof. vm_compute. repeat split; reflexivity. Qed.

(** The extractor on the examples of the specification. *)
Example extract_title :
  title (parse_ris_record "TI  - Hello" ris_mapping) = Some "Hello".
Proof. vm_compute. reflexivity. Qed.

Example extract_authors :
  authors (parse_ris_record ("AU  - Smith, J." +:+ newline +:+ "AU  - Doe, A.")
             ris_mapping) = ["Smith, J."; "Doe, A."].
Proof. vm_compute. reflexivity. Qed.

Example extract_year :
  year (parse_ris_record "PY  - Feb 2020" ris_mapping) = Some 2020%Z /\
  year (parse_ris_record "PY  - in press" ris_mapping) = None /\
  year (parse_ris_record "PY  - 20201" ris_mapping) = None.
Proof. vm_compute. repeat split; reflexivity. Qed.

(** ** Records without a title are dropped *)

Lemma flush_record_titled tm records cur :
  Forall has_title records -> Forall has_title (flush_record tm records cur).
Proof.
  intros H. unfold flush_record.
  destruct (Py.truthy _) eqn:E; [|exact H].
  apply Forall_app. split; [exact H|].
  constructor; [|constructor]. apply truthy_Some, E.
Qed.

Lemma flush_record_dropped tm records cur :
  Py.truthy (title (parse_ris_record (Py.join newline cur) tm)) = false ->
  flush_record tm records cur = records.
Proof. intros H. unfold flush_record. rewrite H. reflexivity. Qed.

Lemma finish_titled tm st :
  Forall has_title (fst st) -> Forall has_title (finish tm st).
Proof.
  intros H. unfold finish. destruct (snd st); [exact H|].
  apply flush_record_titled, H.
Qed.

Lemma content_step_titled tm st raw :
  Forall has_title (fst st) -> Forall has_title (fst (content_step tm st raw)).
Proof.
  intros H. destruct (is_end_of_record (Py.strip raw)) eqn:E.
  - rewrite (content_step_marker _ _ _ E). apply finish_titled, H.
  - rewrite (content_step_other _ _ _ E). exact H.
Qed.

Lemma fold_content_step_titled tm lines : forall st,
  Forall has_title (fst st) ->
  Forall has_title (fst (fold_left (content_step tm) lines st)).
Proof.
  induction lines as [|l lines IH]; intros st H; [exact H|].
  simpl. apply IH, content_step_titled, H.
Qed.

Lemma parse_ris_content_titled content tm :
  Forall has_title (parse_ris_content content tm).
Proof.
  unfold parse_ris_content, parse_lines.
  apply finish_titled, fold_content_step_titled. constructor.
Qed.

(** C8. Every record that [parse_ris_content] returns has a title that
    is present and not empty; a chunk whose title is absent or empty
    adds nothing to the records and raises nothing. *)
Theorem parsed_records_have_title content tm :
  Forall has_title (parse_ris_content content tm) /\
  (forall records chunk,
     Py.truthy (title (parse_ris_record (Py.join newline chunk) tm)) = false ->
     flush_record tm records chunk = records).
Proof.
  split; [apply parse_ris_content_titled|].
  intros records chunk. apply flush_record_dropped.
Qed.

Example two_record_content_parsed :
  parse_ris_content two_record_content ris_mapping =
  [ bare_record "First" (Some "Text");
    {| title := Some "Last"; journal := None; year := None; abstract := None;
       authors := ["Doe, A."]; keywords := [] |} ].
Proof. vm_compute. reflexivity. Qed.

(** ** A file that ends without a terminator *)

Lemma splitlines_from_nil cur :
  Py.splitlines_from cur "" = match cur with "" => [] | _ => [cur] end.
Proof. reflexivity. Qed.

Lemma splitlines_from_break cur c s :
  Py.islinebreak c = true ->
  Py.splitlines_from cur (String c s) =
  cur :: Py.splitlines_from ""
           match s with
           | String c' s' => if Ascii.eqb c Py.CR && Ascii.eqb c' Py.LF then s' else s
           | EmptyString => s
           end.
Proof.
  intros H. cbn [Py.splitlines_from]. rewrite H.
  destruct s as [|c' s']; [reflexivity|].
  destruct (Ascii.eqb c Py.CR && Ascii.eqb c' Py.LF); reflexivity.
Qed.

Lemma splitlines_from_char cur c s :
  Py.islinebreak c = false ->
  Py.splitlines_from cur (String c s) =
  Py.splitlines_from (cur +:+ String c "") s.
Proof. intros H. cbn [Py.splitlines_from]. rewrite H. reflexivity. Qed.

Lemma splitlines_from_newline cur m :
  Py.splitlines_from cur (String Py.LF m) = cur :: Py.splitlines_from "" m.
Proof.
  rewrite splitlines_from_break by reflexivity. destruct m; reflexivity.
Qed.

(** Appending a line after a line feed adds that line, preceded by an
    empty line when the text was empty or ended with a line boundary
    other than a lone carriage return. *)
Lemma splitlines_from_terminated m n : forall s cur,
  (String.length s <= n)%nat ->
  exists pad, (pad = [] \/ pad = [""]) /\
    Py.splitlines_from cur (s +:+ newline +:+ m)
    = Py.splitlines_from cur s ++ pad ++ Py.splitlines_from "" m.
Proof.
  unfold newline. cbn [String.append].
  assert (Hnil : forall cur, exists pad, (pad = [] \/ pad = [""]) /\
            Py.splitlines_from cur (String Py.LF m)
            = Py.splitlines_from cur "" ++ pad ++ Py.splitlines_from "" m).
  { intros cur. rewrite splitlines_from_newline, splitlines_from_nil.
    destruct cur; [exists [""] | exists []]; split; auto. }
  induction n as [|n IH]; intros s cur Hlen.
  - destruct s; [|simpl in Hlen; lia]. cbn [String.append]. apply Hnil.
  - destruct s as [|c s]; [cbn [String.append]; apply Hnil|].
    cbn [String.length] in Hlen. cbn [String.append].
    destruct (Py.islinebreak c) eqn:Hc.
    + rewrite !(splitlines_from_break _ _ _ Hc).
      destruct s as [|c' s]; cbn [String.append].
      * destruct (Ascii.eqb c Py.CR) eqn:Hcr.
        -- rewrite Ascii.eqb_refl. cbn [andb]. rewrite splitlines_from_nil.
           exists []. split; auto.
        -- cbn [andb]. rewrite splitlines_from_newline, splitlines_from_nil.
           exists [""]. split; auto.
      * cbn [String.length] in Hlen.
        destruct (Ascii.eqb c Py.CR && Ascii.eqb c' Py.LF).
        -- destruct (IH s "") as (pad & Hpad & ->); [lia|].
           exists pad. split; auto.
        -- destruct (IH (String c' s) "") as (pad & Hpad & Heq);
             [cbn [String.length]; lia|].
           cbn [String.append] in Heq. rewrite Heq. exists pad. split; auto.
    + rewrite !(splitlines_from_char _ _ _ Hc).
      destruct (IH s (cur +:+ String c "")) as (pad & Hpad & ->); [lia|].
      exists pad. split; auto.
Qed.

Lemma content_step_blank tm st : content_step tm st "" = st.
Proof. reflexivity. Qed.

Lemma finish_after_marker tm st m :
  is_end_of_record (Py.strip m) = true ->
  finish tm (content_step tm st m) = finish tm st.
Proof. intros H. rewrite (content_step_marker _ _ _ H). reflexivity. Qed.

(** ** Continuation lines *)

Lemma fold_tags_lookup (l : list (option string)) (t : string) :
  Some t ∈ l ->
  foldr (fun o (m : gmap string (list string)) =>
           match o with Some k => <[k := []]> m | None => m end) ∅ l !! t
  = Some [].
Proof.
  induction l as [|o l IH]; intros Hin; [inversion Hin|].
  cbn [foldr]. destruct o as [k|].
  - destruct (decide (k = t)) as [->|Hne].
    + apply lookup_insert_eq.
    + rewrite lookup_insert_ne by exact Hne. apply IH.
      apply elem_of_cons in Hin as [[= ->]|Hin]; [contradiction | exact Hin].
  - apply IH. apply elem_of_cons in Hin as [[=]|Hin]. exact Hin.
Qed.

Lemma init_tags_relevant tm t :
  is_relevant tm t = true -> init_tags tm !! t = Some [].
Proof.
  unfold is_relevant, init_tags. intros H.
  apply bool_decide_eq_true in H. apply fold_tags_lookup, H.
Qed.

(** Every relevant tag keeps its key in the accumulator. *)
Lemma record_step_keys tm st raw t :
  is_Some (tags st !! t) -> is_Some (tags (record_step tm st raw) !! t).
Proof.
  intros H. unfold record_step.
  destruct (String.eqb (Py.strip raw) ""); [exact H|].
  destruct (is_tag_line (Py.strip raw)).
  - destruct (is_relevant tm _); cbn [tags]; [|exact H].
    rewrite lookup_alter. case_decide; [subst|exact H].
    apply fmap_is_Some, H.
  - destruct (current_tag st) as [k|]; [|exact H].
    destruct (tags st !! k) as [[|v vs]|] eqn:E; try exact H.
    cbn [tags]. rewrite lookup_alter. case_decide; [subst|exact H].
    apply fmap_is_Some, H.
Qed.

Lemma extract_lines_keys tm lines t :
  is_relevant tm t = true -> is_Some (tags (extract_lines tm lines) !! t).
Proof.
  intros H. unfold extract_lines.
  assert (H0 : is_Some (tags {| tags := init_tags tm; current_tag := None |} !! t)).
  { cbn [tags]. rewrite (init_tags_relevant _ _ H). eexists; reflexivity. }
  revert H0. generalize {| tags := init_tags tm; current_tag := None |}.
  induction lines as [|l lines IH]; intros st Hst; [exact Hst|].
  cbn [fold_left]. apply IH, record_step_keys, Hst.
Qed.

Lemma extend_last_app suffix vs v :
  extend_last suffix (vs ++ [v]) = vs ++ [v +:+ suffix].
Proof.
  induction vs as [|x vs IH]; [reflexivity|].
  cbn [app extend_last]. rewrite IH.
  destruct vs; reflexivity.
Qed.

Lemma is_tag_line_not_blank line :
  is_tag_line line = true -> String.eqb line "" = false.
Proof. destruct line; [discriminate | reflexivity]. Qed.

(** A line of a relevant tag opens a new value for that tag. *)
Lemma record_step_tag tm st raw :
  is_tag_line (Py.strip raw) = true ->
  is_relevant tm (Py.slice (Py.strip raw) 0 2) = true ->
  record_step tm st raw =
  {| tags := alter (fun vs => vs ++ [Py.strip (Py.slice_from (Py.strip raw) 6)])
               (Py.slice (Py.strip raw) 0 2) (tags st);
     current_tag := Some (Py.slice (Py.strip raw) 0 2) |}.
Proof.
  intros Htag Hrel. unfold record_step.
  rewrite (is_tag_line_not_blank _ Htag), Htag, Hrel. reflexivity.
Qed.

(** A line that is neither blank nor a tag line extends the last value
    of the current tag. *)
Lemma record_step_continuation tm st raw t vs v :
  String.eqb (Py.strip raw) "" = false ->
  is_tag_line (Py.strip raw) = false ->
  current_tag st = Some t ->
  tags st !! t = Some (vs ++ [v]) ->
  record_step tm st raw =
  {| tags := <[t := vs ++ [v +:+ " " +:+ Py.strip raw]]> (tags st);
     current_tag := Some t |}.
Proof.
  intros Hne Htag Hcur Hlook. unfold record_step.
  rewrite Hne, Htag, Hcur, Hlook.
  destruct (vs ++ [v]) as [|x l] eqn:E; [destruct vs; discriminate|].
  f_equal. apply map_eq. intros k.
  rewrite lookup_alter, lookup_insert. case_decide; [subst|reflexivity].
  rewrite Hlook. cbn [fmap option_fmap option_map].
  rewrite <- E, extend_last_app. reflexivity.
Qed.

Lemma extract_lines_app tm lines a b :
  extract_lines tm (lines ++ [a; b]) =
  record_step tm (record_step tm (extract_lines tm lines) a) b.
Proof. unfold extract_lines. rewrite fold_left_app. reflexivity. Qed.

Lemma continuation_after_tag tm lines tag_raw cont_raw :
  is_tag_line (Py.strip tag_raw) = true ->
  is_relevant tm (Py.slice (Py.strip tag_raw) 0 2) = true ->
  Py.strip cont_raw <> "" ->
  is_tag_line (Py.strip cont_raw) = false ->
  exists vs,
    tags (extract_lines tm lines) !! Py.slice (Py.strip tag_raw) 0 2 = Some vs /\
    extract_lines tm (lines ++ [tag_raw; cont_raw]) =
    {| tags := <[Py.slice (Py.strip tag_raw) 0 2 :=
                 vs ++ [Py.strip (Py.slice_from (Py.strip tag_raw) 6)
                        +:+ " " +:+ Py.strip cont_raw]]>
                 (tags (extract_lines tm lines));
       current_tag := Some (Py.slice (Py.strip tag_raw) 0 2) |}.
Proof.
  intros Htag Hrel Hne Hcont.
  destruct (extract_lines_keys tm lines _ Hrel) as [vs Hvs].
  exists vs. split; [exact Hvs|].
  rewrite extract_lines_app, (record_step_tag _ _ _ Htag Hrel).
  erewrite record_step_continuation; cycle 1.
  - apply eqb_empty_false, Hne.
  - exact Hcont.
  - reflexivity.
  - cbn [tags]. rewrite lookup_alter, decide_True by reflexivity.
    rewrite Hvs. reflexivity.
  - cbn [tags]. f_equal. apply map_eq. intros k.
    rewrite !lookup_insert, lookup_alter. case_decide; reflexivity.
Qed.

(** C6. A line that is neither blank nor a tag line, coming right after
    the line of a tracked tag, is appended after one space to the value
    that tag line opened: the tag has as many values as the tag line
    left it, the other tags keep theirs, and the tag stays current.  In
    particular the chunk [AB  - Part one], [of the abstract] yields the
    abstract "Part one of the abstract" under every mapping that sends
    the abstract to [AB]. *)
Theorem continuation_line_extends_last_value tm lines tag_raw cont_raw :
  let tag_line := Py.strip tag_raw in
  let line := Py.strip cont_raw in
  let tag := Py.slice tag_line 0 2 in
  let content := Py.strip (Py.slice_from tag_line 6) in
  let before := extract_lines tm lines in
  let opened := extract_lines tm (lines ++ [tag_raw]) in
  let after := extract_lines tm (lines ++ [tag_raw; cont_raw]) in
  is_tag_line tag_line = true ->
  is_relevant tm tag = true ->
  line <> "" ->
  is_tag_line line = false ->
  (exists vs,
     tags before !! tag = Some vs /\
     tags opened !! tag = Some (vs ++ [content]) /\
     tags after !! tag = Some (vs ++ [content +:+ " " +:+ line])) /\
  (forall t, t <> tag -> tags after !! t = tags before !! t) /\
  current_tag after = Some tag /\
  (forall tm', tm_abstract tm' = Some "AB" ->
     abstract (parse_ris_record continuation_chunk tm')
     = Some "Part one of the abstract").
Proof.
  intros tag_line line tag content before opened after Htag Hrel Hne Hcont.
  destruct (continuation_after_tag tm lines tag_raw cont_raw Htag Hrel Hne Hcont)
    as (vs & Hvs & Hafter).
  fold tag_line line tag content before after in Hvs, Hafter.
  split; [|split; [|split]].
  - exists vs. split; [exact Hvs|]. split.
    + unfold opened, extract_lines. rewrite fold_left_app. cbn [fold_left].
      fold (extract_lines tm lines). rewrite (record_step_tag _ _ _ Htag Hrel).
      cbn [tags]. rewrite lookup_alter, decide_True by reflexivity.
      fold tag_line tag before. rewrite Hvs. reflexivity.
    + rewrite Hafter. cbn [tags]. apply lookup_insert_eq.
  - intros t Ht. rewrite Hafter. cbn [tags]. apply lookup_insert_ne. congruence.
  - rewrite Hafter. reflexivity.
  - intros tm' Hab.
    assert (Hrel' : is_relevant tm' "AB" = true).
    { apply bool_decide_eq_true. unfold mapping_values. rewrite Hab.
      do 5 right. left. }
    destruct (continuation_after_tag tm' [] "AB  - Part one" "of the abstract")
      as (vs' & Hvs' & Hex); try reflexivity; try exact Hrel'.
    { discriminate. }
    change (Py.slice (Py.strip "AB  - Part one") 0 2) with "AB" in Hvs', Hex.
    change (extract_lines tm' []) with
      {| tags := init_tags tm'; current_tag := None |} in Hvs', Hex.
    cbn [tags] in Hvs', Hex. rewrite (init_tags_relevant _ _ Hrel') in Hvs'.
    injection Hvs' as <-.
    unfold parse_ris_record.
    change (Py.splitlines continuation_chunk)
      with ([] ++ ["AB  - Part one"; "of the abstract"]).
    rewrite Hex. unfold build_result. cbn [abstract tags]. rewrite Hab.
    unfold mapped_values. cbn [String.eqb Ascii.eqb]. 
    rewrite lookup_insert_eq. reflexivity.
Qed.

Lemma continuation_line_extends_last_value_witness :
  tags (extract_lines abstract_only_mapping
          (["TY  - JOUR"] ++ ["AB  - Part one"; "  of the abstract "])) !! "AB"
  = Some ["Part one of the abstract"].
Proof.
  assert (Hne : Py.strip "  of the abstract " <> "") by discriminate.
  destruct (continuation_line_extends_last_value abstract_only_mapping
              ["TY  - JOUR"] "AB  - Part one" "  of the abstract "
              eq_refl eq_refl Hne eq_refl)
    as [(vs & Hvs & _ & Hafter) _].
  refine (eq_trans Hafter _).
  assert (Some vs = Some []) as [= ->] by (rewrite <- Hvs; reflexivity).
  reflexivity.
Defined.
(** * More on the splitter and the extractor *)

(** ** Files put end to end *)

Lemma flush_record_app tm pre records cur :
  flush_record tm (pre ++ records) cur = pre ++ flush_record tm records cur.
Proof.
  unfold flush_record.
  destruct (Py.truthy _); [symmetry; apply app_assoc | reflexivity].
Qed.

Lemma finish_app tm pre records cur :
  finish tm (pre ++ records, cur) = pre ++ finish tm (records, cur).
Proof.
  unfold finish. cbn [fst snd]. destruct cur; [reflexivity|].
  apply flush_record_app.
Qed.

Lemma content_step_app tm pre records cur raw :
  content_step tm (pre ++ records, cur) raw =
  (pre ++ fst (content_step tm (records, cur) raw),
   snd (content_step tm (records, cur) raw)).
Proof.
  unfold content_step. cbn [fst snd].
  destruct (is_end_of_record (Py.strip raw)).
  - destruct cur; [reflexivity|]. cbn [fst snd]. rewrite flush_record_app.
    reflexivity.
  - destruct (String.eqb (Py.strip raw) ""); reflexivity.
Qed.

Lemma fold_content_step_app tm pre lines : forall records cur,
  fold_left (content_step tm) lines (pre ++ records, cur) =
  (pre ++ fst (fold_left (content_step tm) lines (records, cur)),
   snd (fold_left (content_step tm) lines (records, cur))).
Proof.
  induction lines as [|l lines IH]; intros records cur; [reflexivity|].
  cbn [fold_left]. rewrite content_step_app, IH.
  destruct (content_step tm (records, cur) l). reflexivity.
Qed.

Lemma fold_content_step_pad tm pad st :
  pad = [] \/ pad = [""] -> fold_left (content_step tm) pad st = st.
Proof. intros [-> | ->]; reflexivity. Qed.

(** X9. Two texts put end to end with a terminator line between them
    parse to the records of the first followed by the records of the
    second: no record of one text runs into the other. *)
Theorem parse_ris_content_app content1 content2 tm m :
  Py.splitlines m = [m] ->
  is_end_of_record (Py.strip m) = true ->
  parse_ris_content (content1 +:+ newline +:+ m +:+ newline +:+ content2) tm
  = parse_ris_content content1 tm ++ parse_ris_content content2 tm.
Proof.
  intros Hm Hend. unfold parse_ris_content, Py.splitlines.
  destruct (splitlines_from_terminated (m +:+ newline +:+ content2) _
              content1 "" (le_n _)) as (pad1 & Hpad1 & ->).
  destruct (splitlines_from_terminated content2 _ m "" (le_n _))
    as (pad2 & Hpad2 & ->).
  fold (Py.splitlines m). rewrite Hm. unfold parse_lines.
  rewrite !fold_left_app. cbn [fold_left].
  rewrite (fold_content_step_pad tm pad1) by exact Hpad1.
  rewrite (content_step_marker _ _ _ Hend).
  rewrite (fold_content_step_pad tm pad2) by exact Hpad2.
  set (R := finish tm (fold_left (content_step tm)
                         (Py.splitlines_from "" content1) ([], []))).
  rewrite <- (app_nil_r R) at 1.
  rewrite fold_content_step_app, finish_app.
  destruct (fold_left (content_step tm) (Py.splitlines_from "" content2) ([], []))
    as [records cur]. reflexivity.
Qed.

Lemma parse_ris_content_app_witness :
  parse_ris_content
    (two_record_content +:+ newline +:+ "ER  - " +:+ newline
     +:+ three_record_content) ris_mapping
  = parse_ris_content two_record_content ris_mapping
    ++ parse_ris_content three_record_content ris_mapping.
Proof.
  apply (parse_ris_content_app two_record_content three_record_content
           ris_mapping "ER  - "); reflexivity.
Defined.

(** ** Mappings with a null title *)

(** X10. Without a tag for the title nothing is parsed: when the
    mapping gives [None] (or the empty string) for the title, every
    text yields the empty list of records. *)
Theorem no_title_tag_no_records content tm :
  Py.truthy (tm_title tm) = false -> parse_ris_content content tm = [].
Proof.
  intros Hfalsy.
  assert (Hflush : forall records cur, flush_record tm records cur = records).
  { intros records cur. unfold flush_record, parse_ris_record, build_result.
    cbn [title]. unfold mapped_values, Py.truthy in *.
    destruct (tm_title tm) as [t|]; [|reflexivity].
    apply negb_false_iff in Hfalsy. rewrite Hfalsy. reflexivity. }
  assert (Hfold : forall lines st,
            fst st = [] -> fst (fold_left (content_step tm) lines st) = []).
  { induction lines as [|l lines IH]; intros st Hst; [exact Hst|].
    cbn [fold_left]. apply IH. unfold content_step.
    destruct (is_end_of_record _).
    - destruct (snd st); [exact Hst|]. cbn [fst]. rewrite Hflush. exact Hst.
    - destruct (String.eqb _ _); [exact Hst|]. exact Hst. }
  unfold parse_ris_content, finish, parse_lines.
  specialize (Hfold (Py.splitlines content) ([], []) eq_refl).
  destruct (snd _); [exact Hfold|]. rewrite Hflush. exact Hfold.
Qed.

Lemma no_title_tag_no_records_witness :
  parse_ris_content three_record_content abstract_only_mapping = [].
Proof.
  apply (no_title_tag_no_records three_record_content abstract_only_mapping).
  reflexivity.
Defined.

(** ** Trimming *)

Lemma rstrip_cons c s :
  Py.rstrip (String c s) =
  match Py.rstrip s with
  | EmptyString => if Py.isspace c then EmptyString else String c EmptyString
  | r => String c r
  end.
Proof. reflexivity. Qed.

Lemma rstrip_app a b :
  Py.rstrip b <> "" -> Py.rstrip (a +:+ b) = a +:+ Py.rstrip b.
Proof.
  intros Hb. induction a as [|c a IH]; [reflexivity|].
  cbn [String.append]. rewrite rstrip_cons, IH.
  destruct (a +:+ Py.rstrip b) eqn:E; [|reflexivity].
  destruct a; [cbn [String.append] in E; contradiction | discriminate].
Qed.

Lemma rstrip_blank_app a b :
  Py.rstrip b = "" -> Py.rstrip (a +:+ b) = Py.rstrip a.
Proof.
  intros Hb. induction a as [|c a IH]; [exact Hb|].
  cbn [String.append]. rewrite !rstrip_cons, IH. reflexivity.
Qed.

Lemma rstrip_idem s : Py.rstrip (Py.rstrip s) = Py.rstrip s.
Proof.
  induction s as [|c s IH]; [reflexivity|]. rewrite rstrip_cons.
  destruct (Py.rstrip s) as [|d r] eqn:E.
  - destruct (Py.isspace c) eqn:Hc; [reflexivity|].
    rewrite rstrip_cons. cbn [Py.rstrip]. rewrite Hc. reflexivity.
  - rewrite rstrip_cons, IH. reflexivity.
Qed.

Lemma rstrip_blank s : Py.rstrip s = "" <-> blank s = true.
Proof.
  induction s as [|c s IH]; [split; reflexivity|].
  rewrite rstrip_cons. cbn [blank]. rewrite andb_true_iff, <- IH.
  destruct (Py.rstrip s).
  - destruct (Py.isspace c); split; try reflexivity; try discriminate; auto.
    intros [? _]. discriminate.
  - split; [discriminate | intros [_ ?]; discriminate].
Qed.

Lemma lstrip_blank s : Py.lstrip s = "" <-> blank s = true.
Proof.
  induction s as [|c s IH]; [split; reflexivity|].
  cbn [Py.lstrip blank]. destruct (Py.isspace c); [exact IH|].
  split; discriminate.
Qed.

Lemma blank_lstrip s : blank (Py.lstrip s) = blank s.
Proof.
  induction s as [|c s IH]; [reflexivity|].
  cbn [Py.lstrip]. destruct (Py.isspace c) eqn:Hc.
  - cbn [blank]. rewrite Hc. exact IH.
  - reflexivity.
Qed.

Lemma strip_blank s : Py.strip s = "" <-> blank s = true.
Proof. unfold Py.strip. rewrite rstrip_blank, blank_lstrip. reflexivity. Qed.

Lemma lstrip_rstrip s : Py.lstrip (Py.rstrip s) = Py.rstrip (Py.lstrip s).
Proof.
  induction s as [|c s IH]; [reflexivity|].
  cbn [Py.lstrip]. destruct (Py.isspace c) eqn:Hc.
  - rewrite rstrip_cons. destruct (Py.rstrip s) as [|d r] eqn:E.
    + rewrite Hc. symmetry. apply rstrip_blank. rewrite blank_lstrip.
      apply rstrip_blank, E.
    + cbn [Py.lstrip]. rewrite Hc. exact IH.
  - clear IH. rewrite rstrip_cons. destruct (Py.rstrip s);
      rewrite ?Hc; cbn [Py.lstrip]; rewrite ?Hc; reflexivity.
Qed.

Lemma strip_rstrip s : Py.strip (Py.rstrip s) = Py.strip s.
Proof.
  unfold Py.strip. rewrite lstrip_rstrip, rstrip_idem. reflexivity.
Qed.

Lemma lstrip_idem s : Py.lstrip (Py.lstrip s) = Py.lstrip s.
Proof.
  induction s as [|c s IH]; [reflexivity|].
  cbn [Py.lstrip]. destruct (Py.isspace c) eqn:Hc; [exact IH|].
  cbn [Py.lstrip]. rewrite Hc. reflexivity.
Qed.

Lemma strip_idem s : Py.strip (Py.strip s) = Py.strip s.
Proof.
  unfold Py.strip at 2. rewrite strip_rstrip. unfold Py.strip.
  rewrite lstrip_idem. reflexivity.
Qed.

(** ** Lines built from a tag and a content *)

Lemma tag_ok_inv tag :
  tag_ok tag = true ->
  exists a b, tag = String a (String b "") /\
              Py.isspace a = false /\ Py.islinebreak b = false.
Proof.
  destruct tag as [|a [|b [|c t]]]; try discriminate.
  cbn [tag_ok]. rewrite andb_true_iff, !negb_true_iff. eauto.
Qed.

Lemma substring_full s : substring 0 (String.length s) s = s.
Proof. induction s as [|c s IH]; [reflexivity|]. cbn. rewrite IH. reflexivity. Qed.

Lemma strip_tag_line tag content :
  tag_ok tag = true -> blank content = false ->
  Py.strip (tag_line tag content) = tag +:+ "  - " +:+ Py.rstrip content.
Proof.
  intros Htag Hc. apply tag_ok_inv in Htag as (a & b & -> & Ha & _).
  assert (Hr : Py.rstrip content <> "").
  { intros H. apply rstrip_blank in H. congruence. }
  unfold Py.strip, tag_line. cbn [String.append Py.lstrip]. rewrite Ha.
  change (String a (String b (String " " (String " " (String "-" (String " " content))))))
    with ((String a (String b "  - ")) +:+ content).
  rewrite (rstrip_app _ _ Hr). reflexivity.
Qed.

Lemma strip_tag_line_blank tag content :
  tag_ok tag = true -> blank content = true ->
  Py.strip (tag_line tag content) = tag +:+ "  -".
Proof.
  intros Htag Hc. apply tag_ok_inv in Htag as (a & b & -> & Ha & _).
  apply rstrip_blank in Hc.
  unfold Py.strip, tag_line. cbn [String.append Py.lstrip]. rewrite Ha.
  change (String a (String b (String " " (String " " (String "-" (String " " content))))))
    with ((String a (String b "  - ")) +:+ content).
  rewrite (rstrip_blank_app _ _ Hc). reflexivity.
Qed.

(** A line built from a proper tag and a content that is not blank is
    read back as that tag and the trimmed content. *)
Lemma tag_line_read tag content :
  tag_ok tag = true -> blank content = false ->
  is_tag_line (Py.strip (tag_line tag content)) = true /\
  Py.slice (Py.strip (tag_line tag content)) 0 2 = tag /\
  Py.strip (Py.slice_from (Py.strip (tag_line tag content)) 6)
  = Py.strip content.
Proof.
  intros Htag Hc. rewrite (strip_tag_line _ _ Htag Hc).
  apply tag_ok_inv in Htag as (a & b & -> & _ & _).
  destruct (Py.rstrip content) as [|x r] eqn:E.
  { apply rstrip_blank in E. congruence. }
  split; [reflexivity|]. split; [reflexivity|].
  rewrite <- (strip_rstrip content), E. f_equal.
  unfold Py.slice_from. cbn [String.append String.length Nat.sub substring].
  rewrite substring_full. reflexivity.
Qed.

(** With a blank content the trimmed line is five characters long: not
    a tag line, and not blank. *)
Lemma tag_line_blank_read tag content :
  tag_ok tag = true -> blank content = true ->
  is_tag_line (Py.strip (tag_line tag content)) = false /\
  Py.strip (tag_line tag content) <> "".
Proof.
  intros Htag Hc. rewrite (strip_tag_line_blank _ _ Htag Hc).
  apply tag_ok_inv in Htag as (a & b & -> & _ & _).
  split; [reflexivity | discriminate].
Qed.

Lemma record_step_tag_line tm st tag content :
  tag_ok tag = true -> blank content = false ->
  is_relevant tm tag = true ->
  record_step tm st (tag_line tag content) =
  {| tags := alter (fun vs => vs ++ [Py.strip content]) tag (tags st);
     current_tag := Some tag |}.
Proof.
  intros Htag Hc Hrel.
  destruct (tag_line_read _ _ Htag Hc) as (H1 & H2 & H3).
  rewrite record_step_tag; rewrite ?H2, ?H3; auto.
Qed.

Lemma fold_tag_lines tm tag contents : forall st vs,
  tag_ok tag = true ->
  is_relevant tm tag = true ->
  Forall (fun c => blank c = false) contents ->
  tags st !! tag = Some vs ->
  tags (fold_left (record_step tm) (map (tag_line tag) contents) st) !! tag
  = Some (vs ++ map Py.strip contents).
Proof.
  induction contents as [|c cs IH]; intros st vs Htag Hrel Hall Hst.
  - cbn. rewrite app_nil_r. exact Hst.
  - inversion Hall as [|? ? Hc Hcs]; subst. cbn [map fold_left].
    rewrite (record_step_tag_line _ _ _ _ Htag Hc Hrel).
    rewrite (IH _ (vs ++ [Py.strip c])); auto.
    + rewrite <- app_assoc. reflexivity.
    + cbn [tags]. rewrite lookup_alter, decide_True by reflexivity.
      rewrite Hst. reflexivity.
Qed.

(** ** Joining and splitting lines *)

Lemma splitlines_from_one_line s : forall cur,
  one_line s = true ->
  Py.splitlines_from cur s
  = match cur +:+ s with EmptyString => [] | l => [l] end.
Proof.
  induction s as [|c s IH]; intros cur H.
  - rewrite append_nil_r. destruct cur; reflexivity.
  - cbn [one_line] in H. apply andb_true_iff in H as [Hc Hs].
    apply negb_true_iff in Hc. rewrite (splitlines_from_char _ _ _ Hc), (IH _ Hs).
    rewrite append_assoc. reflexivity.
Qed.

Lemma splitlines_from_line_then s rest : forall cur,
  one_line s = true ->
  Py.splitlines_from cur (s +:+ newline +:+ rest)
  = (cur +:+ s) :: Py.splitlines_from "" rest.
Proof.
  unfold newline. cbn [String.append].
  induction s as [|c s IH]; intros cur H.
  - cbn [String.append]. rewrite append_nil_r. apply splitlines_from_newline.
  - cbn [one_line] in H. apply andb_true_iff in H as [Hc Hs].
    apply negb_true_iff in Hc. cbn [String.append].
    rewrite (splitlines_from_char _ _ _ Hc), (IH _ Hs), append_assoc.
    reflexivity.
Qed.

Lemma join_cons sep x y l :
  Py.join sep (x :: y :: l) = x +:+ sep +:+ Py.join sep (y :: l).
Proof. reflexivity. Qed.

(** Lines without line boundary, none of them empty, are read back
    from their join. *)
Lemma splitlines_join lines :
  Forall (fun l => one_line l = true /\ l <> "") lines ->
  Py.splitlines (Py.join newline lines) = lines.
Proof.
  induction lines as [|x [|y l] IH]; intros H; [reflexivity| |].
  - inversion H as [|? ? [H1 Hne] _]; subst. unfold Py.splitlines.
    cbn [Py.join String.concat]. rewrite (splitlines_from_one_line _ _ H1).
    cbn [String.append]. destruct x; [contradiction | reflexivity].
  - inversion H as [|? ? [H1 Hne] Hrest]; subst. rewrite join_cons.
    unfold Py.splitlines. rewrite (splitlines_from_line_then _ _ _ H1).
    cbn [String.append]. fold (Py.splitlines (Py.join newline (y :: l))).
    rewrite (IH Hrest). reflexivity.
Qed.

Lemma space_not_linebreak c : Py.isspace c = false -> Py.islinebreak c = false.
Proof.
  destruct c as [b0 b1 b2 b3 b4 b5 b6 b7].
  destruct b0, b1, b2, b3, b4, b5, b6, b7; vm_compute;
    intros H; try reflexivity; discriminate H.
Qed.

Lemma one_line_tag_line tag content :
  tag_ok tag = true -> one_line content = true ->
  one_line (tag_line tag content) = true /\ tag_line tag content <> "".
Proof.
  intros Htag Hc. apply tag_ok_inv in Htag as (a & b & -> & Ha & Hb).
  apply space_not_linebreak in Ha. split; [|discriminate].
  unfold tag_line. cbn [String.append one_line]. rewrite Ha, Hb, Hc. reflexivity.
Qed.

Lemma mapped_values_tag tgs tag vs :
  tag_ok tag = true -> tgs !! tag = Some vs ->
  mapped_values tgs (Some tag) = vs.
Proof.
  intros Htag H. apply tag_ok_inv in Htag as (a & b & -> & _).
  unfold mapped_values. rewrite H. reflexivity.
Qed.

Lemma relevant_field tm tag :
  Some tag ∈ mapping_values tm -> is_relevant tm tag = true.
Proof. intros H. apply bool_decide_eq_true, H. Qed.

Lemma extract_tag_lines tm tag contents :
  tag_ok tag = true ->
  Some tag ∈ mapping_values tm ->
  Forall (fun c => one_line c = true /\ blank c = false) contents ->
  mapped_values
    (tags (extract_lines tm
             (Py.splitlines (Py.join newline (map (tag_line tag) contents)))))
    (Some tag)
  = map Py.strip contents.
Proof.
  intros Htag Hin Hall. apply relevant_field in Hin as Hrel.
  rewrite splitlines_join.
  - apply (mapped_values_tag _ _ _ Htag). unfold extract_lines.
    rewrite (fold_tag_lines tm tag contents _ [] Htag Hrel).
    + reflexivity.
    + eapply Forall_impl; [exact Hall|]. intros c [_ H]. exact H.
    + cbn [tags]. apply init_tags_relevant, Hrel.
  - apply Forall_fmap. eapply Forall_impl; [exact Hall|].
    intros c [H _]. apply (one_line_tag_line _ _ Htag H).
Qed.

(** X11. Tag lines are read back.  A chunk made of lines [tag  - c1],
    [tag  - c2], ... (a two-character tag that starts with no white
    space; contents on one line each and not blank) gives the field
    mapped to that tag the trimmed contents: all of them, in order,
    for authors and keywords, the first for the title and the journal,
    and their join by single spaces for the abstract. *)
Theorem tag_lines_round_trip tm tag contents :
  tag_ok tag = true ->
  Forall (fun c => one_line c = true /\ blank c = false) contents ->
  let r := parse_ris_record (Py.join newline (map (tag_line tag) contents)) tm in
  (tm_title tm = Some tag -> title r = head (map Py.strip contents)) /\
  (tm_journal_name tm = Some tag -> journal r = head (map Py.strip contents)) /\
  (tm_author tm = Some tag -> authors r = map Py.strip contents) /\
  (tm_keywords tm = Some tag -> keywords r = map Py.strip contents) /\
  (tm_abstract tm = Some tag -> contents <> [] ->
   abstract r = Some (Py.join " " (map Py.strip contents))).
Proof.
  intros Htag Hall r. subst r. unfold parse_ris_record, build_result.
  cbn [title journal authors keywords abstract].
  assert (Hidem : map Py.strip (map Py.strip contents) = map Py.strip contents).
  { rewrite map_map. apply map_ext. intros c. apply strip_idem. }
  repeat split; intros H.
  - rewrite H, extract_tag_lines; auto.
    unfold mapping_values. rewrite H. left.
  - rewrite H, extract_tag_lines; auto.
    unfold mapping_values. rewrite H. do 2 right. left.
  - rewrite H, extract_tag_lines; auto.
    unfold mapping_values. rewrite H. right. left.
  - rewrite H, extract_tag_lines; auto.
    unfold mapping_values. rewrite H. do 4 right. left.
  - intros Hne. rewrite H, extract_tag_lines; auto.
    + destruct contents; [contradiction | reflexivity].
    + unfold mapping_values. rewrite H. do 5 right. left.
Qed.

Lemma tag_lines_round_trip_witness :
  authors (parse_ris_record
             (Py.join newline (map (tag_line "AU") [" Smith, J. "; "Doe, A."]))
             ris_mapping)
  = map Py.strip [" Smith, J. "; "Doe, A."].
Proof.
  assert (Hall : Forall (fun c => one_line c = true /\ blank c = false)
                   [" Smith, J. "; "Doe, A."])
    by (repeat constructor).
  exact (proj1 (proj2 (proj2 (tag_lines_round_trip ris_mapping "AU"
                                [" Smith, J. "; "Doe, A."] eq_refl Hall)))
           eq_refl).
Defined.

(** X12. A tag line whose content is blank is not taken for a tag
    line: trimmed, it is five characters long, one short of what the
    extractor asks of a tag line.  Coming after the line of a tracked
    tag it is read as a continuation: its tag and separator are
    appended to the value that line opened, and its own tag gets no
    value. *)
Theorem blank_tag_line_is_continuation tm lines tag content tag2 ws :
  tag_ok tag = true -> is_relevant tm tag = true -> blank content = false ->
  tag_ok tag2 = true -> blank ws = true ->
  let before := extract_lines tm lines in
  let after :=
    extract_lines tm (lines ++ [tag_line tag content; tag_line tag2 ws]) in
  is_tag_line (Py.strip (tag_line tag2 ws)) = false /\
  exists vs,
    tags before !! tag = Some vs /\
    tags after !! tag
    = Some (vs ++ [Py.strip content +:+ " " +:+ tag2 +:+ "  -"]) /\
    (forall t, t <> tag -> tags after !! t = tags before !! t) /\
    current_tag after = Some tag.
Proof.
  intros Htag Hrel Hc Htag2 Hws before after.
  destruct (tag_line_read _ _ Htag Hc) as (H1 & H2 & H3).
  destruct (tag_line_blank_read _ _ Htag2 Hws) as (H4 & H5).
  split; [exact H4|].
  destruct (continuation_after_tag tm lines (tag_line tag content)
              (tag_line tag2 ws)) as (vs & Hvs & Hafter); auto.
  { rewrite H2. exact Hrel. }
  rewrite H2, H3, (strip_tag_line_blank _ _ Htag2 Hws) in *.
  exists vs. subst before after. rewrite Hafter. cbn [tags current_tag].
  split; [exact Hvs|]. split; [apply lookup_insert_eq|].
  split; [|reflexivity]. intros t Ht. apply lookup_insert_ne. congruence.
Qed.

Lemma blank_tag_line_is_continuation_witness :
  abstract (parse_ris_record
              ("AB  - Some text" +:+ newline +:+ "KW  - ") ris_mapping)
  = Some "Some text KW  -".
Proof.
  destruct (blank_tag_line_is_continuation ris_mapping [] "AB" "Some text"
              "KW" "" eq_refl eq_refl eq_refl eq_refl eq_refl)
    as (_ & vs & Hvs & Hafter & _).
  assert (Some vs = Some []) as [= ->] by (rewrite <- Hvs; reflexivity).
  unfold parse_ris_record, build_result. cbn [abstract].
  change (Py.splitlines ("AB  - Some text" +:+ newline +:+ "KW  - "))
    with ([] ++ [tag_line "AB" "Some text"; tag_line "KW" ""]).
  unfold mapped_values. cbn [tm_abstract ris_mapping String.eqb Ascii.eqb Bool.eqb].
  rewrite Hafter. reflexivity.
Defined.

(** X13. The line of a tag that no field is mapped to closes the
    current tag: the lines that follow it, up to the next tag line,
    are dropped and change no value. *)
Theorem untracked_tag_drops_continuations tm lines raw conts :
  is_tag_line (Py.strip raw) = true ->
  is_relevant tm (Py.slice (Py.strip raw) 0 2) = false ->
  Forall (fun l => is_tag_line (Py.strip l) = false) conts ->
  extract_lines tm (lines ++ raw :: conts) =
  {| tags := tags (extract_lines tm lines); current_tag := None |}.
Proof.
  intros Htag Hrel Hall. unfold extract_lines. rewrite fold_left_app.
  cbn [fold_left].
  set (st := fold_left (record_step tm) lines _).
  assert (Hstep : record_step tm st raw = {| tags := tags st; current_tag := None |}).
  { unfold record_step. rewrite (is_tag_line_not_blank _ Htag), Htag, Hrel.
    reflexivity. }
  rewrite Hstep. generalize (tags st). intros tgs.
  induction Hall as [|l conts Hl _ IH]; [reflexivity|].
  cbn [fold_left]. rewrite <- IH at 2. f_equal.
  unfold record_step. cbn [current_tag]. rewrite Hl.
  destruct (String.eqb (Py.strip l) ""); reflexivity.
Qed.

Lemma untracked_tag_drops_continuations_witness :
  tags (extract_lines ris_mapping
          (["AB  - Text"] ++ "N1  - a note" :: ["that goes on"; "and on"])) !! "AB"
  = Some ["Text"].
Proof.
  assert (Hall : Forall (fun l => is_tag_line (Py.strip l) = false)
                   ["that goes on"; "and on"]) by (repeat constructor).
  rewrite (untracked_tag_drops_continuations ris_mapping ["AB  - Text"]
             "N1  - a note" ["that goes on"; "and on"] eq_refl eq_refl Hall).
  reflexivity.
Defined.

(** ** The year *)

Lemma digit_val_bounds c :
  Py.isdigit c = true -> (0 <= Py.digit_val c <= 9)%Z.
Proof.
  unfold Py.isdigit, Py.digit_val. intros H.
  apply andb_true_iff in H as [H1 H2].
  apply N.leb_le in H1, H2. lia.
Qed.

Lemma four_digits_here_bounds s y :
  Py.four_digits_here s = Some y -> (0 <= y <= 9999)%Z.
Proof.
  unfold Py.four_digits_here.
  destruct s as [|a [|b [|c [|d rest]]]]; try discriminate.
  destruct (Py.isdigit a) eqn:Ha; [|discriminate].
  destruct (Py.isdigit b) eqn:Hb; [|discriminate].
  destruct (Py.isdigit c) eqn:Hc; [|discriminate].
  destruct (Py.isdigit d) eqn:Hd; [|discriminate].
  cbn [andb]. destruct (match rest with "" => true | String e _ => _ end);
    [|discriminate].
  intros [= <-].
  apply digit_val_bounds in Ha, Hb, Hc, Hd. lia.
Qed.

Lemma search_year_from_bounds s : forall prev y,
  Py.search_year_from prev s = Some y -> (0 <= y <= 9999)%Z.
Proof.
  induction s as [|c s IH]; intros prev y H; [discriminate|].
  cbn [Py.search_year_from] in H.
  destruct (if prev then None else Py.four_digits_here (String c s)) eqn:E.
  - injection H as <-. destruct prev; [discriminate|].
    apply (four_digits_here_bounds _ _ E).
  - apply (IH _ _ H).
Qed.

(** X14. The year of a parsed record, when there is one, lies between
    0 and 9999; and there is none when the mapping has no tag for the
    year. *)
Theorem parsed_year_bounds record_str tm :
  (forall y, year (parse_ris_record record_str tm) = Some y ->
             (0 <= y <= 9999)%Z) /\
  (Py.truthy (tm_publication_year tm) = false ->
   year (parse_ris_record record_str tm) = None).
Proof.
  unfold parse_ris_record, build_result. cbn [year]. split.
  - intros y H. destruct (head _) as [v|]; [|discriminate].
    apply (search_year_from_bounds _ _ _ H).
  - intros H. unfold mapped_values, Py.truthy in *.
    destruct (tm_publication_year tm) as [t|]; [|reflexivity].
    apply negb_false_iff in H. rewrite H. reflexivity.
Qed.

Lemma flush_record_length tm records cur :
  (length records <= length (flush_record tm records cur) <= length records + 1)%nat.
Proof.
  unfold flush_record. destruct (Py.truthy _); [|lia].
  rewrite length_app. cbn [length]. lia.
Qed.

Lemma parse_lines_length tm lines : forall st,
  (length (fst (fold_left (content_step tm) lines st))
   <= length (fst st) + count_markers lines)%nat.
Proof.
  unfold count_markers.
  induction lines as [|raw lines IH]; intros st; [cbn; lia|].
  cbn [fold_left List.filter]. etransitivity; [apply IH|].
  unfold content_step.
  destruct (is_end_of_record (Py.strip raw)).
  - cbn [length]. destruct (snd st) as [|l cur]; [lia|]. cbn [fst].
    pose proof (flush_record_length tm (fst st) (l :: cur)). lia.
  - destruct (String.eqb _ _); cbn [fst]; lia.
Qed.

(** X24. A text never gives more records than it has end-of-record
    lines, plus one for the lines after the last of them; a text with
    no end-of-record line gives at most one record. *)
Theorem records_bounded_by_markers content tm :
  (length (parse_ris_content content tm)
   <= count_markers (Py.splitlines content) + 1)%nat.
Proof.
  unfold parse_ris_content, parse_lines, finish.
  pose proof (parse_lines_length tm (Py.splitlines content) ([], [])) as H.
  cbn [fst length] in H.
  destruct (snd _) as [|l cur]; [lia|].
  pose proof (flush_record_length tm
    (fst (fold_left (content_step tm) (Py.splitlines content) ([], [])))
    (l :: cur)). lia.
Qed.
(** * A text that ends without a terminator *)

Lemma init_tags_default tm t : default [] (init_tags tm !! t) = [].
Proof.
  unfold init_tags. induction (mapping_values tm) as [|o l IH]; [reflexivity|].
  cbn [foldr]. destruct o as [k|]; [|exact IH].
  destruct (decide (k = t)) as [->|Hne].
  - rewrite lookup_insert_eq. reflexivity.
  - rewrite lookup_insert_ne by exact Hne. exact IH.
Qed.

(** Nothing to read, no title. *)
Lemma parse_empty_untitled tm : title (parse_ris_record "" tm) = None.
Proof.
  unfold parse_ris_record, build_result, extract_lines. cbn [title].
  change (Py.splitlines "") with (@nil string). cbn [fold_left tags].
  unfold mapped_values. destruct (tm_title tm) as [t|]; [|reflexivity].
  destruct (String.eqb t ""); [reflexivity|].
  rewrite init_tags_default. reflexivity.
Qed.

(** Lines that are no terminators only fill the buffer. *)
Lemma fold_content_step_plain tm lines : forall records cur,
  Forall (fun raw => is_end_of_record (Py.strip raw) = false) lines ->
  fold_left (content_step tm) lines (records, cur)
  = (records,
     cur ++ List.filter (fun line => negb (String.eqb line ""))
              (map Py.strip lines)).
Proof.
  induction lines as [|raw lines IH]; intros records cur Hall.
  - cbn. rewrite app_nil_r. reflexivity.
  - apply Forall_cons in Hall as [Hraw Hall]. cbn [fold_left map List.filter].
    rewrite (content_step_other _ _ _ Hraw). cbn [fst snd].
    rewrite (IH _ _ Hall).
    destruct (String.eqb (Py.strip raw) ""); cbn [negb].
    + rewrite app_nil_r. reflexivity.
    + rewrite <- app_assoc. reflexivity.
Qed.

Lemma parse_unterminated content tm :
  Forall (fun raw => is_end_of_record (Py.strip raw) = false)
         (Py.splitlines content) ->
  Py.truthy (title (parse_ris_record (Py.join newline (pending_lines content)) tm))
  = true ->
  parse_ris_content content tm
  = [parse_ris_record (Py.join newline (pending_lines content)) tm].
Proof.
  intros Hall Ht. unfold parse_ris_content, parse_lines.
  rewrite (fold_content_step_plain _ _ _ _ Hall). cbn [app].
  fold (pending_lines content). unfold finish. cbn [fst snd].
  destruct (pending_lines content) as [|l cur] eqn:E.
  - change (Py.join newline []) with "" in Ht.
    rewrite parse_empty_untitled in Ht. discriminate Ht.
  - unfold flush_record. rewrite Ht. reflexivity.
Qed.

(** C7. A text whose last record has no terminator line.  The records
    of a text are those of the same text followed by a terminator
    line, and what stays in the buffer at the end of the text is
    flushed as a last chunk.  So the last record is parsed and is in
    the output: when the text has no terminator line at all and what
    its lines give has a title, the output is that one record; and
    when such a text follows other records and their terminator, that
    record is the last of the output, after the records of what came
    before. *)
Theorem unterminated_last_record content tm m :
  Py.splitlines m = [m] ->
  is_end_of_record (Py.strip m) = true ->
  parse_ris_content content tm = parse_ris_content (content +:+ newline +:+ m) tm
  /\ (forall st, st = parse_lines tm (Py.splitlines content) ->
      snd st <> [] ->
      parse_ris_content content tm = flush_record tm (fst st) (snd st))
  /\ (Forall (fun raw => is_end_of_record (Py.strip raw) = false)
             (Py.splitlines content) ->
      let last := parse_ris_record (Py.join newline (pending_lines content)) tm in
      Py.truthy (title last) = true ->
      parse_ris_content content tm = [last] /\
      parse_ris_content (content +:+ newline +:+ m) tm = [last] /\
      forall before,
        parse_ris_content (before +:+ newline +:+ m +:+ newline +:+ content) tm
        = parse_ris_content before tm ++ [last]).
Proof.
  intros Hm Hend.
  assert (Hsame : parse_ris_content content tm
                  = parse_ris_content (content +:+ newline +:+ m) tm).
  { unfold parse_ris_content, Py.splitlines.
    destruct (splitlines_from_terminated m _ content "" (le_n _))
      as (pad & Hpad & ->).
    fold (Py.splitlines m). rewrite Hm. unfold parse_lines.
    rewrite !fold_left_app. cbn [fold_left].
    rewrite finish_after_marker by exact Hend.
    destruct Hpad as [-> | ->]; reflexivity. }
  split; [exact Hsame|]. split.
  - intros st -> Hne. unfold parse_ris_content, finish.
    destruct (snd (parse_lines tm (Py.splitlines content))); [contradiction|].
    reflexivity.
  - intros Hall last Ht.
    pose proof (parse_unterminated content tm Hall Ht) as Hlast.
    fold last in Hlast.
    split; [exact Hlast|]. split; [rewrite <- Hsame; exact Hlast|].
    intros before. rewrite <- Hlast.
    unfold parse_ris_content, Py.splitlines.
    destruct (splitlines_from_terminated (m +:+ newline +:+ content) _
                before "" (le_n _)) as (pad1 & Hpad1 & ->).
    destruct (splitlines_from_terminated content _ m "" (le_n _))
      as (pad2 & Hpad2 & ->).
    fold (Py.splitlines m). rewrite Hm. unfold parse_lines.
    rewrite !fold_left_app. cbn [fold_left].
    rewrite (fold_content_step_pad tm pad1) by exact Hpad1.
    rewrite (content_step_marker _ _ _ Hend).
    rewrite (fold_content_step_pad tm pad2) by exact Hpad2.
    set (R := finish tm (fold_left (content_step tm)
                           (Py.splitlines_from "" before) ([], []))).
    rewrite <- (app_nil_r R) at 1.
    rewrite fold_content_step_app, finish_app.
    destruct (fold_left (content_step tm) (Py.splitlines_from "" content)
                ([], [])) as [records cur]. reflexivity.
Qed.

Lemma unterminated_last_record_witness :
  Py.splitlines "ER  - " = ["ER  - "] /\
  is_end_of_record (Py.strip "ER  - ") = true /\
  parse_ris_content two_record_content ris_mapping
  = parse_ris_content (two_record_content +:+ newline +:+ "ER  - ") ris_mapping /\
  parse_ris_content unterminated_tail ris_mapping = [last_record] /\
  parse_ris_content two_record_content ris_mapping
  = [bare_record "First" (Some "Text"); last_record].
Proof.
  assert (H1 : Py.splitlines "ER  - " = ["ER  - "]) by reflexivity.
  assert (H2 : is_end_of_record (Py.strip "ER  - ") = true) by reflexivity.
  split; [exact H1|]. split; [exact H2|]. split.
  - exact (proj1 (unterminated_last_record two_record_content ris_mapping
                    "ER  - " H1 H2)).
  - assert (Hall : Forall (fun raw => is_end_of_record (Py.strip raw) = false)
                     (Py.splitlines unterminated_tail))
      by (repeat constructor).
    assert (Ht : Py.truthy (title (parse_ris_record
                   (Py.join newline (pending_lines unterminated_tail))
                   ris_mapping)) = true) by reflexivity.
    destruct (proj2 (proj2 (unterminated_last_record unterminated_tail
                              ris_mapping "ER  - " H1 H2)) Hall Ht)
      as (Hone & _ & Hafter).
    assert (Hlast : parse_ris_record
                      (Py.join newline (pending_lines unterminated_tail))
                      ris_mapping = last_record) by (vm_compute; reflexivity).
    rewrite Hlast in Hone, Hafter. split; [exact Hone|].
    exact (Hafter ("TI  - First" +:+ newline +:+ "AB  - Text" +:+ newline
                   +:+ "ER  - " +:+ newline +:+ "AB  - no title here")).
Defined.
(** * What a field owes to the rest of the mapping *)






(** * Where Python and SQLite normalise alike *)

Lemma plain_char_space c :
  plain_char c = true -> Py.isspace c = Sqlite.is_blank c.
Proof.
  destruct c as [b0 b1 b2 b3 b4 b5 b6 b7].
  destruct b0, b1, b2, b3, b4, b5, b6, b7; vm_compute;
    intros H; try reflexivity; discriminate H.
Qed.

Lemma plain_char_lower c :
  plain_char c = true ->
  Py.lower_char c = Sqlite.lower_char c /\ plain_char (Py.lower_char c) = true.
Proof.
  destruct c as [b0 b1 b2 b3 b4 b5 b6 b7].
  destruct b0, b1, b2, b3, b4, b5, b6, b7; vm_compute;
    intros H; try (split; reflexivity); discriminate H.
Qed.

Lemma plain_cons c s : plain (String c s) = plain_char c && plain s.
Proof. reflexivity. Qed.

Lemma lstrip_plain s :
  plain s = true -> Py.lstrip s = Sqlite.ltrim s /\ plain (Py.lstrip s) = true.
Proof.
  induction s as [|c s IH]; intros H; [split; reflexivity|].
  rewrite plain_cons in H. apply andb_true_iff in H as [Hc Hs].
  cbn [Py.lstrip Sqlite.ltrim]. rewrite <- (plain_char_space _ Hc).
  destruct (Py.isspace c); [apply IH, Hs|].
  split; [reflexivity|]. rewrite plain_cons, Hc, Hs. reflexivity.
Qed.

Lemma rstrip_plain s :
  plain s = true -> Py.rstrip s = Sqlite.rtrim s /\ plain (Py.rstrip s) = true.
Proof.
  induction s as [|c s IH]; intros H; [split; reflexivity|].
  rewrite plain_cons in H. apply andb_true_iff in H as [Hc Hs].
  destruct (IH Hs) as [Heq Hpl].
  cbn [Py.rstrip Sqlite.rtrim]. rewrite <- Heq, <- (plain_char_space _ Hc).
  destruct (Py.rstrip s) as [|d r].
  - destruct (Py.isspace c); [split; reflexivity|].
    split; [reflexivity|]. rewrite plain_cons, Hc. reflexivity.
  - split; [reflexivity|]. rewrite plain_cons, Hc, Hpl. reflexivity.
Qed.

Lemma lower_plain s :
  plain s = true -> Py.lower s = Sqlite.lower s.
Proof.
  induction s as [|c s IH]; intros H; [reflexivity|].
  rewrite plain_cons in H. apply andb_true_iff in H as [Hc Hs].
  cbn [Py.lower Sqlite.lower].
  rewrite (proj1 (plain_char_lower _ Hc)), (IH Hs). reflexivity.
Qed.

(** On plain text the stored side is normalised as the incoming side
    is. *)
Lemma normalise_plain s :
  plain s = true -> Sqlite.lower (Sqlite.trim s) = Py.lower (Py.strip s).
Proof.
  intros H. unfold Sqlite.trim, Py.strip.
  destruct (lstrip_plain _ H) as [<- Hl].
  destruct (rstrip_plain _ Hl) as [<- Hr].
  symmetry. apply lower_plain, Hr.
Qed.

(** A stored row with a plain title is a title match exactly when the
    two titles are equal after trimming and lowercasing. *)
Lemma title_where_plain incoming a :
  plain (a_title a) = true ->
  (title_where (Py.lower (Py.strip incoming)) a = true <->
   Py.lower (Py.strip (a_title a)) = Py.lower (Py.strip incoming)).
Proof.
  intros H. unfold title_where. rewrite (normalise_plain _ H).
  apply String.eqb_eq.
Qed.

Lemma abstract_where_plain incoming a x :
  a_abstract a = Some x ->
  plain x = true ->
  (abstract_where (Py.lower (Py.strip incoming)) a = true <->
   Py.lower (Py.strip x) = Py.lower (Py.strip incoming)).
Proof.
  intros Hx H. unfold abstract_where. rewrite Hx, (normalise_plain _ H).
  apply String.eqb_eq.
Qed.
(** * Properties of the duplicate classifier *)

Lemma verdict_eqb_eq v w : verdict_eqb v w = true <-> v = w.
Proof. destruct v, w; simpl; split; intros H; try reflexivity; discriminate. Qed.

Lemma nonempty_false {A} (l : list A) : nonempty l = false <-> l = [].
Proof. destruct l; simpl; split; intros H; try reflexivity; discriminate. Qed.

Lemma nonempty_true {A} (l : list A) : nonempty l = true <-> l <> [].
Proof. destruct l; simpl; split; intros H; try reflexivity; congruence. Qed.

(** One iteration appends to the list that [verdict] names. *)
Lemma check_one_verdict db src u f p r :
  titled r ->
  check_one db src (u, f, p) r =
  Ok match verdict db r with
     | Unique => (u ++ [r], f, p)
     | FullDuplicate => (u, f ++ [evidence db src r], p)
     | PartialDuplicate => (u, f, p ++ [evidence db src r])
     end.
Proof.
  intros [t Ht]. unfold check_one, verdict, evidence, title_matches.
  rewrite Ht.
  destruct (nonempty (select_by_title db (Py.lower (Py.strip t)))
            || nonempty (abstract_matches db r)); [|reflexivity].
  destruct (has_both _ _); reflexivity.
Qed.

Lemma with_verdict_cons db v r rs :
  with_verdict db v (r :: rs) =
  if verdict_eqb (verdict db r) v then r :: with_verdict db v rs
  else with_verdict db v rs.
Proof. reflexivity. Qed.

(** The loop, from any accumulator: each list grows by the records of
    its verdict, in input order. *)
Lemma check_loop_partition db src rs : forall u f p,
  Forall titled rs ->
  check_loop db src (u, f, p) rs =
  Ok (u ++ with_verdict db Unique rs,
      f ++ map (evidence db src) (with_verdict db FullDuplicate rs),
      p ++ map (evidence db src) (with_verdict db PartialDuplicate rs)).
Proof.
  induction rs as [|r rs IH]; intros u f p Hall.
  - simpl. rewrite !app_nil_r. reflexivity.
  - inversion Hall as [|? ? Hr Hrs]; subst.
    cbn [check_loop]. rewrite (check_one_verdict _ _ _ _ _ _ Hr).
    rewrite !with_verdict_cons.
    destruct (verdict db r); cbn [verdict_eqb]; rewrite (IH _ _ _ Hrs);
      cbn [map]; rewrite <- ?app_assoc; reflexivity.
Qed.

Lemma check_duplicates_partition db src rs :
  Forall titled rs ->
  check_duplicates db rs src =
  Ok (with_verdict db Unique rs,
      map (evidence db src) (with_verdict db FullDuplicate rs),
      map (evidence db src) (with_verdict db PartialDuplicate rs)).
Proof.
  intros Hall. unfold check_duplicates.
  rewrite (check_loop_partition _ _ _ _ _ _ Hall). reflexivity.
Qed.

Lemma new_record_evidence db src rs :
  map new_record (map (evidence db src) rs) = rs.
Proof. induction rs as [|r rs IH]; simpl; [|rewrite IH]; reflexivity. Qed.

Lemma elem_of_with_verdict db v r rs :
  r ∈ with_verdict db v rs <-> r ∈ rs /\ verdict db r = v.
Proof.
  unfold with_verdict. rewrite !list_elem_of_In, filter_In, verdict_eqb_eq.
  reflexivity.
Qed.

Lemma common_id_nonempty ts abs :
  common_id ts abs -> ts <> [] /\ abs <> [].
Proof.
  unfold common_id. intros H. split; intros ->; apply H.
  - unfold id_set at 1. simpl. apply (left_absorb_L ∅ (∩)).
  - unfold id_set at 2. simpl. apply (right_absorb_L ∅ (∩)).
Qed.

Lemma has_both_common_id ts abs :
  has_both ts abs = true <-> common_id ts abs.
Proof.
  unfold has_both. split.
  - destruct (nonempty ts && nonempty abs); [|discriminate].
    intros H Hempty. apply Nat.ltb_lt in H.
    unfold common_id in *. rewrite Hempty, size_empty in H. lia.
  - intros H. destruct (common_id_nonempty _ _ H) as [Ht Ha].
    apply nonempty_true in Ht, Ha. rewrite Ht, Ha. cbn [andb].
    apply Nat.ltb_lt.
    destruct (decide (size (id_set ts ∩ id_set abs) = 0)) as [Hz|Hz]; [|lia].
    apply size_empty_inv in Hz. apply leibniz_equiv in Hz. contradiction.
Qed.

(** The same, element by element. *)
Lemma common_id_exists ts abs :
  common_id ts abs <->
  exists i, i ∈ map m_id ts /\ i ∈ map m_id abs.
Proof.
  unfold common_id, id_set. split.
  - intros H. apply set_choose_L in H as [i Hi].
    apply elem_of_intersection in Hi as [H1 H2].
    apply elem_of_list_to_set in H1, H2. exists i. auto.
  - intros (i & H1 & H2) Hempty.
    assert (Hi : i ∈ (∅ : gset Z)); [|by apply not_elem_of_empty in Hi].
    rewrite <- Hempty. apply elem_of_intersection.
    split; apply elem_of_list_to_set; assumption.
Qed.

Lemma verdict_full db r :
  verdict db r = FullDuplicate <->
  common_id (title_matches db r) (abstract_matches db r).
Proof.
  unfold verdict. split.
  - destruct (nonempty _ || nonempty _); [|discriminate].
    destruct (has_both _ _) eqn:E; [|discriminate].
    intros _. apply has_both_common_id, E.
  - intros H. pose proof (common_id_nonempty _ _ H) as [Ht _].
    apply nonempty_true in Ht. rewrite Ht. cbn [orb].
    apply has_both_common_id in H. rewrite H. reflexivity.
Qed.

Lemma verdict_unique db r :
  verdict db r = Unique <->
  title_matches db r = [] /\ abstract_matches db r = [].
Proof.
  unfold verdict. split.
  - destruct (nonempty (title_matches db r)) eqn:Et;
      destruct (nonempty (abstract_matches db r)) eqn:Ea; cbn [orb];
      try (destruct (has_both _ _); discriminate).
    intros _. split; apply nonempty_false; assumption.
  - intros [-> ->]. reflexivity.
Qed.

Lemma verdict_partial db r :
  verdict db r = PartialDuplicate <->
  (title_matches db r <> [] \/ abstract_matches db r <> []) /\
  ~ common_id (title_matches db r) (abstract_matches db r).
Proof.
  split.
  - intros H. split.
    + destruct (title_matches db r) eqn:Et; [|left; discriminate].
      destruct (abstract_matches db r) eqn:Ea; [|right; discriminate].
      assert (verdict db r = Unique) by (apply verdict_unique; auto).
      congruence.
    + intros Hc. apply verdict_full in Hc. congruence.
  - intros [Hne Hnc]. destruct (verdict db r) eqn:E; [| |reflexivity].
    + apply verdict_unique in E as [H1 H2]. destruct Hne; congruence.
    + apply verdict_full in E. contradiction.
Qed.

(** An absent or empty incoming abstract is never queried. *)
Lemma abstract_matches_falsy db r :
  Py.truthy (abstract r) = false -> abstract_matches db r = [].
Proof.
  unfold abstract_matches, abstract_param, Py.truthy.
  destruct (abstract r) as [a|]; [|reflexivity].
  destruct (String.eqb a ""); [reflexivity | discriminate].
Qed.

Lemma filter_sublist {A} (f : A -> bool) (l : list A) :
  List.filter f l `sublist_of` l.
Proof.
  induction l as [|x l IH]; simpl; [constructor|].
  destruct (f x); [apply sublist_skip | apply sublist_cons]; assumption.
Qed.

Lemma with_verdict_lengths db rs :
  length (with_verdict db Unique rs)
  + length (with_verdict db FullDuplicate rs)
  + length (with_verdict db PartialDuplicate rs) = length rs.
Proof.
  induction rs as [|r rs IH]; [reflexivity|].
  rewrite !with_verdict_cons.
  destruct (verdict db r); cbn [verdict_eqb length]; lia.
Qed.

Lemma with_verdict_permutation db rs :
  with_verdict db Unique rs ++ with_verdict db FullDuplicate rs
  ++ with_verdict db PartialDuplicate rs ≡ₚ rs.
Proof.
  induction rs as [|r rs IH]; [reflexivity|].
  rewrite !with_verdict_cons.
  destruct (verdict db r); cbn [verdict_eqb].
  - simpl. constructor. exact IH.
  - simpl. rewrite <- Permutation_middle. constructor. exact IH.
  - rewrite app_assoc, <- Permutation_middle, <- app_assoc.
    constructor. exact IH.
Qed.

(** C1. A record lands in the full-duplicate list exactly when the
    identifier sets of its title matches and of its abstract matches
    intersect; with matches on both fields but no shared identifier it
    lands in the partial-duplicate list.  The two match lists are the
    ones reported with the record. *)
Theorem full_duplicate_iff_common_id db src rs :
  Forall titled rs ->
  exists u f p,
    check_duplicates db rs src = Ok (u, f, p) /\
    (forall info, info ∈ f ++ p ->
       title_duplicates info = title_matches db (new_record info) /\
       abstract_duplicates info = abstract_matches db (new_record info)) /\
    (forall r, r ∈ rs ->
       (r ∈ map new_record f <->
        id_set (title_matches db r) ∩ id_set (abstract_matches db r) ≠ ∅) /\
       (title_matches db r <> [] -> abstract_matches db r <> [] ->
        id_set (title_matches db r) ∩ id_set (abstract_matches db r) = ∅ ->
        r ∈ map new_record p /\ (r ∉ map new_record f))).
Proof.
  intros Hall. eexists _, _, _. split; [apply check_duplicates_partition, Hall|].
  split.
  - intros info Hin. rewrite <- fmap_app in Hin.
    apply list_elem_of_fmap in Hin as (r & -> & _). split; reflexivity.
  - intros r Hr. rewrite !new_record_evidence, !elem_of_with_verdict.
    fold (common_id (title_matches db r) (abstract_matches db r)).
    rewrite <- verdict_full. split; [tauto|].
    intros Ht Ha Hnone.
    assert (Hp : verdict db r = PartialDuplicate).
    { apply verdict_partial. split; [left; exact Ht|].
      intros Hc. apply Hc, Hnone. }
    rewrite Hp. split; [tauto|]. intros [_ ?]; discriminate.
Qed.

(** C4. A record lands in the unique list exactly when it has neither a
    title match nor an abstract match, and a record whose abstract is
    absent or empty has no abstract match: none is reported for it,
    whatever the store holds. *)
Theorem unique_iff_no_match db src rs :
  Forall titled rs ->
  exists u f p,
    check_duplicates db rs src = Ok (u, f, p) /\
    (forall r, r ∈ rs ->
       (r ∈ u <-> title_matches db r = [] /\ abstract_matches db r = []) /\
       (Py.truthy (abstract r) = false -> abstract_matches db r = [])) /\
    (forall info, info ∈ f ++ p ->
       abstract_duplicates info = abstract_matches db (new_record info) /\
       (Py.truthy (abstract (new_record info)) = false ->
        abstract_duplicates info = [])).
Proof.
  intros Hall. eexists _, _, _. split; [apply check_duplicates_partition, Hall|].
  split.
  - intros r Hr. rewrite elem_of_with_verdict, <- verdict_unique.
    split; [tauto | apply abstract_matches_falsy].
  - intros info Hin. rewrite <- fmap_app in Hin.
    apply list_elem_of_fmap in Hin as (r & -> & _).
    split; [reflexivity | apply abstract_matches_falsy].
Qed.

(** C9. The three output lists partition the input: each is the input
    filtered by one verdict (so in input order), every record is in
    exactly one of them, and their lengths add up to the input's. *)
Theorem classifier_partitions_input db src rs :
  Forall titled rs ->
  exists u f p,
    check_duplicates db rs src = Ok (u, f, p) /\
    u = with_verdict db Unique rs /\
    map new_record f = with_verdict db FullDuplicate rs /\
    map new_record p = with_verdict db PartialDuplicate rs /\
    (length u + length f + length p = length rs)%nat /\
    u ++ map new_record f ++ map new_record p ≡ₚ rs /\
    u `sublist_of` rs /\
    map new_record f `sublist_of` rs /\
    map new_record p `sublist_of` rs /\
    (forall r, r ∈ rs ->
       (r ∈ u /\ (r ∉ map new_record f) /\ (r ∉ map new_record p))
       \/ ((r ∉ u) /\ r ∈ map new_record f /\ (r ∉ map new_record p))
       \/ ((r ∉ u) /\ (r ∉ map new_record f) /\ r ∈ map new_record p)).
Proof.
  intros Hall. eexists _, _, _. split; [apply check_duplicates_partition, Hall|].
  rewrite !new_record_evidence, !length_map.
  repeat split; try apply filter_sublist.
  - apply with_verdict_lengths.
  - apply with_verdict_permutation.
  - intros r Hr. rewrite !elem_of_with_verdict.
    destruct (verdict db r) eqn:E.
    + left. repeat split; try assumption; intros [_ ?]; discriminate.
    + right; left. repeat split; try assumption; intros [_ ?]; discriminate.
    + right; right. repeat split; try assumption; intros [_ ?]; discriminate.
Qed.

Lemma sample_incoming_titled : Forall titled sample_incoming.
Proof. repeat constructor; eexists; reflexivity. Qed.

(** The scenarios of the specification, evaluated. *)
Example classify_sample :
  check_duplicates sample_store sample_incoming "PubMed" =
  Ok ([incoming_unique],
      [evidence sample_store "PubMed" incoming_full],
      [evidence sample_store "PubMed" incoming_partial;
       evidence sample_store "PubMed" incoming_title_only]).
Proof. vm_compute. reflexivity. Qed.

Example classify_sample_full_ids :
  elements (id_set (title_matches sample_store incoming_full)
            ∩ id_set (abstract_matches sample_store incoming_full)) = [1%Z].
Proof. vm_compute. reflexivity. Qed.

Example classify_sample_partial_ids :
  map m_id (title_matches sample_store incoming_partial) = [1%Z] /\
  map m_id (abstract_matches sample_store incoming_partial) = [2%Z].
Proof. vm_compute. split; reflexivity. Qed.

Lemma full_duplicate_iff_common_id_witness :
  Forall titled sample_incoming /\
  exists u f p,
    check_duplicates sample_store sample_incoming "PubMed" = Ok (u, f, p) /\
    incoming_full ∈ map new_record f /\
    incoming_partial ∈ map new_record p.
Proof.
  pose proof sample_incoming_titled as Hall. split; [exact Hall|].
  destruct (full_duplicate_iff_common_id sample_store "PubMed"
              sample_incoming Hall) as (u & f & p & Hc & _ & Hr).
  exists u, f, p. split; [exact Hc|]. split.
  - apply (Hr incoming_full).
    + do 2 right. left.
    + apply has_both_common_id. vm_compute. reflexivity.
  - apply (Hr incoming_partial).
    + left.
    + vm_compute. discriminate.
    + vm_compute. discriminate.
    + apply leibniz_equiv, elements_empty_iff. vm_compute. reflexivity.
Defined.

Lemma unique_iff_no_match_witness :
  Forall titled sample_incoming /\
  exists u f p,
    check_duplicates sample_store sample_incoming "PubMed" = Ok (u, f, p) /\
    incoming_unique ∈ u.
Proof.
  pose proof sample_incoming_titled as Hall. split; [exact Hall|].
  destruct (unique_iff_no_match sample_store "PubMed"
              sample_incoming Hall) as (u & f & p & Hc & Hr & _).
  exists u, f, p. split; [exact Hc|].
  apply (Hr incoming_unique).
  - right. left.
  - vm_compute. split; reflexivity.
Defined.

Lemma classifier_partitions_input_witness :
  Forall titled sample_incoming /\
  exists u f p,
    check_duplicates sample_store sample_incoming "PubMed" = Ok (u, f, p) /\
    (length u + length f + length p = 4)%nat.
Proof.
  pose proof sample_incoming_titled as Hall. split; [exact Hall|].
  destruct (classifier_partitions_input sample_store "PubMed"
              sample_incoming Hall) as (u & f & p & Hc & _ & _ & _ & Hlen & _).
  exists u, f, p. split; [exact Hc | exact Hlen].
Defined.

(** The example of the specification: the padded stored title of row 1
    is matched by the incoming upper-case title. *)
Example padded_title_matches :
  title_where (Py.lower (Py.strip "DEEP LEARNING"))
    {| a_id := 1; a_title := "  Deep Learning  "; a_journal_id := None;
       a_source_id := None; a_year := None; a_abstract := None |} = true.
Proof. vm_compute. reflexivity. Qed.

(** The two normalisations of one and the same title differ when it
    holds a capital letter outside ASCII. *)
Example accented_title_normalised :
  Py.lower (Py.strip accented_title) = String (ascii_of_N 233) "cole" /\
  Sqlite.lower (Sqlite.trim accented_title) = accented_title.
Proof. vm_compute. split; reflexivity. Qed.

(** C5. A file whose only record carries an accented capital in its
    title is ingested twice: the second time its record is compared
    with its own stored copy, is found unique, and is stored again. *)
Theorem accented_title_not_matched :
  parse_ris_content accented_content ris_mapping = [accented_record] /\
  map a_title (articles accented_store) = [accented_title] /\
  check_duplicates accented_store [accented_record] "Scopus"
  = Ok ([accented_record], [], []) /\
  map a_title
    (articles (snd (process_uploaded_file quiet_engine accented_content
                      "Scopus" ris_mapping accented_store)))
  = [accented_title; accented_title].
Proof. vm_compute. repeat split; reflexivity. Qed.

(** The records the parser hands over are always classified. *)
Lemma has_title_titled r : has_title r -> titled r.
Proof. intros (t & Ht & _). exists t. exact Ht. Qed.

Lemma parsed_records_classified db src content tm :
  check_duplicates db (parse_ris_content content tm) src =
  Ok (with_verdict db Unique (parse_ris_content content tm),
      map (evidence db src)
        (with_verdict db FullDuplicate (parse_ris_content content tm)),
      map (evidence db src)
        (with_verdict db PartialDuplicate (parse_ris_content content tm))).
Proof.
  apply check_duplicates_partition.
  eapply Forall_impl; [apply parse_ris_content_titled|].
  apply has_title_titled.
Qed.
(** * More on the classifier: growth of the store, batches *)

Lemma map_filter_nonempty {A B} (f : A -> B) (p : A -> bool) (l : list A) :
  map f (List.filter p l) <> [] <-> exists x, x ∈ l /\ p x = true.
Proof.
  induction l as [|x l IH]; cbn [List.filter].
  - split; [intros H; contradiction | intros (x & Hx & _); inversion Hx].
  - destruct (p x) eqn:E.
    + split; [intros _; exists x; split; [left | exact E] | discriminate].
    + rewrite IH. split; intros (y & Hy & Hp).
      * exists y. split; [right; exact Hy | exact Hp].
      * apply elem_of_cons in Hy as [-> | Hy]; [congruence | eauto].
Qed.

Lemma title_matches_nonempty db r t :
  title r = Some t ->
  (title_matches db r <> [] <->
   exists a, a ∈ articles db /\ title_where (Py.lower (Py.strip t)) a = true).
Proof.
  intros Ht. unfold title_matches, select_by_title. rewrite Ht.
  apply map_filter_nonempty.
Qed.

Lemma abstract_matches_nonempty db r :
  abstract_matches db r <> [] <->
  abstract_param r <> "" /\
  exists a, a ∈ articles db /\ abstract_where (abstract_param r) a = true.
Proof.
  unfold abstract_matches, select_by_abstract.
  destruct (String.eqb (abstract_param r) "") eqn:E.
  - apply String.eqb_eq in E. split; [intros H; contradiction | tauto].
  - apply String.eqb_neq in E. rewrite map_filter_nonempty. tauto.
Qed.

Lemma map_filter_ids db p l i :
  i ∈ map m_id (map (select_row db) (List.filter p l)) <->
  exists a, a ∈ l /\ p a = true /\ a_id a = i.
Proof.
  rewrite map_map. cbn [select_row m_id]. rewrite list_elem_of_In, in_map_iff.
  split.
  - intros (a & <- & Ha). apply filter_In in Ha as [Ha Hp].
    exists a. rewrite list_elem_of_In. auto.
  - intros (a & Ha & Hp & <-). exists a. split; [reflexivity|].
    apply filter_In. rewrite <- list_elem_of_In. auto.
Qed.

Lemma title_match_ids db r t i :
  title r = Some t ->
  (i ∈ map m_id (title_matches db r) <->
   exists a, a ∈ articles db /\
             title_where (Py.lower (Py.strip t)) a = true /\ a_id a = i).
Proof.
  intros Ht. unfold title_matches, select_by_title. rewrite Ht.
  apply map_filter_ids.
Qed.

Lemma abstract_match_ids db r i :
  i ∈ map m_id (abstract_matches db r) <->
  abstract_param r <> "" /\
  exists a, a ∈ articles db /\
            abstract_where (abstract_param r) a = true /\ a_id a = i.
Proof.
  unfold abstract_matches, select_by_abstract.
  destruct (String.eqb (abstract_param r) "") eqn:E.
  - apply String.eqb_eq in E. split; [intros H; inversion H | tauto].
  - apply String.eqb_neq in E. rewrite map_filter_ids. tauto.
Qed.

(** A store that holds every article of another gives at least its
    matches. *)
Lemma not_unique_grows db db' r :
  titled r ->
  (forall a, a ∈ articles db -> a ∈ articles db') ->
  verdict db r <> Unique -> verdict db' r <> Unique.
Proof.
  intros [t Ht] Hsub Hv Hu. apply Hv. apply verdict_unique.
  apply verdict_unique in Hu as [Hu1 Hu2].
  split.
  - destruct (title_matches db r) eqn:E; [reflexivity|]. exfalso.
    assert (Hne : title_matches db r <> []) by (rewrite E; discriminate).
    apply (title_matches_nonempty _ _ _ Ht) in Hne as (a & Ha & Hw).
    assert (Hne' : title_matches db' r <> []).
    { apply (title_matches_nonempty _ _ _ Ht). eauto. }
    contradiction.
  - destruct (abstract_matches db r) eqn:E; [reflexivity|]. exfalso.
    assert (Hne : abstract_matches db r <> []) by (rewrite E; discriminate).
    apply abstract_matches_nonempty in Hne as (Hp & a & Ha & Hw).
    assert (Hne' : abstract_matches db' r <> []).
    { apply abstract_matches_nonempty. eauto. }
    contradiction.
Qed.

Lemma full_duplicate_grows db db' r :
  titled r ->
  (forall a, a ∈ articles db -> a ∈ articles db') ->
  verdict db r = FullDuplicate -> verdict db' r = FullDuplicate.
Proof.
  intros [t Ht] Hsub Hv. apply verdict_full. apply common_id_exists.
  apply verdict_full in Hv. apply common_id_exists in Hv as (i & H1 & H2).
  exists i. split.
  - apply (title_match_ids _ _ _ _ Ht) in H1 as (a & Ha & Hw & Hi).
    apply (title_match_ids _ _ _ _ Ht). eauto.
  - apply abstract_match_ids in H2 as (Hp & a & Ha & Hw & Hi).
    apply abstract_match_ids. split; [exact Hp|]. exists a. auto.
Qed.

(** ** Batches *)

Lemma check_one_acc db src u f p r :
  check_one db src (u, f, p) r =
  match check_one db src ([], [], []) r with
  | Ok (u', f', p') => Ok (u ++ u', f ++ f', p ++ p')
  | Raise e => Raise e
  end.
Proof.
  unfold check_one. destruct (title r) as [t|]; [|reflexivity].
  destruct (nonempty _ || nonempty _).
  - destruct (has_both _ _); cbn [app]; rewrite ?app_nil_r; reflexivity.
  - cbn [app]. rewrite !app_nil_r. reflexivity.
Qed.

Lemma check_loop_acc db src rs : forall u f p,
  check_loop db src (u, f, p) rs =
  match check_loop db src ([], [], []) rs with
  | Ok (u', f', p') => Ok (u ++ u', f ++ f', p ++ p')
  | Raise e => Raise e
  end.
Proof.
  induction rs as [|r rs IH]; intros u f p.
  - cbn [check_loop]. rewrite !app_nil_r. reflexivity.
  - cbn [check_loop]. rewrite (check_one_acc db src u f p r).
    destruct (check_one db src ([], [], []) r) as [[[u1 f1] p1]|e]; [|reflexivity].
    rewrite (IH (u ++ u1) (f ++ f1) (p ++ p1)), (IH u1 f1 p1).
    destruct (check_loop db src ([], [], []) rs) as [[[u2 f2] p2]|e];
      [|reflexivity].
    rewrite !app_assoc. reflexivity.
Qed.

Lemma check_loop_app db src rs1 rs2 : forall acc,
  check_loop db src acc (rs1 ++ rs2) =
  match check_loop db src acc rs1 with
  | Ok acc' => check_loop db src acc' rs2
  | Raise e => Raise e
  end.
Proof.
  induction rs1 as [|r rs1 IH]; intros acc; [reflexivity|].
  cbn [app check_loop]. destruct (check_one db src acc r); [apply IH | reflexivity].
Qed.

Lemma check_loop_raises db src rs : forall acc e,
  check_loop db src acc rs = Raise e ->
  e = AttributeError /\ exists r, r ∈ rs /\ title r = None.
Proof.
  induction rs as [|r rs IH]; intros [[u f] p] e H; [discriminate|].
  cbn [check_loop] in H.
  destruct (check_one db src (u, f, p) r) as [acc'|e'] eqn:E.
  - apply IH in H as (-> & r' & Hr' & Ht). split; [reflexivity|].
    exists r'. split; [right; exact Hr' | exact Ht].
  - injection H as <-. unfold check_one in E.
    destruct (title r) as [t|] eqn:Ht.
    + destruct (nonempty _ || nonempty _); [destruct (has_both _ _)|]; discriminate.
    + injection E as <-. split; [reflexivity|]. exists r. split; [left | exact Ht].
Qed.

Lemma check_loop_returns db src rs : forall acc out,
  check_loop db src acc rs = Ok out -> Forall titled rs.
Proof.
  induction rs as [|r rs IH]; intros [[u f] p] out H; [constructor|].
  cbn [check_loop] in H.
  destruct (check_one db src (u, f, p) r) as [acc'|e'] eqn:E; [|discriminate].
  constructor; [|apply (IH _ _ H)].
  unfold check_one in E. unfold titled.
  destruct (title r) as [t|]; [eexists; reflexivity | discriminate].
Qed.

Lemma titled_not_none (rs : list NormalizedRecord) :
  Forall titled rs <-> ~ exists r, r ∈ rs /\ title r = None.
Proof.
  rewrite Forall_forall. split.
  - intros H (r & Hr & Ht). destruct (H r Hr) as [t Ht']. congruence.
  - intros H r Hr. destruct (title r) as [t|] eqn:Ht; [exists t; exact Ht|].
    exfalso. apply H. eauto.
Qed.

Lemma check_one_with_quiet query_fails db src acc r :
  (forall d q, query_fails d q = false) ->
  check_one_with query_fails db src acc r = check_one db src acc r.
Proof.
  intros quiet. unfold check_one_with, check_one, abstract_matches.
  destruct acc as [[u f] p]. destruct (title r) as [t|]; [|reflexivity].
  rewrite !quiet, andb_false_r. reflexivity.
Qed.

Lemma check_loop_with_quiet query_fails db src rs :
  (forall d q, query_fails d q = false) ->
  forall acc, check_loop_with query_fails db src acc rs = check_loop db src acc rs.
Proof.
  intros quiet. induction rs as [|r rs IH]; intros acc; [reflexivity|].
  cbn [check_loop_with check_loop]. rewrite (check_one_with_quiet _ _ _ _ _ quiet).
  destruct (check_one db src acc r); [apply IH | reflexivity].
Qed.

Lemma check_loop_with_untitled query_fails db src rs :
  (exists r, r ∈ rs /\ title r = None) ->
  forall acc, exists e, check_loop_with query_fails db src acc rs = Raise e.
Proof.
  induction rs as [|r rs IH]; intros (x & Hx & Ht) acc; [inversion Hx|].
  cbn [check_loop_with].
  destruct (check_one_with query_fails db src acc r) as [acc'|e] eqn:E; [|eauto].
  apply elem_of_cons in Hx as [-> | Hx].
  - unfold check_one_with in E. destruct acc as [[u f] p].
    rewrite Ht in E. discriminate E.
  - apply IH. eauto.
Qed.

(** X1. [check_duplicates] and records without title.  A batch that
    holds a record without title is never classified: the call raises,
    whatever the store answers or refuses.  A refused connection makes
    it raise for every batch.  On a store that refuses nothing, it
    raises exactly when some record of the batch has no title, and
    what it raises is then [AttributeError]. *)
Theorem check_duplicates_raises_iff_untitled query_fails db rs src :
  ((exists r, r ∈ rs /\ title r = None) ->
   exists e, check_duplicates_with query_fails db rs src = Raise e) /\
  (query_fails db Connect = true ->
   check_duplicates_with query_fails db rs src = Raise OperationalError) /\
  ((forall d q, query_fails d q = false) ->
   check_duplicates_with query_fails db rs src = check_duplicates db rs src /\
   ((exists e, check_duplicates_with query_fails db rs src = Raise e) <->
    exists r, r ∈ rs /\ title r = None) /\
   (forall e, check_duplicates_with query_fails db rs src = Raise e ->
              e = AttributeError)).
Proof.
  split; [|split].
  - intros Hex. unfold check_duplicates_with.
    destruct (query_fails db Connect); [eauto|].
    apply (check_loop_with_untitled _ _ _ _ Hex).
  - intros H. unfold check_duplicates_with. rewrite H. reflexivity.
  - intros quiet.
    assert (Heq : check_duplicates_with query_fails db rs src
                  = check_duplicates db rs src).
    { unfold check_duplicates_with, check_duplicates. rewrite quiet.
      apply (check_loop_with_quiet _ _ _ _ quiet). }
    rewrite Heq. split; [reflexivity|]. split; [split|].
    + intros [e H]. apply check_loop_raises in H as [_ H]. exact H.
    + intros Hex.
      destruct (check_duplicates db rs src) as [out|e] eqn:E; [|eauto].
      exfalso. apply check_loop_returns in E. apply titled_not_none in E.
      contradiction.
    + intros e H. apply check_loop_raises in H as [H _]. exact H.
Qed.

(** X2. The verdict on a record does not depend on the rest of the
    batch: classifying two batches one after the other against the
    same store and appending the three lists gives the classification
    of the appended batch.  No record is compared with another record
    of its own batch. *)
Theorem check_duplicates_app db src rs1 rs2 u1 f1 p1 u2 f2 p2 :
  check_duplicates db rs1 src = Ok (u1, f1, p1) ->
  check_duplicates db rs2 src = Ok (u2, f2, p2) ->
  check_duplicates db (rs1 ++ rs2) src = Ok (u1 ++ u2, f1 ++ f2, p1 ++ p2).
Proof.
  unfold check_duplicates. intros H1 H2.
  rewrite check_loop_app, H1, check_loop_acc, H2. reflexivity.
Qed.

Lemma check_duplicates_app_witness :
  check_duplicates sample_store
    ([incoming_partial; incoming_unique] ++ [incoming_unique; incoming_full])
    "PubMed"
  = Ok ([incoming_unique] ++ [incoming_unique],
        [] ++ [evidence sample_store "PubMed" incoming_full],
        [evidence sample_store "PubMed" incoming_partial] ++ []).
Proof.
  apply (check_duplicates_app sample_store "PubMed"
           [incoming_partial; incoming_unique] [incoming_unique; incoming_full]);
    vm_compute; reflexivity.
Defined.

Lemma check_single db src r :
  titled r ->
  check_duplicates db [r] src =
  Ok match verdict db r with
     | Unique => ([r], [], [])
     | FullDuplicate => ([], [evidence db src r], [])
     | PartialDuplicate => ([], [], [evidence db src r])
     end.
Proof.
  intros Hr. unfold check_duplicates. cbn [check_loop].
  rewrite (check_one_verdict _ _ _ _ _ _ Hr). destruct (verdict db r); reflexivity.
Qed.

(** X3. Adding articles to the store never makes a record unique, and
    never takes a full duplicate back: a record with a title that is
    not unique against a store is not unique against any store that
    holds the same articles and more, and one that is a full duplicate
    stays a full duplicate. *)
Theorem verdict_grows_with_store db db' src r :
  titled r ->
  (forall a, a ∈ articles db -> a ∈ articles db') ->
  (check_duplicates db' [r] src = Ok ([r], [], []) ->
   check_duplicates db [r] src = Ok ([r], [], [])) /\
  ((exists info, check_duplicates db [r] src = Ok ([], [info], [])) ->
   exists info', check_duplicates db' [r] src = Ok ([], [info'], [])).
Proof.
  intros Hr Hsub. rewrite !(check_single _ _ _ Hr). split.
  - intros H. destruct (verdict db r) eqn:E; [reflexivity| |].
    + rewrite (full_duplicate_grows _ _ _ Hr Hsub E) in H. discriminate.
    + assert (Hn : verdict db' r <> Unique).
      { apply (not_unique_grows db); auto. congruence. }
      destruct (verdict db' r); [contradiction | discriminate | discriminate].
  - intros [info H]. destruct (verdict db r) eqn:E; try discriminate.
    rewrite (full_duplicate_grows _ _ _ Hr Hsub E). eauto.
Qed.

Lemma verdict_grows_with_store_witness :
  exists info',
    check_duplicates grown_store [incoming_full] "Scopus" = Ok ([], [info'], []).
Proof.
  apply (verdict_grows_with_store sample_store grown_store "Scopus"
           incoming_full).
  - eexists; reflexivity.
  - intros a Ha. unfold grown_store, add_article. cbn [articles].
    apply elem_of_app. left. exact Ha.
  - eexists. vm_compute. reflexivity.
Defined.

Lemma evidence_types db src r :
  (verdict db r = FullDuplicate ->
   duplicate_type (evidence db src r) = ["title"; "abstract"]) /\
  (verdict db r = PartialDuplicate ->
   duplicate_type (evidence db src r) = ["title"]
   \/ duplicate_type (evidence db src r) = ["abstract"]
   \/ duplicate_type (evidence db src r) = ["title"; "abstract"]).
Proof.
  cbn [evidence duplicate_type]. split.
  - intros H. apply verdict_full, common_id_nonempty in H as [Ht Ha].
    apply nonempty_true in Ht, Ha. rewrite Ht, Ha. reflexivity.
  - intros H. apply verdict_partial in H as [[Ht | Ha] _].
    + apply nonempty_true in Ht. rewrite Ht.
      destruct (nonempty (abstract_matches db r)); auto.
    + apply nonempty_true in Ha. rewrite Ha.
      destruct (nonempty (title_matches db r)); auto.
Qed.

Lemma select_rows_stored db p m :
  m ∈ map (select_row db) (List.filter p (articles db)) ->
  exists a, a ∈ articles db /\ m = select_row db a.
Proof.
  rewrite list_elem_of_In, in_map_iff. intros (a & <- & Ha).
  apply filter_In in Ha as [Ha _]. exists a. rewrite list_elem_of_In. auto.
Qed.

Lemma evidence_rows_stored db src r m :
  m ∈ title_duplicates (evidence db src r)
      ++ abstract_duplicates (evidence db src r) ->
  exists a, a ∈ articles db /\ m = select_row db a.
Proof.
  cbn [evidence title_duplicates abstract_duplicates].
  intros H. apply elem_of_app in H as [H | H].
  - unfold title_matches in H. destruct (title r); [|inversion H].
    apply (select_rows_stored _ _ _ H).
  - unfold abstract_matches in H.
    destruct (String.eqb (abstract_param r) ""); [inversion H|].
    apply (select_rows_stored _ _ _ H).
Qed.

Lemma evidence_labels db src r :
  ("title" ∈ duplicate_type (evidence db src r) <-> title_matches db r <> []) /\
  ("abstract" ∈ duplicate_type (evidence db src r)
   <-> abstract_matches db r <> []).
Proof.
  cbn [evidence duplicate_type].
  destruct (title_matches db r) as [|m ms], (abstract_matches db r) as [|n ns];
    cbn [nonempty app]; rewrite ?elem_of_cons, ?elem_of_nil;
    split; split; intros H; try discriminate; try contradiction; auto;
    destruct H as [H | H]; try discriminate H; contradiction.
Qed.

(** The rows of the title query are stored articles whose title, as
    SQLite normalises it, is the incoming title as Python normalises
    it; likewise for the abstract query. *)
Lemma title_match_row db r m :
  m ∈ title_matches db r ->
  exists t a, title r = Some t /\ a ∈ articles db /\ m = select_row db a /\
              Sqlite.lower (Sqlite.trim (a_title a)) = Py.lower (Py.strip t).
Proof.
  unfold title_matches, select_by_title. destruct (title r) as [t|]; [|inversion 1].
  rewrite list_elem_of_In, in_map_iff. intros (a & <- & Ha).
  apply filter_In in Ha as [Ha Hw]. apply String.eqb_eq in Hw.
  exists t, a. rewrite list_elem_of_In. auto.
Qed.

Lemma abstract_match_row db r m :
  m ∈ abstract_matches db r ->
  exists x y a, abstract r = Some x /\ a ∈ articles db /\ a_abstract a = Some y /\
                m = select_row db a /\
                Sqlite.lower (Sqlite.trim y) = Py.lower (Py.strip x).
Proof.
  unfold abstract_matches, select_by_abstract, abstract_param.
  destruct (abstract r) as [x|]; [|inversion 1].
  destruct (String.eqb x ""); [inversion 1|].
  destruct (String.eqb (Py.lower (Py.strip x)) ""); [inversion 1|].
  rewrite list_elem_of_In, in_map_iff. intros (a & <- & Ha).
  apply filter_In in Ha as [Ha Hw]. unfold abstract_where in Hw.
  destruct (a_abstract a) as [y|] eqn:Hy; [|discriminate].
  apply String.eqb_eq in Hw. exists x, y, a. rewrite list_elem_of_In. auto.
Qed.

(** X4. What is reported with a duplicate.  Every entry is about a
    record of the batch and carries the source label of the call; its
    two match lists are the answers of the title query and of the
    abstract query for that record; it is typed [title] exactly when
    the title query found a row and [abstract] exactly when the
    abstract query found one, so a full duplicate is always typed
    [title, abstract] and a partial duplicate never by nothing.  Every
    row listed as a title match is a stored article whose normalised
    title is the record's normalised title, and every row listed as an
    abstract match a stored article whose normalised abstract is the
    record's. *)
Theorem duplicate_evidence_sound db rs src u f p :
  check_duplicates db rs src = Ok (u, f, p) ->
  (forall info, info ∈ f -> duplicate_type info = ["title"; "abstract"]) /\
  (forall info, info ∈ p ->
     duplicate_type info = ["title"] \/ duplicate_type info = ["abstract"]
     \/ duplicate_type info = ["title"; "abstract"]) /\
  (forall info, info ∈ f ++ p ->
     new_record info ∈ rs /\
     source_name info = src /\
     title_duplicates info = title_matches db (new_record info) /\
     abstract_duplicates info = abstract_matches db (new_record info) /\
     ("title" ∈ duplicate_type info <-> title_duplicates info <> []) /\
     ("abstract" ∈ duplicate_type info <-> abstract_duplicates info <> []) /\
     (forall m, m ∈ title_duplicates info ->
        exists t a, title (new_record info) = Some t /\ a ∈ articles db /\
                    m = select_row db a /\
                    Sqlite.lower (Sqlite.trim (a_title a))
                    = Py.lower (Py.strip t)) /\
     (forall m, m ∈ abstract_duplicates info ->
        exists x y a, abstract (new_record info) = Some x /\ a ∈ articles db /\
                      a_abstract a = Some y /\ m = select_row db a /\
                      Sqlite.lower (Sqlite.trim y) = Py.lower (Py.strip x))).
Proof.
  intros H. pose proof (check_loop_returns _ _ _ _ _ H) as Hall.
  rewrite (check_duplicates_partition _ _ _ Hall) in H.
  injection H as <- <- <-. split; [|split].
  - intros info Hin. apply list_elem_of_fmap in Hin as (r & -> & Hr).
    apply elem_of_with_verdict in Hr as [_ Hv].
    apply (proj1 (evidence_types db src r) Hv).
  - intros info Hin. apply list_elem_of_fmap in Hin as (r & -> & Hr).
    apply elem_of_with_verdict in Hr as [_ Hv].
    apply (proj2 (evidence_types db src r) Hv).
  - intros info Hin. rewrite <- fmap_app in Hin.
    apply list_elem_of_fmap in Hin as (r & -> & Hr).
    assert (Hrs : r ∈ rs).
    { apply elem_of_app in Hr as [Hr | Hr];
        apply elem_of_with_verdict in Hr as [Hr _]; exact Hr. }
    pose proof (evidence_labels db src r) as [Hlt Hla].
    cbn [evidence new_record source_name title_duplicates abstract_duplicates]
      in *.
    split; [exact Hrs|]. split; [reflexivity|]. split; [reflexivity|].
    split; [reflexivity|]. split; [exact Hlt|]. split; [exact Hla|].
    split; [apply title_match_row | apply abstract_match_row].
Qed.

Lemma duplicate_evidence_sound_witness :
  exists u f p,
    check_duplicates sample_store sample_incoming "PubMed" = Ok (u, f, p) /\
    (forall info, info ∈ f -> duplicate_type info = ["title"; "abstract"]) /\
    (forall info, info ∈ f ++ p ->
       "title" ∈ duplicate_type info <-> title_duplicates info <> []).
Proof.
  eexists _, _, _. split; [apply classify_sample|].
  destruct (duplicate_evidence_sound sample_store sample_incoming "PubMed"
              _ _ _ classify_sample) as (Hf & _ & Hall).
  split; [exact Hf|]. intros info Hin.
  destruct (Hall info Hin) as (_ & _ & _ & _ & Ht & _). exact Ht.
Defined.
(** * Properties of the storage code *)

Lemma bind_ok {A B} (m : M A) (k : A -> M B) db a db' :
  m db = Ok (a, db') -> bind m k db = k a db'.
Proof. intros H. unfold bind. rewrite H. reflexivity. Qed.

Lemma bind_raise {A B} (m : M A) (k : A -> M B) db e :
  m db = Raise e -> bind m k db = Raise e.
Proof. intros H. unfold bind. rewrite H. reflexivity. Qed.

(** ** The batch is all or nothing *)

Section Batch.

Variable engine_fails : database -> statement -> bool.

Lemma store_loop_cons src r rs n db :
  store_loop engine_fails src (r :: rs) n db =
  match store_record_in_database engine_fails r src db with
  | Ok (_, db') => store_loop engine_fails src rs (S n) db'
  | Raise e => Raise e
  end.
Proof.
  cbn [store_loop]. unfold bind.
  destruct (store_record_in_database engine_fails r src db) as [[? ?]|];
    reflexivity.
Qed.

Lemma store_loop_app src pre post : forall n db,
  store_loop engine_fails src (pre ++ post) n db =
  match store_loop engine_fails src pre n db with
  | Ok (k, db') => store_loop engine_fails src post k db'
  | Raise e => Raise e
  end.
Proof.
  induction pre as [|r pre IH]; intros n db; [reflexivity|].
  cbn [app]. rewrite !store_loop_cons.
  destruct (store_record_in_database engine_fails r src db) as [[? db']|];
    [apply IH | reflexivity].
Qed.

Lemma store_loop_count src rs : forall n db k db',
  store_loop engine_fails src rs n db = Ok (k, db') ->
  k = (n + length rs)%nat.
Proof.
  induction rs as [|r rs IH]; intros n db k db' H.
  - injection H as <- _. cbn [length]. lia.
  - rewrite store_loop_cons in H.
    destruct (store_record_in_database engine_fails r src db) as [[? d]|];
      [|discriminate].
    apply IH in H. cbn [length]. lia.
Qed.

(** The loop raises only where storing one of the records raises. *)
Lemma store_loop_raise_inv src rs : forall n db e,
  store_loop engine_fails src rs n db = Raise e ->
  exists pre r post mid,
    rs = pre ++ r :: post /\
    store_loop engine_fails src pre n db = Ok ((n + length pre)%nat, mid) /\
    store_record_in_database engine_fails r src mid = Raise e.
Proof.
  induction rs as [|r rs IH]; intros n db e H; [discriminate|].
  rewrite store_loop_cons in H.
  destruct (store_record_in_database engine_fails r src db) as [[i d]|e'] eqn:E.
  - apply IH in H as (pre & r' & post & mid & -> & Hpre & Hr).
    exists (r :: pre), r', post, mid. split; [reflexivity|]. split; [|exact Hr].
    rewrite store_loop_cons, E, Hpre. cbn [length]. do 2 f_equal. lia.
  - injection H as <-. exists [], r, rs, db. split; [reflexivity|].
    split; [|exact E]. cbn [store_loop length]. unfold ret.
    do 2 f_equal. lia.
Qed.

Lemma store_loop_fails src pre r post mid e db :
  store_loop engine_fails src pre 0 db = Ok (length pre, mid) ->
  store_record_in_database engine_fails r src mid = Raise e ->
  store_loop engine_fails src (pre ++ r :: post) 0 db = Raise e.
Proof.
  intros Hpre Hr. rewrite store_loop_app, Hpre, store_loop_cons, Hr.
  reflexivity.
Qed.

Lemma store_batch_commits src rs db k db' :
  store_loop engine_fails src rs 0 db = Ok (k, db') ->
  store_batch engine_fails src rs db = (Ok (length rs), db').
Proof.
  intros H. unfold store_batch, create_database. cbn [in_txn on_disk].
  rewrite H. apply store_loop_count in H. subst k. reflexivity.
Qed.

Lemma store_batch_rolls_back src rs db e :
  store_loop engine_fails src rs 0 db = Raise e ->
  store_batch engine_fails src rs db = (Raise e, db).
Proof.
  intros H. unfold store_batch, create_database. cbn [in_txn on_disk].
  rewrite H. reflexivity.
Qed.

End Batch.

(** C3. When storing one of the unique records raises, after the
    records before it went into the open transaction, nothing of the
    batch is kept: the store is the one before the call, and the caller
    gets the exception, not a report.  The same holds for
    [process_ris_file]. *)
Theorem failed_insert_rolls_back engine_fails src db rs pre r post mid e :
  rs = pre ++ r :: post ->
  store_loop engine_fails src pre 0 db = Ok (length pre, mid) ->
  store_record_in_database engine_fails r src mid = Raise e ->
  store_batch engine_fails src rs db = (Raise e, db) /\
  (forall content tm f p,
     check_duplicates db (parse_ris_content content tm) src = Ok (rs, f, p) ->
     process_uploaded_file engine_fails content src tm db = (Raise e, db)) /\
  (forall content tm,
     parse_ris_content content tm = rs ->
     process_ris_file engine_fails content src tm db = (Raise e, db)).
Proof.
  intros -> Hpre Hr.
  pose proof (store_batch_rolls_back _ _ _ _ _
                (store_loop_fails _ _ _ _ post _ _ _ Hpre Hr)) as Hb.
  split; [exact Hb|]. split.
  - intros content tm f p Hc. unfold process_uploaded_file.
    rewrite Hc, Hb. reflexivity.
  - intros content tm Hparse. unfold process_ris_file. rewrite Hparse. exact Hb.
Qed.

(** The second of three inserts is refused: the first record was in
    the open transaction, and the store ends up empty as it began. *)
Lemma failed_insert_rolls_back_witness :
  process_uploaded_file (refuse_title "Beta") three_record_content "Scopus"
    ris_mapping empty_db = (Raise OperationalError, empty_db) /\
  process_ris_file (refuse_title "Beta") three_record_content "Scopus"
    ris_mapping empty_db = (Raise OperationalError, empty_db) /\
  exists mid,
    store_loop (refuse_title "Beta") "Scopus" [bare_record "Alpha" None] 0 empty_db
    = Ok (1%nat, mid) /\
    map a_title (articles mid) = ["Alpha"].
Proof.
  pose (mid := add_article
                 {| a_id := 1; a_title := "Alpha"; a_journal_id := None;
                    a_source_id := Some 1%Z; a_year := None; a_abstract := None |}
                 (add_row Sources (1%Z, "Scopus") empty_db)).
  assert (Hpre : store_loop (refuse_title "Beta") "Scopus"
                   [bare_record "Alpha" None] 0 empty_db
                 = Ok (length [bare_record "Alpha" None], mid)) by reflexivity.
  assert (Hr : store_record_in_database (refuse_title "Beta")
                 (bare_record "Beta" None) "Scopus" mid
               = Raise OperationalError) by reflexivity.
  destruct (failed_insert_rolls_back (refuse_title "Beta") "Scopus" empty_db
              [bare_record "Alpha" None; bare_record "Beta" None;
               bare_record "Gamma" None]
              [bare_record "Alpha" None] (bare_record "Beta" None)
              [bare_record "Gamma" None] mid OperationalError
              eq_refl Hpre Hr) as (_ & Hup & Hris).
  split; [|split].
  - apply (Hup three_record_content ris_mapping [] []). reflexivity.
  - apply (Hris three_record_content ris_mapping). reflexivity.
  - exists mid. split; [exact Hpre | reflexivity].
Defined.

(** Without a refusal the same batch is stored and reported. *)
Example three_records_stored :
  let '(outcome, db) :=
    process_uploaded_file quiet_engine three_record_content "Scopus"
      ris_mapping empty_db in
  (unique_stored <$> match outcome with Ok r => Some r | Raise _ => None end)
  = Some 3%nat /\
  map a_title (articles db) = ["Alpha"; "Beta"; "Gamma"].
Proof. vm_compute. split; reflexivity. Qed.

(** ** Storing a record with a title *)

Lemma find_none_existsb {A} (f : A -> bool) (l : list A) :
  List.find f l = None -> existsb f l = false.
Proof.
  induction l as [|x l IH]; [reflexivity|]. cbn [List.find existsb].
  destruct (f x); [discriminate | exact IH].
Qed.

Lemma lookup_id_some n tbl i :
  lookup_id n tbl = Some i -> has_id i (map fst tbl) = true.
Proof.
  unfold lookup_id, has_id.
  destruct (List.find _ tbl) as [[j m]|] eqn:E; [|discriminate].
  intros [= <-]. apply find_some in E as [Hin _].
  apply existsb_exists. exists j. split; [|apply Z.eqb_refl].
  apply in_map_iff. exists (j, m). auto.
Qed.

Lemma lookup_id_none n tbl :
  lookup_id n tbl = None -> has_name n tbl = false.
Proof.
  unfold lookup_id, has_name.
  destruct (List.find _ tbl) eqn:E; [discriminate|].
  intros _. apply find_none_existsb, E.
Qed.

Lemma has_id_last i ids : has_id i (ids ++ [i]) = true.
Proof.
  unfold has_id. rewrite existsb_app. cbn [existsb].
  rewrite Z.eqb_refl, orb_true_r. reflexivity.
Qed.

Lemma has_id_app i ids more : has_id i ids = true -> has_id i (ids ++ more) = true.
Proof. unfold has_id. rewrite existsb_app. intros ->. reflexivity. Qed.

Lemma has_name_snoc n tbl i m :
  m <> n -> has_name n (tbl ++ [(i, m)]) = has_name n tbl.
Proof.
  intros H. unfold has_name. rewrite existsb_app. cbn [existsb snd].
  apply String.eqb_neq in H. rewrite H, !orb_false_r. reflexivity.
Qed.

Lemma table_of_add_row d row db :
  table_of d (add_row d row db) = table_of d db ++ [row].
Proof. destruct d; reflexivity. Qed.

Lemma table_of_add_row_other d d' row db :
  d' <> d -> table_of d' (add_row d row db) = table_of d' db.
Proof. destruct d, d'; intros H; try reflexivity; contradiction. Qed.

Lemma articles_add_row d row db : articles (add_row d row db) = articles db.
Proof. destruct d; reflexivity. Qed.

Lemma article_author_add_row d row db :
  article_author (add_row d row db) = article_author db.
Proof. destruct d; reflexivity. Qed.

Lemma article_keyword_add_row d row db :
  article_keyword (add_row d row db) = article_keyword db.
Proof. destruct d; reflexivity. Qed.

(** Blank entries take no part in the two loops. *)
Lemma store_authors_without_blanks engine_fails aid names :
  store_authors engine_fails aid names =
  store_authors engine_fails aid
    (List.filter (fun a => negb (String.eqb a "")) names).
Proof.
  induction names as [|a names IH]; [reflexivity|].
  cbn [store_authors List.filter]. destruct (String.eqb a "") eqn:E; cbn [negb].
  - exact IH.
  - cbn [store_authors]. rewrite E, IH. reflexivity.
Qed.

Lemma store_keywords_without_blanks engine_fails aid terms :
  store_keywords engine_fails aid terms =
  store_keywords engine_fails aid
    (List.filter (fun k => negb (String.eqb k "")) terms).
Proof.
  induction terms as [|k terms IH]; [reflexivity|].
  cbn [store_keywords List.filter]. destruct (String.eqb k "") eqn:E; cbn [negb].
  - exact IH.
  - cbn [store_keywords]. rewrite E, IH. reflexivity.
Qed.

Lemma store_record_without_blanks engine_fails r src db :
  store_record_in_database engine_fails r src db =
  store_record_in_database engine_fails (without_blanks r) src db.
Proof.
  unfold store_record_in_database, without_blanks, bind.
  cbn [title journal year abstract authors keywords].
  destruct (get_or_create_source engine_fails src db) as [[sid d1]|];
    [|reflexivity].
  destruct (get_or_create_journal engine_fails (journal r) d1) as [[jid d2]|];
    [|reflexivity].
  destruct (execute engine_fails _ d2) as [[aid d3]|]; [|reflexivity].
  rewrite <- store_authors_without_blanks.
  destruct (store_authors engine_fails aid (authors r) d3) as [[u d4]|];
    [|reflexivity].
  rewrite <- store_keywords_without_blanks. reflexivity.
Qed.

Lemma get_or_create_falsy engine_fails d name db :
  Py.truthy name = false -> get_or_create engine_fails d name db = Ok (None, db).
Proof. intros H. unfold get_or_create. rewrite H. reflexivity. Qed.

Lemma at_most_one_row_other d d' db db' :
  d' <> d -> at_most_one_row d db db' -> table_of d' db' = table_of d' db.
Proof.
  intros Hne [-> | (i & n & _ & ->)]; [reflexivity|].
  apply table_of_add_row_other, Hne.
Qed.

Lemma at_most_one_row_articles d db db' :
  at_most_one_row d db db' -> articles db' = articles db.
Proof. intros [-> | (i & n & _ & ->)]; [reflexivity | apply articles_add_row]. Qed.

Lemma at_most_one_row_links d db db' :
  at_most_one_row d db db' ->
  article_author db' = article_author db /\
  article_keyword db' = article_keyword db.
Proof.
  intros [-> | (i & n & _ & ->)]; [split; reflexivity|].
  split; [apply article_author_add_row | apply article_keyword_add_row].
Qed.

Lemma at_most_one_row_blank d db db' :
  at_most_one_row d db db' ->
  has_name "" (table_of d db') = has_name "" (table_of d db).
Proof.
  intros [-> | (i & n & Hn & ->)]; [reflexivity|].
  rewrite table_of_add_row. apply has_name_snoc, Hn.
Qed.

Section Quiet.

Variable engine_fails : database -> statement -> bool.
Hypothesis quiet : forall db s, engine_fails db s = false.

Lemma execute_quiet s db : execute engine_fails s db = run s db.
Proof. unfold execute. rewrite quiet. reflexivity. Qed.

(** Lookup-or-create never fails: the name is looked up before it is
    inserted, so the [UNIQUE] constraint holds. *)
Lemma get_or_create_quiet d name db :
  exists o db',
    get_or_create engine_fails d name db = Ok (o, db') /\
    fk_ok o (map fst (table_of d db')) = true /\
    at_most_one_row d db db' /\
    (Py.truthy name = false -> o = None /\ db' = db) /\
    (Py.truthy name = true -> is_Some o).
Proof.
  destruct (Py.truthy name) eqn:Ht.
  - apply truthy_Some in Ht as (n & -> & Hn).
    unfold get_or_create. cbn [Py.truthy].
    change (default "" (Some n)) with n.
    apply eqb_empty_false in Hn as Hn'. rewrite Hn'. cbn [negb].
    unfold bind. rewrite execute_quiet. cbn [run].
    destruct (lookup_id n (table_of d db)) as [i|] eqn:E.
    + exists (Some i), db. split; [reflexivity|].
      split; [apply (lookup_id_some _ _ _ E)|].
      split; [left; reflexivity|]. split; [discriminate | eauto].
    + rewrite execute_quiet. cbn [run].
      rewrite (lookup_id_none _ _ E).
      eexists (Some _), _. split; [reflexivity|]. split.
      * cbn [fk_ok]. rewrite table_of_add_row, map_app. apply has_id_last.
      * split; [right; eauto|]. split; [discriminate | eauto].
  - exists None, db. split; [apply get_or_create_falsy, Ht|].
    split; [reflexivity|]. split; [left; reflexivity|].
    split; [auto | discriminate].
Qed.

Lemma run_link_authors aid i db :
  has_id aid (map a_id (articles db)) = true ->
  has_id i (map fst (db_authors db)) = true ->
  exists db',
    execute engine_fails (InsertArticleAuthor (Some aid) (Some i)) db
    = Ok (None, db') /\
    (db' = db \/ db' = add_article_author (aid, i) db).
Proof.
  intros Ha Hi. rewrite execute_quiet. cbn [run]. unfold run_link.
  destruct (has_pair _ _); [eauto|]. rewrite Ha, Hi. cbn [andb]. eauto.
Qed.

Lemma run_link_keywords aid i db :
  has_id aid (map a_id (articles db)) = true ->
  has_id i (map fst (db_keywords db)) = true ->
  exists db',
    execute engine_fails (InsertArticleKeyword (Some aid) (Some i)) db
    = Ok (None, db') /\
    (db' = db \/ db' = add_article_keyword (aid, i) db).
Proof.
  intros Ha Hi. rewrite execute_quiet. cbn [run]. unfold run_link.
  destruct (has_pair _ _); [eauto|]. rewrite Ha, Hi. cbn [andb]. eauto.
Qed.

Lemma store_authors_quiet aid names : forall db,
  has_id aid (map a_id (articles db)) = true ->
  exists db',
    store_authors engine_fails (Some aid) names db = Ok (tt, db') /\
    authors_frame db db'.
Proof.
  induction names as [|a names IH]; intros db Haid.
  - exists db. split; [reflexivity|]. repeat split.
  - cbn [store_authors]. destruct (String.eqb a "") eqn:Ea; [apply IH, Haid|].
    destruct (get_or_create_quiet Authors (Some a) db)
      as (o & d1 & Hg & Hfk & Hrow & _ & Hsome).
    destruct Hsome as [i ->]; [cbn [Py.truthy]; rewrite Ea; reflexivity|].
    cbn [fk_ok table_of] in Hfk.
    pose proof (at_most_one_row_articles _ _ _ Hrow) as Harts.
    destruct (run_link_authors aid i d1) as (d2 & Hl & Hd2);
      [rewrite Harts; exact Haid | exact Hfk |].
    assert (Harts2 : articles d2 = articles d1)
      by (destruct Hd2 as [-> | ->]; reflexivity).
    destruct (IH d2) as (d3 & Hrest & Hframe);
      [rewrite Harts2, Harts; exact Haid|].
    exists d3. split.
    + unfold get_or_create_author. rewrite (bind_ok _ _ _ _ _ Hg).
      rewrite (bind_ok _ _ _ _ _ Hl). exact Hrest.
    + destruct Hframe as (F1 & F2 & F3 & F4 & F5 & F6).
      pose proof (at_most_one_row_links _ _ _ Hrow) as [_ Hak].
      pose proof (at_most_one_row_blank _ _ _ Hrow) as Hblank.
      cbn [table_of] in Hblank.
      pose proof (at_most_one_row_other Authors Sources _ _ ltac:(discriminate) Hrow) as Hs.
      pose proof (at_most_one_row_other Authors Journals _ _ ltac:(discriminate) Hrow) as Hj.
      pose proof (at_most_one_row_other Authors Keywords _ _ ltac:(discriminate) Hrow) as Hk.
      cbn [table_of] in Hs, Hj, Hk.
      assert (Hsame : sources d2 = sources d1 /\ journals d2 = journals d1 /\
                      db_keywords d2 = db_keywords d1 /\
                      article_keyword d2 = article_keyword d1 /\
                      db_authors d2 = db_authors d1)
        by (destruct Hd2 as [-> | ->]; repeat split).
      destruct Hsame as (S1 & S2 & S3 & S4 & S5).
      unfold authors_frame. rewrite F1, F2, F3, F4, F5, F6.
      rewrite Harts2, Harts, S1, S2, S3, S4, S5, Hs, Hj, Hk, Hak, Hblank.
      repeat split.
Qed.

Lemma store_keywords_quiet aid terms : forall db,
  has_id aid (map a_id (articles db)) = true ->
  exists db',
    store_keywords engine_fails (Some aid) terms db = Ok (tt, db') /\
    keywords_frame db db'.
Proof.
  induction terms as [|k terms IH]; intros db Haid.
  - exists db. split; [reflexivity|]. repeat split.
  - cbn [store_keywords]. destruct (String.eqb k "") eqn:Ek; [apply IH, Haid|].
    destruct (get_or_create_quiet Keywords (Some k) db)
      as (o & d1 & Hg & Hfk & Hrow & _ & Hsome).
    destruct Hsome as [i ->]; [cbn [Py.truthy]; rewrite Ek; reflexivity|].
    cbn [fk_ok table_of] in Hfk.
    pose proof (at_most_one_row_articles _ _ _ Hrow) as Harts.
    destruct (run_link_keywords aid i d1) as (d2 & Hl & Hd2);
      [rewrite Harts; exact Haid | exact Hfk |].
    assert (Harts2 : articles d2 = articles d1)
      by (destruct Hd2 as [-> | ->]; reflexivity).
    destruct (IH d2) as (d3 & Hrest & Hframe);
      [rewrite Harts2, Harts; exact Haid|].
    exists d3. split.
    + unfold get_or_create_keyword. rewrite (bind_ok _ _ _ _ _ Hg).
      rewrite (bind_ok _ _ _ _ _ Hl). exact Hrest.
    + destruct Hframe as (F1 & F2 & F3 & F4 & F5 & F6).
      pose proof (at_most_one_row_links _ _ _ Hrow) as [Haa _].
      pose proof (at_most_one_row_blank _ _ _ Hrow) as Hblank.
      cbn [table_of] in Hblank.
      pose proof (at_most_one_row_other Keywords Sources _ _ ltac:(discriminate) Hrow) as Hs.
      pose proof (at_most_one_row_other Keywords Journals _ _ ltac:(discriminate) Hrow) as Hj.
      pose proof (at_most_one_row_other Keywords Authors _ _ ltac:(discriminate) Hrow) as Ha.
      cbn [table_of] in Hs, Hj, Ha.
      assert (Hsame : sources d2 = sources d1 /\ journals d2 = journals d1 /\
                      db_authors d2 = db_authors d1 /\
                      article_author d2 = article_author d1 /\
                      db_keywords d2 = db_keywords d1)
        by (destruct Hd2 as [-> | ->]; repeat split).
      destruct Hsame as (S1 & S2 & S3 & S4 & S5).
      unfold keywords_frame. rewrite F1, F2, F3, F4, F5, F6.
      rewrite Harts2, Harts, S1, S2, S3, S4, S5, Hs, Hj, Ha, Haa, Hblank.
      repeat split.
Qed.

End Quiet.

(** C10. With an engine that refuses nothing, storing a record that has
    a title succeeds whatever its other fields hold.  One article row
    is added, with the record's year and abstract as they are (null
    when absent); an absent or empty journal name gives a null journal
    identifier and leaves the journal table alone; and the empty
    entries of the author and keyword sequences are passed over: the
    outcome is that of the record without them, and no empty name
    enters either table. *)
Theorem store_titled_record_succeeds engine_fails r src db t :
  (forall d s, engine_fails d s = false) ->
  title r = Some t ->
  exists article_id jid sid db',
    store_record_in_database engine_fails r src db = Ok (Some article_id, db') /\
    articles db' =
      articles db ++ [{| a_id := article_id; a_title := t; a_journal_id := jid;
                         a_source_id := sid; a_year := year r;
                         a_abstract := abstract r |}] /\
    (Py.truthy (journal r) = false -> jid = None /\ journals db' = journals db) /\
    store_record_in_database engine_fails (without_blanks r) src db
    = Ok (Some article_id, db') /\
    has_name "" (db_authors db') = has_name "" (db_authors db) /\
    has_name "" (db_keywords db') = has_name "" (db_keywords db).
Proof.
  intros quiet Ht.
  destruct (get_or_create_quiet engine_fails quiet Sources (Some src) db)
    as (sid & d1 & Hsrc & Hsfk & Hsrow & _ & _).
  destruct (get_or_create_quiet engine_fails quiet Journals (journal r) d1)
    as (jid & d2 & Hjrn & Hjfk & Hjrow & Hjnone & _).
  cbn [table_of] in Hsfk, Hjfk.
  pose proof (at_most_one_row_other Journals Sources _ _ ltac:(discriminate) Hjrow) as Hs2.
  cbn [table_of] in Hs2.
  set (aid := next_rowid (map a_id (articles d2))).
  set (row := {| a_id := aid; a_title := t; a_journal_id := jid;
                 a_source_id := sid; a_year := year r;
                 a_abstract := abstract r |}).
  assert (Hins : execute engine_fails
                   (InsertArticle (title r) jid sid (year r) (abstract r)) d2
                 = Ok (Some aid, add_article row d2)).
  { rewrite (execute_quiet _ quiet). cbn [run]. rewrite Ht, Hjfk, Hs2, Hsfk.
    reflexivity. }
  assert (Haid : has_id aid (map a_id (articles (add_article row d2))) = true).
  { cbn [add_article articles]. rewrite map_app. apply has_id_last. }
  destruct (store_authors_quiet engine_fails quiet aid (authors r) _ Haid)
    as (d4 & Hau & A1 & A2 & A3 & A4 & A5 & A6).
  destruct (store_keywords_quiet engine_fails quiet aid (keywords r) d4)
    as (d5 & Hkw & K1 & K2 & K3 & K4 & K5 & K6); [rewrite A1; exact Haid|].
  assert (Hstore : store_record_in_database engine_fails r src db
                   = Ok (Some aid, d5)).
  { unfold store_record_in_database, get_or_create_source, get_or_create_journal.
    rewrite (bind_ok _ _ _ _ _ Hsrc), (bind_ok _ _ _ _ _ Hjrn).
    rewrite (bind_ok _ _ _ _ _ Hins), (bind_ok _ _ _ _ _ Hau).
    rewrite (bind_ok _ _ _ _ _ Hkw). reflexivity. }
  pose proof (at_most_one_row_articles _ _ _ Hsrow) as Ha1.
  pose proof (at_most_one_row_articles _ _ _ Hjrow) as Ha2.
  exists aid, jid, sid, d5. split; [exact Hstore|]. split; [|split; [|split; [|split]]].
  - rewrite K1, A1. cbn [add_article articles]. rewrite Ha2, Ha1. reflexivity.
  - intros Hj. destruct (Hjnone Hj) as [-> ->]. split; [reflexivity|].
    rewrite K3, A3. cbn [add_article journals].
    exact (at_most_one_row_other Sources Journals _ _ ltac:(discriminate) Hsrow).
  - rewrite <- store_record_without_blanks. exact Hstore.
  - rewrite K4, A6. cbn [add_article db_authors].
    pose proof (at_most_one_row_other Journals Authors _ _ ltac:(discriminate) Hjrow) as E2.
    pose proof (at_most_one_row_other Sources Authors _ _ ltac:(discriminate) Hsrow) as E1.
    cbn [table_of] in E1, E2. rewrite E2, E1. reflexivity.
  - rewrite K6, A4. cbn [add_article db_keywords].
    pose proof (at_most_one_row_other Journals Keywords _ _ ltac:(discriminate) Hjrow) as E2.
    pose proof (at_most_one_row_other Sources Keywords _ _ ltac:(discriminate) Hsrow) as E1.
    cbn [table_of] in E1, E2. rewrite E2, E1. reflexivity.
Qed.

Example sparse_record_stored :
  store_record_in_database quiet_engine sparse_record "Scopus" empty_db =
  Ok (Some 1%Z,
      {| sources := [(1%Z, "Scopus")];
         articles := [{| a_id := 1; a_title := "Alpha"; a_journal_id := None;
                         a_source_id := Some 1%Z; a_year := None;
                         a_abstract := None |}];
         db_authors := [(1%Z, "Doe, A.")]; journals := []; db_keywords := [];
         article_author := [(1%Z, 1%Z)]; article_keyword := [] |}).
Proof. vm_compute. reflexivity. Qed.

Lemma store_titled_record_succeeds_witness :
  (forall d s, quiet_engine d s = false) /\
  title sparse_record = Some "Alpha" /\
  exists article_id db',
    store_record_in_database quiet_engine sparse_record "Scopus" empty_db
    = Ok (Some article_id, db') /\
    journals db' = [].
Proof.
  assert (Hq : forall d s, quiet_engine d s = false) by reflexivity.
  split; [exact Hq|]. split; [reflexivity|].
  destruct (store_titled_record_succeeds quiet_engine sparse_record "Scopus"
              empty_db "Alpha" Hq eq_refl)
    as (article_id & jid & sid & db' & Hstore & _ & Hj & _).
  exists article_id, db'. split; [exact Hstore|].
  apply (Hj eq_refl).
Defined.
(** * What an ingestion adds to the store, whatever the engine refuses *)

Lemma execute_ok engine_fails s db o db' :
  execute engine_fails s db = Ok (o, db') -> run s db = Ok (o, db').
Proof. unfold execute. destruct (engine_fails db s); [discriminate | auto]. Qed.

Lemma bind_inv {A B} (m : M A) (k : A -> M B) db b db' :
  bind m k db = Ok (b, db') ->
  exists a d, m db = Ok (a, d) /\ k a d = Ok (b, db').
Proof. unfold bind. destruct (m db) as [[a d]|]; [eauto | discriminate]. Qed.

Lemma lookup_id_elem n tbl i : lookup_id n tbl = Some i -> (i, n) ∈ tbl.
Proof.
  unfold lookup_id. destruct (List.find _ tbl) as [[j m]|] eqn:E; [|discriminate].
  intros [= <-]. apply find_some in E as [Hin Heq]. cbn [snd] in Heq.
  apply String.eqb_eq in Heq as ->. apply list_elem_of_In, Hin.
Qed.

Lemma has_pair_elem a b tbl : has_pair (a, b) tbl = true -> (a, b) ∈ tbl.
Proof.
  unfold has_pair. intros H. apply existsb_exists in H as ([x y] & Hin & Heq).
  cbn [fst snd] in Heq. apply andb_true_iff in Heq as [H1 H2].
  apply Z.eqb_eq in H1, H2. subst. apply list_elem_of_In, Hin.
Qed.

Lemma get_or_create_ok engine_fails d name db o db' :
  get_or_create engine_fails d name db = Ok (o, db') ->
  at_most_one_row d db db' /\
  fk_ok o (map fst (table_of d db')) = true /\
  (forall n, name = Some n -> n <> "" ->
     exists i, o = Some i /\ (i, n) ∈ table_of d db').
Proof.
  unfold get_or_create. destruct (Py.truthy name) eqn:Ht.
  - apply truthy_Some in Ht as (n & -> & Hn). change (default "" (Some n)) with n.
    intros H. apply bind_inv in H as (found & d1 & Hsel & H).
    apply execute_ok in Hsel. cbn [run] in Hsel. injection Hsel as <- <-.
    destruct (lookup_id n (table_of d db)) as [i|] eqn:E.
    + injection H as <- <-. split; [left; reflexivity|].
      split; [apply (lookup_id_some _ _ _ E)|].
      intros n' [= <-] _. exists i. split; [reflexivity | apply lookup_id_elem, E].
    + apply execute_ok in H. cbn [run] in H.
      destruct (has_name n (table_of d db)); [discriminate|].
      injection H as <- <-. split; [right; eauto|]. split.
      * cbn [fk_ok]. rewrite table_of_add_row, map_app. apply has_id_last.
      * intros n' [= <-] _. eexists. split; [reflexivity|].
        rewrite table_of_add_row. apply elem_of_app. right. left.
  - intros [= <- <-]. split; [left; reflexivity|]. split; [reflexivity|].
    intros n -> Hn. cbn [Py.truthy] in Ht. apply negb_false_iff in Ht.
    apply String.eqb_eq in Ht. contradiction.
Qed.

Lemma run_link_ok l r lids rids tbl add db o db' :
  run_link l r lids rids tbl add db = Ok (o, db') ->
  db' = db \/
  exists a b, l = Some a /\ r = Some b /\ db' = add (a, b) db.
Proof.
  unfold run_link. destruct l as [a|], r as [b|]; try (intros [= <- <-]; auto).
  destruct (has_pair _ _); [intros [= <- <-]; auto|].
  destruct (has_id a lids && has_id b rids); [|discriminate].
  intros [= <- <-]. right. eauto.
Qed.

Lemma run_link_linked a b lids rids tbl add db o db' :
  run_link (Some a) (Some b) lids rids tbl add db = Ok (o, db') ->
  (db' = db /\ (a, b) ∈ tbl) \/ db' = add (a, b) db.
Proof.
  unfold run_link. destruct (has_pair _ _) eqn:E.
  - intros [= <- <-]. left. split; [reflexivity | apply has_pair_elem, E].
  - destruct (has_id a lids && has_id b rids); [|discriminate].
    intros [= <- <-]. right. reflexivity.
Qed.

Lemma authors_frame_refl db : authors_frame db db.
Proof. repeat split. Qed.

Lemma authors_frame_trans a b c :
  authors_frame a b -> authors_frame b c -> authors_frame a c.
Proof.
  intros (A1 & A2 & A3 & A4 & A5 & A6) (B1 & B2 & B3 & B4 & B5 & B6).
  unfold authors_frame. rewrite B1, B2, B3, B4, B5, B6. auto 10.
Qed.

Lemma keywords_frame_refl db : keywords_frame db db.
Proof. repeat split. Qed.

Lemma keywords_frame_trans a b c :
  keywords_frame a b -> keywords_frame b c -> keywords_frame a c.
Proof.
  intros (A1 & A2 & A3 & A4 & A5 & A6) (B1 & B2 & B3 & B4 & B5 & B6).
  unfold keywords_frame. rewrite B1, B2, B3, B4, B5, B6. auto 10.
Qed.

Lemma authors_frame_row db db' :
  at_most_one_row Authors db db' -> authors_frame db db'.
Proof.
  intros H. pose proof (at_most_one_row_blank _ _ _ H) as Hb.
  destruct H as [-> | (i & n & Hn & ->)]; [apply authors_frame_refl|].
  cbn [table_of] in Hb. repeat split. exact Hb.
Qed.

Lemma keywords_frame_row db db' :
  at_most_one_row Keywords db db' -> keywords_frame db db'.
Proof.
  intros H. pose proof (at_most_one_row_blank _ _ _ H) as Hb.
  destruct H as [-> | (i & n & Hn & ->)]; [apply keywords_frame_refl|].
  cbn [table_of] in Hb. repeat split. exact Hb.
Qed.

Lemma at_most_one_row_grows d db db' x :
  at_most_one_row d db db' -> x ∈ table_of d db -> x ∈ table_of d db'.
Proof.
  intros [-> | (i & n & _ & ->)] Hx; [exact Hx|].
  rewrite table_of_add_row. apply elem_of_app. left. exact Hx.
Qed.

(** The author loop, when it ends: what it leaves alone, that it only
    adds, and that every name it was given is in the author table and
    linked to the article. *)
Lemma store_authors_ok engine_fails aid names : forall db db',
  store_authors engine_fails (Some aid) names db = Ok (tt, db') ->
  authors_frame db db' /\
  (forall x, x ∈ db_authors db -> x ∈ db_authors db') /\
  (forall p, p ∈ article_author db -> p ∈ article_author db') /\
  (forall a, a ∈ names -> a <> "" ->
     exists i, (i, a) ∈ db_authors db' /\ (aid, i) ∈ article_author db').
Proof.
  induction names as [|a names IH]; intros db db' H.
  - injection H as <-. split; [apply authors_frame_refl|].
    split; [auto|]. split; [auto|]. intros a Ha. inversion Ha.
  - cbn [store_authors] in H. destruct (String.eqb a "") eqn:Ea.
    + apply IH in H as (F & G1 & G2 & L).
      split; [exact F|]. split; [exact G1|]. split; [exact G2|].
      intros b Hb Hne. apply elem_of_cons in Hb as [-> | Hb]; [|auto].
      apply String.eqb_eq in Ea. contradiction.
    + apply bind_inv in H as (o & d1 & Hg & H).
      apply bind_inv in H as (u & d2 & Hl & H).
      apply get_or_create_ok in Hg as (Hrow & _ & Hname).
      apply String.eqb_neq in Ea.
      destruct (Hname a eq_refl Ea) as (i & -> & Hi). cbn [table_of] in Hi.
      apply execute_ok in Hl. cbn [run] in Hl. apply run_link_linked in Hl.
      apply IH in H as (F & G1 & G2 & L).
      assert (F12 : authors_frame d1 d2 /\ db_authors d2 = db_authors d1 /\
                    (forall p, p ∈ article_author d1 -> p ∈ article_author d2) /\
                    (aid, i) ∈ article_author d2).
      { destruct Hl as [[-> Hin] | ->].
        - split; [apply authors_frame_refl|]. auto.
        - split; [repeat split|]. split; [reflexivity|].
          cbn [add_article_author article_author].
          split; [intros p Hp|]; apply elem_of_app; [left; exact Hp | right; left]. }
      destruct F12 as (F12 & Hsame & G12 & Hlinked).
      pose proof (at_most_one_row_links _ _ _ Hrow) as [Haa _].
      split; [|split; [|split]].
      * eapply authors_frame_trans; [apply authors_frame_row, Hrow|].
        eapply authors_frame_trans; [exact F12 | exact F].
      * intros x Hx. apply G1. rewrite Hsame.
        apply (at_most_one_row_grows Authors _ _ _ Hrow Hx).
      * intros p Hp. apply G2, G12. rewrite Haa. exact Hp.
      * intros b Hb Hne. apply elem_of_cons in Hb as [-> | Hb]; [|auto].
        exists i. split; [apply G1; rewrite Hsame; exact Hi | apply G2, Hlinked].
Qed.

Lemma store_keywords_ok engine_fails aid terms : forall db db',
  store_keywords engine_fails (Some aid) terms db = Ok (tt, db') ->
  keywords_frame db db' /\
  (forall x, x ∈ db_keywords db -> x ∈ db_keywords db') /\
  (forall p, p ∈ article_keyword db -> p ∈ article_keyword db') /\
  (forall k, k ∈ terms -> k <> "" ->
     exists i, (i, k) ∈ db_keywords db' /\ (aid, i) ∈ article_keyword db').
Proof.
  induction terms as [|a terms IH]; intros db db' H.
  - injection H as <-. split; [apply keywords_frame_refl|].
    split; [auto|]. split; [auto|]. intros a Ha. inversion Ha.
  - cbn [store_keywords] in H. destruct (String.eqb a "") eqn:Ea.
    + apply IH in H as (F & G1 & G2 & L).
      split; [exact F|]. split; [exact G1|]. split; [exact G2|].
      intros b Hb Hne. apply elem_of_cons in Hb as [-> | Hb]; [|auto].
      apply String.eqb_eq in Ea. contradiction.
    + apply bind_inv in H as (o & d1 & Hg & H).
      apply bind_inv in H as (u & d2 & Hl & H).
      apply get_or_create_ok in Hg as (Hrow & _ & Hname).
      apply String.eqb_neq in Ea.
      destruct (Hname a eq_refl Ea) as (i & -> & Hi). cbn [table_of] in Hi.
      apply execute_ok in Hl. cbn [run] in Hl. apply run_link_linked in Hl.
      apply IH in H as (F & G1 & G2 & L).
      assert (F12 : keywords_frame d1 d2 /\ db_keywords d2 = db_keywords d1 /\
                    (forall p, p ∈ article_keyword d1 -> p ∈ article_keyword d2) /\
                    (aid, i) ∈ article_keyword d2).
      { destruct Hl as [[-> Hin] | ->].
        - split; [apply keywords_frame_refl|]. auto.
        - split; [repeat split|]. split; [reflexivity|].
          cbn [add_article_keyword article_keyword].
          split; [intros p Hp|]; apply elem_of_app; [left; exact Hp | right; left]. }
      destruct F12 as (F12 & Hsame & G12 & Hlinked).
      pose proof (at_most_one_row_links _ _ _ Hrow) as [_ Hak].
      split; [|split; [|split]].
      * eapply keywords_frame_trans; [apply keywords_frame_row, Hrow|].
        eapply keywords_frame_trans; [exact F12 | exact F].
      * intros x Hx. apply G1. rewrite Hsame.
        apply (at_most_one_row_grows Keywords _ _ _ Hrow Hx).
      * intros p Hp. apply G2, G12. rewrite Hak. exact Hp.
      * intros b Hb Hne. apply elem_of_cons in Hb as [-> | Hb]; [|auto].
        exists i. split; [apply G1; rewrite Hsame; exact Hi | apply G2, Hlinked].
Qed.

(** The whole of [store_record_in_database], when it returns: the
    record had a title, one article row was appended under a fresh
    identifier, and that is the identifier returned. *)
Lemma store_record_ok engine_fails r src db o db' :
  store_record_in_database engine_fails r src db = Ok (o, db') ->
  exists t jid sid,
    title r = Some t /\
    o = Some (next_rowid (map a_id (articles db))) /\
    articles db' =
      articles db ++ [{| a_id := next_rowid (map a_id (articles db));
                         a_title := t; a_journal_id := jid; a_source_id := sid;
                         a_year := year r; a_abstract := abstract r |}] /\
    (src <> "" -> exists i, sid = Some i /\ (i, src) ∈ sources db') /\
    (forall j, journal r = Some j -> j <> "" ->
       exists i, jid = Some i /\ (i, j) ∈ journals db') /\
    (forall a, a ∈ authors r -> a <> "" ->
       exists i, (i, a) ∈ db_authors db' /\
                 (next_rowid (map a_id (articles db)), i) ∈ article_author db') /\
    (forall k, k ∈ keywords r -> k <> "" ->
       exists i, (i, k) ∈ db_keywords db' /\
                 (next_rowid (map a_id (articles db)), i) ∈ article_keyword db').
Proof.
  unfold store_record_in_database, get_or_create_source, get_or_create_journal.
  intros H.
  apply bind_inv in H as (sid & d1 & Hsrc & H).
  apply bind_inv in H as (jid & d2 & Hjrn & H).
  apply bind_inv in H as (aid & d3 & Hins & H).
  apply bind_inv in H as (u & d4 & Hau & H).
  apply bind_inv in H as (v & d5 & Hkw & H).
  injection H as <- <-.
  apply get_or_create_ok in Hsrc as (Hsrow & _ & Hsname).
  apply get_or_create_ok in Hjrn as (Hjrow & _ & Hjname).
  apply execute_ok in Hins. cbn [run] in Hins.
  destruct (title r) as [t|] eqn:Ht; [|discriminate].
  destruct (fk_ok jid _ && fk_ok sid _); [|discriminate].
  injection Hins as <- <-. destruct u, v.
  pose proof (at_most_one_row_articles _ _ _ Hsrow) as Ha1.
  pose proof (at_most_one_row_articles _ _ _ Hjrow) as Ha2.
  rewrite Ha2, Ha1 in Hau, Hkw |- *.
  apply store_authors_ok in Hau as ((A1 & A2 & A3 & A4 & A5 & A6) & _ & _ & Hlinka).
  apply store_keywords_ok in Hkw as ((K1 & K2 & K3 & K4 & K5 & K6) & _ & _ & Hlinkk).
  exists t, jid, sid. split; [reflexivity|]. split; [reflexivity|].
  split; [|split; [|split; [|split]]].
  - rewrite K1, A1. cbn [add_article articles]. rewrite Ha2, Ha1. reflexivity.
  - intros Hne. destruct (Hsname src eq_refl Hne) as (i & -> & Hi).
    exists i. split; [reflexivity|]. rewrite K2, A2. cbn [add_article sources].
    pose proof (at_most_one_row_other Journals Sources _ _ ltac:(discriminate) Hjrow) as E.
    cbn [table_of] in E, Hi. rewrite E. exact Hi.
  - intros j Hj Hne. destruct (Hjname j Hj Hne) as (i & -> & Hi).
    exists i. split; [reflexivity|]. rewrite K3, A3. exact Hi.
  - intros a Ha Hne. destruct (Hlinka a Ha Hne) as (i & H1 & H2).
    exists i. rewrite K4, K5. auto.
  - exact Hlinkk.
Qed.

(** The rows a batch appends: one per record, in order, with the
    record's title, year and abstract. *)
Lemma store_loop_ok engine_fails src rs : forall n db k db',
  store_loop engine_fails src rs n db = Ok (k, db') ->
  exists rows,
    articles db' = articles db ++ rows /\
    Forall2 (fun r row => title r = Some (a_title row) /\
                          a_year row = year r /\ a_abstract row = abstract r)
            rs rows.
Proof.
  induction rs as [|r rs IH]; intros n db k db' H.
  - cbn [store_loop] in H. unfold ret in H. injection H as _ <-.
    exists []. rewrite app_nil_r. split; [reflexivity | constructor].
  - rewrite store_loop_cons in H.
    destruct (store_record_in_database engine_fails r src db) as [[o d]|] eqn:E;
      [|discriminate].
    apply store_record_ok in E as (t & jid & sid & Ht & _ & Harts & _).
    apply IH in H as (rows & Hrows & Hall).
    eexists (_ :: rows). split.
    + rewrite Hrows, Harts, <- app_assoc. reflexivity.
    + constructor; [|exact Hall]. cbn [a_title a_year a_abstract]. auto.
Qed.

Lemma store_batch_ok engine_fails src rs db k db' :
  store_batch engine_fails src rs db = (Ok k, db') ->
  store_loop engine_fails src rs 0 db = Ok (length rs, db').
Proof.
  unfold store_batch, create_database. cbn [in_txn on_disk].
  destruct (store_loop engine_fails src rs 0 db) as [[n d]|e] eqn:E;
    [|discriminate].
  intros [= <- <-]. apply store_loop_count in E as ->. reflexivity.
Qed.

Lemma process_uploaded_file_ok engine_fails content src tm db rep db' :
  process_uploaded_file engine_fails content src tm db = (Ok rep, db') ->
  let records := parse_ris_content content tm in
  store_loop engine_fails src (with_verdict db Unique records) 0 db
  = Ok (length (with_verdict db Unique records), db') /\
  rep = {| total_records := length records;
           unique_stored := length (with_verdict db Unique records);
           full_duplicates_found :=
             length (with_verdict db FullDuplicate records);
           partial_duplicates_found :=
             length (with_verdict db PartialDuplicate records);
           full_duplicates_info :=
             map (evidence db src) (with_verdict db FullDuplicate records);
           partial_duplicates_info :=
             map (evidence db src) (with_verdict db PartialDuplicate records);
           tag_mapping_used := tm |}.
Proof.
  unfold process_uploaded_file. rewrite parsed_records_classified.
  destruct (store_batch _ _ _ _) as [[k|e] d] eqn:E; [|discriminate].
  intros [= <- <-]. pose proof (store_batch_ok _ _ _ _ _ _ E) as Hloop.
  split; [exact Hloop|].
  unfold store_batch, create_database in E. cbn [in_txn on_disk] in E.
  rewrite Hloop in E. injection E as <-. rewrite !length_map. reflexivity.
Qed.

(** X5. The figures of a report add up: the records parsed are the
    records stored plus the full duplicates plus the partial
    duplicates, the two duplicate counts are the lengths of the two
    lists reported, and the article table has grown by exactly the
    number of records reported as stored. *)
Theorem report_counts_add_up engine_fails content src tm db rep db' :
  process_uploaded_file engine_fails content src tm db = (Ok rep, db') ->
  total_records rep
  = (unique_stored rep + full_duplicates_found rep
     + partial_duplicates_found rep)%nat /\
  full_duplicates_found rep = length (full_duplicates_info rep) /\
  partial_duplicates_found rep = length (partial_duplicates_info rep) /\
  length (articles db') = (length (articles db) + unique_stored rep)%nat.
Proof.
  intros H. apply process_uploaded_file_ok in H as [Hloop ->].
  cbn [total_records unique_stored full_duplicates_found
       partial_duplicates_found full_duplicates_info partial_duplicates_info].
  rewrite !length_map. split; [symmetry; apply with_verdict_lengths|].
  split; [reflexivity|]. split; [reflexivity|].
  apply store_loop_ok in Hloop as (rows & -> & Hall).
  rewrite length_app. f_equal. symmetry. apply (Forall2_length _ _ _ Hall).
Qed.








Lemma report_counts_add_up_witness :
  exists rep,
    process_uploaded_file quiet_engine three_record_content "Scopus"
      ris_mapping empty_db = (Ok rep, three_record_store) /\
    total_records rep
    = (unique_stored rep + full_duplicates_found rep
       + partial_duplicates_found rep)%nat /\
    length (articles three_record_store) = 3%nat.
Proof.
  eassert (H : process_uploaded_file quiet_engine three_record_content "Scopus"
                 ris_mapping empty_db = (Ok _, three_record_store))
    by (vm_compute; reflexivity).
  eexists. split; [exact H|].
  destruct (report_counts_add_up _ _ _ _ _ _ _ H) as (H1 & _ & _ & H4).
  split; [exact H1|]. rewrite H4. reflexivity.
Defined.

Lemma fold_max_ge (i : Z) rest x :
  x ∈ i :: rest -> (x <= fold_right Z.max i rest)%Z.
Proof.
  induction rest as [|y rest IH]; intros Hx; cbn [fold_right].
  - apply list_elem_of_singleton in Hx as ->. lia.
  - apply elem_of_cons in Hx as [-> | Hx].
    + assert (i ∈ i :: rest) as Hi by left. apply IH in Hi. lia.
    + apply elem_of_cons in Hx as [-> | Hx]; [lia|].
      assert (x ∈ i :: rest) as Hi by (right; exact Hx). apply IH in Hi. lia.
Qed.

Lemma next_rowid_fresh ids : next_rowid ids ∉ ids.
Proof.
  destruct ids as [|i rest]; [apply not_elem_of_nil|].
  intros H. apply fold_max_ge in H. cbn [next_rowid] in H. lia.
Qed.

(** X7. What a successful [store_record_in_database] leaves behind: the
    identifier it returns was not in use, exactly one article row is
    appended under it with the record's title, year and abstract, that
    row points to a source row named as the source label and to a
    journal row named as the record's journal (when these are not
    empty), and every non-empty author and keyword of the record is in
    its table and linked to the new article. *)
Theorem stored_record_is_found engine_fails r src db o db' :
  store_record_in_database engine_fails r src db = Ok (o, db') ->
  exists id row,
    o = Some id /\ (id ∉ map a_id (articles db)) /\
    articles db' = articles db ++ [row] /\
    a_id row = id /\ title r = Some (a_title row) /\
    a_year row = year r /\ a_abstract row = abstract r /\
    (src <> "" -> exists i, a_source_id row = Some i /\ (i, src) ∈ sources db') /\
    (forall j, journal r = Some j -> j <> "" ->
       exists i, a_journal_id row = Some i /\ (i, j) ∈ journals db') /\
    (forall a, a ∈ authors r -> a <> "" ->
       exists i, (i, a) ∈ db_authors db' /\ (id, i) ∈ article_author db') /\
    (forall k, k ∈ keywords r -> k <> "" ->
       exists i, (i, k) ∈ db_keywords db' /\ (id, i) ∈ article_keyword db').
Proof.
  intros H.
  apply store_record_ok in H as (t & jid & sid & Ht & -> & Ha & Hs & Hj & Hau & Hkw).
  eexists _, _. split; [reflexivity|]. split; [apply next_rowid_fresh|].
  split; [exact Ha|]. cbn [a_id a_title a_year a_abstract a_source_id a_journal_id].
  auto 10.
Qed.

Lemma stored_record_is_found_witness :
  exists id db',
    store_record_in_database quiet_engine full_record "Scopus" empty_db
    = Ok (Some id, db') /\
    exists i, (i, "Roe, B.") ∈ db_authors db' /\ (id, i) ∈ article_author db'.
Proof.
  destruct (store_record_in_database quiet_engine full_record "Scopus" empty_db)
    as [[o db']|e] eqn:E; [|vm_compute in E; discriminate E].
  destruct (stored_record_is_found _ _ _ _ _ _ E)
    as (id & row & -> & _ & _ & _ & _ & _ & _ & _ & _ & Hau & _).
  exists id, db'. split; [reflexivity|].
  apply (Hau "Roe, B."); [do 2 right; left | discriminate].
Defined.

Lemma find_app_none {A} (f : A -> bool) l x :
  List.find f l = None -> f x = true -> List.find f (l ++ [x]) = Some x.
Proof.
  induction l as [|y l IH]; cbn [app List.find]; intros Hn Hx.
  - rewrite Hx. reflexivity.
  - destruct (f y); [discriminate | auto].
Qed.

(** X8. Lookup-or-create is idempotent, for the four dimension tables
    alike: once a call for a name has returned, a second call for the
    same name (its lookup being answered) returns the same identifier
    and adds no row. *)
Theorem get_or_create_again engine_fails engine_fails' d name db o db' :
  get_or_create engine_fails d name db = Ok (o, db') ->
  engine_fails' db' (SelectId d (default "" name)) = false ->
  get_or_create engine_fails' d name db' = Ok (o, db').
Proof.
  unfold get_or_create. destruct (Py.truthy name) eqn:Ht.
  - intros H Hq. apply bind_inv in H as (found & d1 & Hsel & H).
    apply execute_ok in Hsel. cbn [run] in Hsel. injection Hsel as <- <-.
    unfold bind, execute at 1. rewrite Hq. cbn [run].
    destruct (lookup_id (default "" name) (table_of d db)) as [i|] eqn:E.
    + injection H as <- <-. rewrite E. reflexivity.
    + apply execute_ok in H. cbn [run] in H.
      destruct (has_name _ _); [discriminate|]. injection H as <- <-.
      rewrite table_of_add_row. unfold lookup_id in *.
      destruct (List.find _ (table_of d db)) eqn:F; [discriminate|].
      rewrite (find_app_none _ _ _ F) by apply String.eqb_refl. reflexivity.
  - intros [= <- <-] _. reflexivity.
Qed.

Lemma get_or_create_again_witness :
  get_or_create_journal (refuse_title "Beta") (Some "Nature")
    (add_row Journals (1%Z, "Nature") empty_db)
  = Ok (Some 1%Z, add_row Journals (1%Z, "Nature") empty_db).
Proof.
  apply (get_or_create_again quiet_engine (refuse_title "Beta") Journals
           (Some "Nature") empty_db); reflexivity.
Defined.
(** * Properties of [build_ideal_record] *)

Lemma ideal_scan_sublist lines : forall collecting seen,
  ideal_scan collecting seen lines `sublist_of` lines.
Proof.
  induction lines as [|l lines IH]; intros collecting seen; [constructor|].
  cbn [ideal_scan]. destruct collecting.
  - destruct (has_tag l); [apply sublist_cons | apply sublist_skip]; apply IH.
  - destruct (has_tag l); [|apply sublist_cons, IH].
    destruct (bool_decide _); [apply sublist_cons | apply sublist_skip]; apply IH.
Qed.

Lemma ideal_scan_tags lines : forall collecting seen,
  NoDup (map tag_of (List.filter has_tag (ideal_scan collecting seen lines))) /\
  (forall l, l ∈ ideal_scan collecting seen lines -> has_tag l = true ->
             tag_of l ∉ seen).
Proof.
  induction lines as [|l lines IH]; intros collecting seen.
  { split; [constructor | intros l Hl; inversion Hl]. }
  cbn [ideal_scan]. destruct collecting.
  - destruct (has_tag l) eqn:Ht; [apply IH|].
    destruct (IH true seen) as [Hnd Hseen]. cbn [List.filter]. rewrite Ht.
    split; [exact Hnd|]. intros x Hx Hxt.
    apply elem_of_cons in Hx as [-> | Hx]; [congruence | auto].
  - destruct (has_tag l) eqn:Ht; [|apply IH].
    destruct (bool_decide (tag_of l ∈ seen)) eqn:Hs; [apply IH|].
    apply bool_decide_eq_false in Hs.
    destruct (IH true ({[tag_of l]} ∪ seen)) as [Hnd Hseen].
    cbn [List.filter]. rewrite Ht. cbn [map]. split.
    + apply NoDup_cons. split; [|exact Hnd].
      intros Hin. apply list_elem_of_fmap in Hin as (x & Hx & Hin).
      apply list_elem_of_In, filter_In in Hin as [Hin Hxt].
      apply list_elem_of_In in Hin. specialize (Hseen x Hin Hxt).
      apply Hseen. rewrite <- Hx. apply elem_of_union_l, elem_of_singleton.
      reflexivity.
    + intros x Hx Hxt. apply elem_of_cons in Hx as [-> | Hx]; [exact Hs|].
      intros Hin. apply (Hseen x Hx Hxt). apply elem_of_union_r, Hin.
Qed.

Lemma ideal_scan_head lines : forall seen l,
  head (ideal_scan false seen lines) = Some l -> has_tag l = true.
Proof.
  induction lines as [|x lines IH]; intros seen l H; [discriminate|].
  cbn [ideal_scan] in H. destruct (has_tag x) eqn:Ht; [|apply (IH _ _ H)].
  destruct (bool_decide _); [apply (IH _ _ H)|].
  injection H as <-. exact Ht.
Qed.

(** X15. The ideal record is made of lines of the file, in the order of
    the file; it starts with a tag line; and no two of its tag lines
    carry the same tag. *)
Theorem build_ideal_record_sound lines :
  build_ideal_record lines `sublist_of` lines /\
  (forall l, head (build_ideal_record lines) = Some l -> has_tag l = true) /\
  NoDup (map tag_of (List.filter has_tag (build_ideal_record lines))).
Proof.
  unfold build_ideal_record. split; [apply ideal_scan_sublist|].
  split; [apply ideal_scan_head | apply ideal_scan_tags].
Qed.

Lemma ideal_scan_every_other lines : forall seen,
  Forall (fun l => has_tag l = true) lines ->
  NoDup (map tag_of lines) ->
  (forall l, l ∈ lines -> tag_of l ∉ seen) ->
  ideal_scan false seen lines = every_other lines /\
  ideal_scan true seen lines = every_other (tail lines).
Proof.
  induction lines as [|l lines IH]; intros seen Hall Hnd Hseen;
    [split; reflexivity|].
  inversion Hall as [|? ? Ht Hrest]; subst.
  cbn [map] in Hnd. apply NoDup_cons in Hnd as [Hl Hnd].
  assert (Hfresh : tag_of l ∉ seen) by (apply Hseen; left).
  destruct (IH seen Hrest Hnd) as [IH1 _].
  { intros x Hx. apply Hseen. right. exact Hx. }
  destruct (IH ({[tag_of l]} ∪ seen) Hrest Hnd) as [_ IH2].
  { intros x Hx Hin. apply elem_of_union in Hin as [Hin | Hin].
    - apply elem_of_singleton in Hin. apply Hl. rewrite <- Hin.
      apply list_elem_of_fmap. eauto.
    - apply (Hseen x); [right; exact Hx | exact Hin]. }
  cbn [ideal_scan tail]. rewrite Ht. split; [|exact IH1].
  rewrite bool_decide_eq_false_2 by exact Hfresh. rewrite IH2.
  destruct lines; reflexivity.
Qed.

(** X16. The tag line that ends a run of continuation lines is lost:
    it was taken from the file by the inner loop, and the outer loop
    goes on with the line after it.  So of a file made of tag lines
    only, with tags all different, the ideal record holds the first,
    the third, the fifth, ... and none of the others. *)
Theorem build_ideal_record_skips lines :
  Forall (fun l => has_tag l = true) lines ->
  NoDup (map tag_of lines) ->
  build_ideal_record lines = every_other lines.
Proof.
  intros Hall Hnd. apply (ideal_scan_every_other lines ∅ Hall Hnd).
  intros l _. apply not_elem_of_empty.
Qed.

Lemma build_ideal_record_skips_witness :
  build_ideal_record three_tag_lines
  = ["TY  - JOUR" +:+ newline; "AU  - Doe, A." +:+ newline].
Proof.
  assert (Hall : Forall (fun l => has_tag l = true) three_tag_lines)
    by (repeat constructor).
  assert (Hnd : NoDup (map tag_of three_tag_lines)).
  { change (map tag_of three_tag_lines) with ["TY"; "TI"; "AU"].
    apply (bool_decide_unpack _). vm_compute. exact I. }
  rewrite (build_ideal_record_skips three_tag_lines Hall Hnd). reflexivity.
Defined.
(** * Properties of the review of partial duplicates *)

(** ** The comparison list *)

Lemma all_matches_app dup :
  all_matches dup = title_duplicates dup ++ abstract_duplicates dup.
Proof.
  unfold all_matches.
  destruct (title_duplicates dup), (abstract_duplicates dup); reflexivity.
Qed.

Lemma keep_first_spec matches : forall seen,
  keep_first seen matches `sublist_of` matches /\
  NoDup (map m_id (keep_first seen matches)) /\
  (forall m, m ∈ keep_first seen matches -> m_id m ∉ seen) /\
  (forall m, m ∈ matches ->
     m_id m ∈ seen \/ m_id m ∈ map m_id (keep_first seen matches)).
Proof.
  induction matches as [|m matches IH]; intros seen.
  { cbn [keep_first map]. split; [apply sublist_nil|].
    split; [apply NoDup_nil_2|].
    split; intros m Hm; inversion Hm. }
  cbn [keep_first]. destruct (bool_decide (m_id m ∈ seen)) eqn:Hs.
  - apply bool_decide_eq_true in Hs. destruct (IH seen) as (H1 & H2 & H3 & H4).
    split; [apply sublist_cons, H1|]. split; [exact H2|]. split; [exact H3|].
    intros x Hx. apply elem_of_cons in Hx as [-> | Hx]; auto.
  - apply bool_decide_eq_false in Hs.
    destruct (IH ({[m_id m]} ∪ seen)) as (H1 & H2 & H3 & H4).
    split; [apply sublist_skip, H1|]. split; [|split].
    + cbn [map]. apply NoDup_cons. split; [|exact H2].
      intros Hin. apply list_elem_of_fmap in Hin as (x & Hx & Hin).
      apply (H3 x Hin). rewrite <- Hx. apply elem_of_union_l, elem_of_singleton.
      reflexivity.
    + intros x Hx. apply elem_of_cons in Hx as [-> | Hx]; [exact Hs|].
      intros Hin. apply (H3 x Hx). apply elem_of_union_r, Hin.
    + intros x Hx. cbn [map]. apply elem_of_cons in Hx as [-> | Hx].
      * right. left.
      * destruct (H4 x Hx) as [Hin | Hin].
        -- apply elem_of_union in Hin as [Hin | Hin]; [|auto].
           apply elem_of_singleton in Hin. right. rewrite Hin. left.
        -- right. right. exact Hin.
Qed.

(** X17. The list of stored records shown for a partial duplicate: it
    is made of rows of the two match lists, in their order; no two of
    its rows have the same identifier; and every identifier of a match
    is the identifier of one of its rows. *)
Theorem unique_matches_sound dup :
  unique_matches dup `sublist_of`
    (title_duplicates dup ++ abstract_duplicates dup) /\
  NoDup (map m_id (unique_matches dup)) /\
  (forall i, i ∈ map m_id (unique_matches dup) <->
             i ∈ map m_id (title_duplicates dup ++ abstract_duplicates dup)).
Proof.
  unfold unique_matches. rewrite all_matches_app.
  destruct (keep_first_spec (title_duplicates dup ++ abstract_duplicates dup) ∅)
    as (H1 & H2 & _ & H4).
  split; [exact H1|]. split; [exact H2|]. intros i. split.
  - intros Hi. apply list_elem_of_fmap in Hi as (m & -> & Hm).
    apply list_elem_of_fmap. exists m. split; [reflexivity|].
    apply (elem_of_sublist _ _ _ Hm H1).
  - intros Hi. apply list_elem_of_fmap in Hi as (m & -> & Hm).
    destruct (H4 m Hm) as [Hin | Hin]; [|exact Hin].
    exfalso. apply (not_elem_of_empty _ Hin).
Qed.

Lemma keep_first_nodup matches : forall seen,
  NoDup (map m_id matches) ->
  (forall m, m ∈ matches -> m_id m ∉ seen) ->
  keep_first seen matches = matches.
Proof.
  induction matches as [|m matches IH]; intros seen Hnd Hseen; [reflexivity|].
  cbn [map] in Hnd. apply NoDup_cons in Hnd as [Hm Hnd].
  cbn [keep_first]. rewrite bool_decide_eq_false_2 by (apply Hseen; left).
  f_equal. apply IH; [exact Hnd|]. intros x Hx Hin.
  apply elem_of_union in Hin as [Hin | Hin].
  - apply elem_of_singleton in Hin. apply Hm. rewrite <- Hin.
    apply list_elem_of_fmap. eauto.
  - apply (Hseen x); [right; exact Hx | exact Hin].
Qed.

Lemma filter_ids_nodup db p :
  NoDup (map a_id (articles db)) ->
  NoDup (map m_id (map (select_row db) (List.filter p (articles db)))).
Proof.
  intros Hnd. rewrite map_map. cbn [select_row m_id].
  induction (articles db) as [|a l IH]; [constructor|].
  cbn [map] in Hnd. apply NoDup_cons in Hnd as [Ha Hnd].
  cbn [List.filter]. destruct (p a); [|apply IH, Hnd].
  cbn [map]. apply NoDup_cons. split; [|apply IH, Hnd].
  intros Hin. apply Ha. apply list_elem_of_fmap in Hin as (x & -> & Hx).
  apply list_elem_of_fmap. exists x. split; [reflexivity|].
  apply list_elem_of_In. apply list_elem_of_In, filter_In in Hx as [Hx _].
  exact Hx.
Qed.

Lemma title_matches_nodup db r :
  NoDup (map a_id (articles db)) -> NoDup (map m_id (title_matches db r)).
Proof.
  intros Hnd. unfold title_matches. destruct (title r); [|constructor].
  apply filter_ids_nodup, Hnd.
Qed.

Lemma abstract_matches_nodup db r :
  NoDup (map a_id (articles db)) -> NoDup (map m_id (abstract_matches db r)).
Proof.
  intros Hnd. unfold abstract_matches.
  destruct (String.eqb _ _); [constructor|]. apply filter_ids_nodup, Hnd.
Qed.

(** X18. For a partial duplicate nothing is dropped from that list:
    when the articles of the store have distinct identifiers, the rows
    shown for a record that [check_duplicates] reported as a partial
    duplicate are all its title matches followed by all its abstract
    matches. *)
Theorem partial_duplicate_shows_all_matches db rs src u f p :
  NoDup (map a_id (articles db)) ->
  check_duplicates db rs src = Ok (u, f, p) ->
  forall dup, dup ∈ p ->
    unique_matches dup = title_duplicates dup ++ abstract_duplicates dup.
Proof.
  intros Hnd H dup Hdup.
  pose proof (check_loop_returns _ _ _ _ _ H) as Hall.
  rewrite (check_duplicates_partition _ _ _ Hall) in H.
  injection H as <- <- <-.
  apply list_elem_of_fmap in Hdup as (r & -> & Hr).
  apply elem_of_with_verdict in Hr as [_ Hv].
  apply verdict_partial in Hv as [_ Hnc].
  unfold unique_matches. rewrite all_matches_app.
  cbn [evidence title_duplicates abstract_duplicates].
  apply keep_first_nodup; [|intros m _; apply not_elem_of_empty].
  rewrite map_app. apply NoDup_app. split; [apply title_matches_nodup, Hnd|].
  split; [|apply abstract_matches_nodup, Hnd].
  intros i H1 H2. apply Hnc. apply common_id_exists. eauto.
Qed.

Lemma sample_store_ids : NoDup (map a_id (articles sample_store)).
Proof. apply (bool_decide_unpack _). vm_compute. exact I. Qed.

Lemma partial_duplicate_shows_all_matches_witness :
  unique_matches (evidence sample_store "PubMed" incoming_partial)
  = title_duplicates (evidence sample_store "PubMed" incoming_partial)
    ++ abstract_duplicates (evidence sample_store "PubMed" incoming_partial).
Proof.
  apply (partial_duplicate_shows_all_matches sample_store sample_incoming
           "PubMed" _ _ _ sample_store_ids classify_sample).
  left.
Defined.

(** ** The decisions *)

Lemma store_items_cons engine_fails item rest n db :
  store_items engine_fails (item :: rest) n db =
  match store_record_in_database engine_fails (di_record item)
          (di_source_name item) db with
  | Ok (_, db') => store_items engine_fails rest (S n) db'
  | Raise e => Raise e
  end.
Proof.
  cbn [store_items]. unfold bind.
  destruct (store_record_in_database _ _ _ db) as [[? ?]|]; reflexivity.
Qed.

Lemma store_items_ok engine_fails items : forall n db k db',
  store_items engine_fails items n db = Ok (k, db') ->
  k = (n + length items)%nat /\
  exists rows,
    articles db' = articles db ++ rows /\
    Forall2 (fun d row => title (di_record d) = Some (a_title row) /\
                          a_year row = year (di_record d) /\
                          a_abstract row = abstract (di_record d))
            items rows.
Proof.
  induction items as [|d items IH]; intros n db k db' H.
  - cbn [store_items] in H. unfold ret in H. injection H as <- <-.
    split; [cbn [length]; lia|]. exists []. rewrite app_nil_r.
    split; [reflexivity | constructor].
  - rewrite store_items_cons in H.
    destruct (store_record_in_database _ _ _ db) as [[o d1]|] eqn:E;
      [|discriminate].
    apply store_record_ok in E as (t & jid & sid & Ht & _ & Harts & _).
    apply IH in H as (-> & rows & Hrows & Hall).
    split; [cbn [length]; lia|]. eexists (_ :: rows). split.
    + rewrite Hrows, Harts, <- app_assoc. reflexivity.
    + constructor; [|exact Hall]. cbn [a_title a_year a_abstract]. auto.
Qed.

(** X19. Processing the decisions is all or nothing, and an insert
    that fails is caught, not passed on.  Either the store and the
    decisions are left exactly as they were (no entry in the session,
    no record approved, or an insert that failed and was rolled back),
    or the decisions are cleared and the store holds one more article for each approved
    record, in the order of the decisions; records marked as duplicate
    or left for later are never stored. *)
Theorem decisions_all_or_nothing engine_fails session db :
  let '(session', db') :=
    process_partial_duplicate_decisions engine_fails session db in
  (session' = session /\ db' = db) \/
  (session' = Some [] /\
   exists decisions rows,
     session = Some decisions /\
     articles db' = articles db ++ rows /\
     rows <> [] /\
     Forall2 (fun d row => title (di_record d) = Some (a_title row) /\
                           a_year row = year (di_record d) /\
                           a_abstract row = abstract (di_record d))
             (List.filter is_unique_decision (map snd decisions)) rows).
Proof.
  unfold process_partial_duplicate_decisions.
  destruct session as [decisions|]; [|left; auto].
  destruct (List.filter is_unique_decision (map snd decisions)) as [|d ds] eqn:E;
    [left; auto|].
  unfold create_database. cbn [in_txn on_disk].
  destruct (store_items engine_fails (d :: ds) 0 db) as [[k db']|e] eqn:Hs;
    [|left; auto].
  right. split; [reflexivity|].
  apply store_items_ok in Hs as (_ & rows & Hrows & Hall).
  exists decisions, rows. rewrite E. cbn [close commit on_disk in_txn].
  split; [reflexivity|]. split; [exact Hrows|]. split; [|exact Hall].
  inversion Hall; discriminate.
Qed.

Section QuietDecisions.

Variable engine_fails : database -> statement -> bool.
Hypothesis quiet : forall db s, engine_fails db s = false.

Lemma store_record_quiet r src db :
  titled r ->
  exists o db', store_record_in_database engine_fails r src db = Ok (o, db').
Proof.
  intros [t Ht].
  destruct (get_or_create_quiet engine_fails quiet Sources (Some src) db)
    as (sid & d1 & Hsrc & Hsfk & _).
  destruct (get_or_create_quiet engine_fails quiet Journals (journal r) d1)
    as (jid & d2 & Hjrn & Hjfk & Hjrow & _).
  cbn [table_of] in Hsfk, Hjfk.
  pose proof (at_most_one_row_other Journals Sources _ _
                ltac:(discriminate) Hjrow) as Hs2.
  cbn [table_of] in Hs2.
  set (aid := next_rowid (map a_id (articles d2))).
  set (row := {| a_id := aid; a_title := t; a_journal_id := jid;
                 a_source_id := sid; a_year := year r;
                 a_abstract := abstract r |}).
  assert (Hins : execute engine_fails
                   (InsertArticle (title r) jid sid (year r) (abstract r)) d2
                 = Ok (Some aid, add_article row d2)).
  { rewrite (execute_quiet _ quiet). cbn [run]. rewrite Ht, Hjfk, Hs2, Hsfk.
    reflexivity. }
  assert (Haid : has_id aid (map a_id (articles (add_article row d2))) = true).
  { cbn [add_article articles]. rewrite map_app. apply has_id_last. }
  destruct (store_authors_quiet engine_fails quiet aid (authors r) _ Haid)
    as (d4 & Hau & A1 & _).
  destruct (store_keywords_quiet engine_fails quiet aid (keywords r) d4)
    as (d5 & Hkw & _); [rewrite A1; exact Haid|].
  exists (Some aid), d5.
  unfold store_record_in_database, get_or_create_source, get_or_create_journal.
  rewrite (bind_ok _ _ _ _ _ Hsrc), (bind_ok _ _ _ _ _ Hjrn).
  rewrite (bind_ok _ _ _ _ _ Hins), (bind_ok _ _ _ _ _ Hau).
  rewrite (bind_ok _ _ _ _ _ Hkw). reflexivity.
Qed.

Lemma store_items_quiet items : forall n db,
  Forall (fun d => titled (di_record d)) items ->
  exists k db', store_items engine_fails items n db = Ok (k, db').
Proof.
  induction items as [|d items IH]; intros n db Hall.
  - exists n, db. reflexivity.
  - inversion Hall as [|? ? Hd Hrest]; subst. rewrite store_items_cons.
    destruct (store_record_quiet (di_record d) (di_source_name d) db Hd)
      as (o & d1 & ->). apply IH, Hrest.
Qed.

End QuietDecisions.

(** X20. An approved record is stored as it is, without being
    classified again: when the engine refuses nothing and the approved
    records have a title, each of them adds one article with its title
    to the store, whatever the store already holds, and the decisions
    are cleared. *)
Theorem approved_records_are_stored engine_fails decisions db :
  (forall d s, engine_fails d s = false) ->
  Forall (fun d => is_unique_decision d = true -> titled (di_record d))
         (map snd decisions) ->
  List.filter is_unique_decision (map snd decisions) <> [] ->
  exists db' rows,
    process_partial_duplicate_decisions engine_fails (Some decisions) db
    = (Some [], db') /\
    articles db' = articles db ++ rows /\
    map (fun row => Some (a_title row)) rows
    = map (fun d => title (di_record d))
          (List.filter is_unique_decision (map snd decisions)).
Proof.
  intros quiet Hall Hne. unfold process_partial_duplicate_decisions.
  destruct (List.filter is_unique_decision (map snd decisions)) as [|d ds] eqn:E;
    [contradiction|].
  assert (Ht : Forall (fun d => titled (di_record d)) (d :: ds)).
  { rewrite <- E. apply Forall_forall. intros x Hx.
    apply list_elem_of_In, filter_In in Hx as [Hx Hu].
    rewrite Forall_forall in Hall. apply Hall; [apply list_elem_of_In, Hx | exact Hu]. }
  destruct (store_items_quiet engine_fails quiet (d :: ds) 0 db Ht)
    as (k & db' & Hs).
  unfold create_database. cbn [in_txn on_disk]. rewrite Hs.
  apply store_items_ok in Hs as (_ & rows & Hrows & Hrel).
  exists db', rows. split; [reflexivity|]. split; [exact Hrows|].
  clear -Hrel. induction Hrel as [|x row l k [Hx _] _ IH]; [reflexivity|].
  cbn [map]. f_equal; [symmetry; exact Hx | exact IH].
Qed.

Lemma approved_records_are_stored_witness :
  exists db',
    process_partial_duplicate_decisions quiet_engine (Some sample_decisions)
      sample_store = (Some [], db') /\
    map a_title (articles db') = ["  Deep Learning  "; "Graph Theory"; "Graph theory"].
Proof.
  assert (Hq : forall d s, quiet_engine d s = false) by reflexivity.
  assert (Hall : Forall (fun d => is_unique_decision d = true -> titled (di_record d))
                   (map snd sample_decisions)).
  { repeat constructor; intros _; eexists; reflexivity. }
  assert (Hne : List.filter is_unique_decision (map snd sample_decisions) <> [])
    by discriminate.
  destruct (approved_records_are_stored quiet_engine sample_decisions
              sample_store Hq Hall Hne) as (db' & rows & H1 & H2 & H3).
  exists db'. split; [exact H1|]. rewrite H2, map_app.
  change (map a_title (articles sample_store))
    with ["  Deep Learning  "; "Graph Theory"].
  f_equal. destruct rows as [|row [|row2 rest]]; try discriminate.
  cbn in H3. injection H3 as H3. cbn [map]. rewrite H3. reflexivity.
Defined.
(** * Properties of [remove_articles] *)

Lemma has_id_elem i ids : has_id i ids = true <-> i ∈ ids.
Proof.
  unfold has_id. rewrite existsb_exists, list_elem_of_In. split.
  - intros (x & Hx & Heq). apply Z.eqb_eq in Heq as ->. exact Hx.
  - intros H. exists i. split; [exact H | apply Z.eqb_refl].
Qed.

Lemma filter_length_le {A} (f : A -> bool) (l : list A) :
  (length (List.filter f l) <= length l)%nat.
Proof.
  induction l as [|x l IH]; [reflexivity|]. cbn [List.filter].
  destruct (f x); cbn [length]; lia.
Qed.

Lemma filter_length_split {A} (f : A -> bool) (l : list A) :
  length l
  = (length (List.filter (fun x => negb (f x)) l) + length (List.filter f l))%nat.
Proof.
  induction l as [|x l IH]; [reflexivity|]. cbn [List.filter].
  destruct (f x); cbn [negb length]; lia.
Qed.

Lemma elem_of_delete_articles ids tbl a :
  a ∈ delete_articles ids tbl <-> a ∈ tbl /\ (a_id a ∉ ids).
Proof.
  unfold delete_articles, id_in.
  rewrite !list_elem_of_In, filter_In, negb_true_iff, <- not_true_iff_false.
  rewrite has_id_elem, list_elem_of_In. reflexivity.
Qed.

Lemma elem_of_delete_links ids tbl p :
  p ∈ delete_links ids tbl <-> p ∈ tbl /\ (fst p ∉ ids).
Proof.
  unfold delete_links, id_in.
  rewrite !list_elem_of_In, filter_In, negb_true_iff, <- not_true_iff_false.
  rewrite has_id_elem, list_elem_of_In. reflexivity.
Qed.

(** The two outcomes of [remove_articles]. *)
Lemma remove_articles_cases engine_refuses ids db n db' :
  remove_articles engine_refuses ids db = (n, db') ->
  (n = 0%nat /\ db' = db) \/
  (ids <> [] /\
   n = (length (articles db) - length (delete_articles ids (articles db)))%nat /\
   db' = {| sources := sources db;
            articles := delete_articles ids (articles db);
            db_authors := db_authors db; journals := journals db;
            db_keywords := db_keywords db;
            article_author := delete_links ids (article_author db);
            article_keyword := delete_links ids (article_keyword db) |}).
Proof.
  unfold remove_articles. destruct ids as [|i ids]; [intros [= <- <-]; auto|].
  destruct (engine_refuses db _); [intros [= <- <-]; auto|].
  destruct (engine_refuses _ (DeleteArticleKeyword _)); [intros [= <- <-]; auto|].
  destruct (engine_refuses _ (DeleteArticles _)); [intros [= <- <-]; auto|].
  cbn [run_screening snd articles article_author article_keyword sources
       journals db_authors db_keywords].
  intros [= <- <-]. right. split; [discriminate|]. split; reflexivity.
Qed.

Lemma remove_articles_quiet engine_refuses ids db :
  (forall d s, engine_refuses d s = false) ->
  ids <> [] ->
  remove_articles engine_refuses ids db =
  ((length (articles db) - length (delete_articles ids (articles db)))%nat,
   {| sources := sources db;
      articles := delete_articles ids (articles db);
      db_authors := db_authors db; journals := journals db;
      db_keywords := db_keywords db;
      article_author := delete_links ids (article_author db);
      article_keyword := delete_links ids (article_keyword db) |}).
Proof.
  intros quiet Hne. unfold remove_articles.
  destruct ids as [|i ids]; [contradiction|]. rewrite !quiet. reflexivity.
Qed.

(** X21. What [remove_articles] does to the store.  The number it
    returns is the number of articles that left the store, whatever
    the engine refuses; the source, journal, author and keyword tables
    are never touched (their rows stay when their last article goes).
    When the number is not 0, the articles left are those whose
    identifier is not in the list, and no link to a listed identifier
    is left.  When the engine refuses nothing, the number is the
    number of stored articles whose identifier is in the list, and
    [get_total_count] goes down by it. *)
Theorem remove_articles_effect engine_refuses ids db :
  let '(n, db') := remove_articles engine_refuses ids db in
  length (articles db) = (length (articles db') + n)%nat /\
  sources db' = sources db /\ journals db' = journals db /\
  db_authors db' = db_authors db /\ db_keywords db' = db_keywords db /\
  (n <> 0%nat ->
   (forall a, a ∈ articles db' <-> a ∈ articles db /\ (a_id a ∉ ids)) /\
   (forall p, p ∈ article_author db' <->
              p ∈ article_author db /\ (fst p ∉ ids)) /\
   (forall p, p ∈ article_keyword db' <->
              p ∈ article_keyword db /\ (fst p ∉ ids))) /\
  ((forall d s, engine_refuses d s = false) ->
   n = length (List.filter (fun a => id_in ids (a_id a)) (articles db)) /\
   get_total_count engine_refuses db
   = (get_total_count engine_refuses db' + n)%nat).
Proof.
  destruct (remove_articles engine_refuses ids db) as [n db'] eqn:E.
  pose proof (filter_length_split (fun a => id_in ids (a_id a)) (articles db))
    as Hlen.
  split; [|split; [|split; [|split; [|split; [|split]]]]].
  - apply remove_articles_cases in E as [[-> ->] | (_ & -> & ->)]; [lia|].
    cbn [articles]. unfold delete_articles in *. lia.
  - apply remove_articles_cases in E as [[-> ->] | (_ & -> & ->)]; reflexivity.
  - apply remove_articles_cases in E as [[-> ->] | (_ & -> & ->)]; reflexivity.
  - apply remove_articles_cases in E as [[-> ->] | (_ & -> & ->)]; reflexivity.
  - apply remove_articles_cases in E as [[-> ->] | (_ & -> & ->)]; reflexivity.
  - intros Hn.
    apply remove_articles_cases in E as [[-> ->] | (_ & -> & ->)]; [contradiction|].
    cbn [articles article_author article_keyword].
    split; [intros a; apply elem_of_delete_articles|].
    split; intros p; apply elem_of_delete_links.
  - intros quiet. unfold get_total_count. rewrite !quiet.
    cbn [run_screening fst]. destruct ids as [|i ids].
    + injection E as <- <-. clear Hlen. split; [|lia].
      induction (articles db) as [|a l IH]; [reflexivity | exact IH].
    + rewrite (remove_articles_quiet _ _ _ quiet) in E by discriminate.
      injection E as <- <-. cbn [articles]. unfold delete_articles in *. lia.
Qed.

Lemma stored_title_match db r t a :
  title r = Some t -> a ∈ articles db ->
  title_where (Py.lower (Py.strip t)) a = true ->
  select_row db a ∈ title_matches db r.
Proof.
  intros Ht Ha Hw. unfold title_matches, select_by_title. rewrite Ht.
  apply list_elem_of_fmap. exists a. split; [reflexivity|].
  apply list_elem_of_In, filter_In. rewrite <- list_elem_of_In. auto.
Qed.

Lemma stored_abstract_match db r a :
  abstract_param r <> "" -> a ∈ articles db ->
  abstract_where (abstract_param r) a = true ->
  select_row db a ∈ abstract_matches db r.
Proof.
  intros Hp Ha Hw. unfold abstract_matches, select_by_abstract.
  apply String.eqb_neq in Hp. rewrite Hp.
  apply list_elem_of_fmap. exists a. split; [reflexivity|].
  apply list_elem_of_In, filter_In. rewrite <- list_elem_of_In. auto.
Qed.

(** X22. A record whose stored matches have all been removed is unique
    again: when [remove_articles] returns a number other than 0 and
    the list held the identifier of every title match and every
    abstract match of a record, the record is classified as unique
    against the store that is left. *)
Theorem removed_matches_make_unique engine_refuses ids db n db' r src :
  remove_articles engine_refuses ids db = (n, db') ->
  n <> 0%nat ->
  titled r ->
  (forall m, m ∈ title_matches db r ++ abstract_matches db r -> m_id m ∈ ids) ->
  check_duplicates db' [r] src = Ok ([r], [], []).
Proof.
  intros E Hn Hr Hall.
  apply remove_articles_cases in E as [[-> _] | (_ & _ & ->)]; [contradiction|].
  rewrite (check_single _ _ _ Hr).
  match goal with |- context [verdict ?d r] => set (db' := d) end.
  assert (Hu : verdict db' r = Unique); [|rewrite Hu; reflexivity].
  destruct Hr as [t Ht]. apply verdict_unique. split.
  - destruct (title_matches db' r) eqn:Em; [reflexivity|]. exfalso.
    assert (Hne : title_matches db' r <> []) by (rewrite Em; discriminate).
    apply (title_matches_nonempty _ _ _ Ht) in Hne as (a & Ha & Hw).
    apply elem_of_delete_articles in Ha as [Ha Hid]. apply Hid.
    apply (Hall (select_row db a)). apply elem_of_app. left.
    apply (stored_title_match _ _ _ _ Ht Ha Hw).
  - destruct (abstract_matches db' r) eqn:Em; [reflexivity|]. exfalso.
    assert (Hne : abstract_matches db' r <> []) by (rewrite Em; discriminate).
    apply abstract_matches_nonempty in Hne as (Hp & a & Ha & Hw).
    apply elem_of_delete_articles in Ha as [Ha Hid]. apply Hid.
    apply (Hall (select_row db a)). apply elem_of_app. right.
    apply (stored_abstract_match _ _ _ Hp Ha Hw).
Qed.

Lemma removed_matches_make_unique_witness :
  check_duplicates (snd (remove_articles quiet_screening [1%Z; 2%Z] sample_store))
    [incoming_partial] "PubMed"
  = Ok ([incoming_partial], [], []).
Proof.
  apply (removed_matches_make_unique quiet_screening [1%Z; 2%Z] sample_store
           2%nat _ incoming_partial "PubMed").
  - reflexivity.
  - discriminate.
  - eexists; reflexivity.
  - intros m Hm. vm_compute in Hm.
    apply elem_of_cons in Hm as [-> | Hm]; [left|].
    apply elem_of_cons in Hm as [-> | Hm]; [right; left | inversion Hm].
Defined.

Lemma delete_last_article ids_before l row :
  a_id row ∉ map a_id l ->
  ids_before = [a_id row] ->
  delete_articles ids_before (l ++ [row]) = l.
Proof.
  intros Hfresh ->. unfold delete_articles, id_in, has_id.
  rewrite List.filter_app. cbn [List.filter existsb].
  rewrite Z.eqb_refl. cbn [orb negb]. rewrite app_nil_r.
  induction l as [|a l IH]; [reflexivity|].
  cbn [map] in Hfresh. apply not_elem_of_cons in Hfresh as [Hne Hfresh].
  cbn [List.filter existsb].
  assert (Hf : (a_id a =? a_id row)%Z = false) by (apply Z.eqb_neq; congruence).
  rewrite Hf. cbn [orb negb]. rewrite (IH Hfresh). reflexivity.
Qed.

(** X23. Identifiers of removed articles come back.  When the article
    stored last is removed again, the next article stored gets the
    very identifier that the removed one had: an identifier kept
    outside the store can come to name another article. *)
Theorem removed_identifier_is_reused engine_fails engine_fails' engine_refuses
    r src db id db1 n db2 r' src' o db3 :
  store_record_in_database engine_fails r src db = Ok (Some id, db1) ->
  remove_articles engine_refuses [id] db1 = (n, db2) ->
  n <> 0%nat ->
  store_record_in_database engine_fails' r' src' db2 = Ok (o, db3) ->
  o = Some id.
Proof.
  intros H1 H2 Hn H3.
  apply store_record_ok in H1 as (t & jid & sid & _ & Hid & Harts & _).
  injection Hid as ->.
  apply remove_articles_cases in H2 as [[-> _] | (_ & _ & ->)]; [contradiction|].
  apply store_record_ok in H3 as (t' & jid' & sid' & _ & -> & _).
  cbn [articles]. rewrite Harts.
  rewrite (delete_last_article [next_rowid (map a_id (articles db))]);
    [reflexivity | apply next_rowid_fresh | reflexivity].
Qed.

Lemma removed_identifier_is_reused_witness :
  exists db1 db2 db3,
    store_record_in_database quiet_engine full_record "Scopus" sample_store
    = Ok (Some 3%Z, db1) /\
    remove_articles quiet_screening [3%Z] db1 = (1%nat, db2) /\
    store_record_in_database quiet_engine sparse_record "PubMed" db2
    = Ok (Some 3%Z, db3).
Proof.
  destruct (store_record_in_database quiet_engine full_record "Scopus"
              sample_store) as [[o1 db1]|] eqn:E1;
    [|vm_compute in E1; discriminate E1].
  assert (Ho1 : o1 = Some 3%Z) by (vm_compute in E1; congruence).
  subst o1.
  destruct (remove_articles quiet_screening [3%Z] db1) as [n db2] eqn:E2.
  assert (Hn : n = 1%nat).
  { vm_compute in E1. injection E1 as <-. vm_compute in E2. congruence. }
  subst n.
  destruct (store_record_in_database quiet_engine sparse_record "PubMed" db2)
    as [[o3 db3]|] eqn:E3.
  - exists db1, db2, db3. split; [reflexivity|]. split; [exact E2|].
    rewrite E3. f_equal. f_equal.
    apply (removed_identifier_is_reused quiet_engine quiet_engine
             quiet_screening full_record "Scopus" sample_store 3%Z db1 1%nat
             db2 sparse_record "PubMed" o3 db3 E1 E2 ltac:(discriminate) E3).
  - exfalso. vm_compute in E1. injection E1 as <-. vm_compute in E2.
    injection E2 as <-. vm_compute in E3. discriminate E3.
Defined.
